(* ===== verification/_CoqProject ===== *)
-Q . S2P
Prelude.v
Glsl.v
Fractal.v
FractalLoop.v
Interference.v
Clock.v
Plane.v
Host.v
Viewport.v
Projection.v
Raster.v
Engine.v
EngineProps.v
React.v
Shading.v
Surface.v
