(* ===== verification/Prelude.v ===== *)
(** * FractalMetamorphosis2D: a verification development

    The repository renders a full-window animated 2D surface with Three.js.
    It has three near-identical entry points under [src/src/scripts/]:
    - [FractalAnimation.ts]: a plain script [initFractalAnimation] that looks
      up the DOM node ["three-container"], logs an error if it is absent, and
      otherwise sets up scene, camera, renderer, a [PlaneGeometry(4,4,100,100)]
      with an escape-time fractal fragment shader, a window ["resize"]
      listener and a perpetual [requestAnimationFrame] loop.  It has no
      teardown.
    - [FractalAnimation.tsx]: the same engine inside a React [useEffect],
      mounted on a [ref]; its effect returns a cleanup that removes the
      resize listener, detaches the canvas and disposes renderer, geometry
      and material.
    - [QuantumVisualization.tsx]: the same React engine with a
      wave-interference shader and a third uniform [collapse] that a click
      on the canvas flips between 0 and 1.

    Parts and how they interact.  A host (the browser window) delivers
    resize notifications, clicks and animation frames.  The resize handler
    reads [window.innerWidth/innerHeight] and writes camera aspect,
    renderer size and the [resolution] uniform; the click handler flips
    [collapse]; each frame callback re-requests a frame, copies
    [clock.getElapsedTime()] into the [time] uniform and renders.  The
    fragment shaders are pure functions of the uniforms and the surface
    coordinate.

    Layout of the library (each file opens with its own summary):
    - [Prelude] (this file): the [glsl_scope] and [engine_scope] notations
      ([x |> f] writes a handler's statements in source order), the [fm]
      hint database and the [qr2r] rewrite base with the [qr_push] and
      [ms_to_s] tactics, boolean comparisons [Rgtb]/[Qgtb], and the shared
      lemmas on [Q2R], [sqrt], [cos] periodicity and [Nat.iter].
    - [Glsl]: GLSL [vec2]/[vec3]/[vec4] over [R] and the builtins the
      shaders call ([vec2(s)], [+], [-], [vec * float], [length], [mix]),
      with their GLSL ES 1.00 meaning, and a rational [vec2Q] with the
      injection [toR].
    - [Fractal]: [fractal] and the shader [main] of the fractal variants
      (FractalAnimation.ts lines 39-59; FractalAnimation.tsx lines 39-58
      are identical).  The [for] loop with [break] is [escape_loop], in a
      Section over any carrier; [fractal] instantiates it over [R] with
      [length z > 2.0]; [fractalQ] over [Q] (squared norm, reduced
      fractions) is the executable evaluator, related by the Section
      [EscapeLoopSimulation].
    - [FractalLoop]: the same loop as GLSL runs it, [for_break]: an [int]
      counter tested before each trip, the [break], the increment, and a
      fuel bounding the number of tests ([None] when it runs out), with
      [fractal_for] the function [fractal] written with it.
    - [Interference]: [interference] and [main] of QuantumVisualization.tsx
      (lines 41-63).
    - [Clock]: Three.js [Clock] (constructor, [start], [getDelta],
      [getElapsedTime]), library code modelled from its behaviour, with
      [performance.now()] passed explicitly; [readings] folds reads.
    - [Plane]: Three.js [PlaneGeometry], library code modelled from its
      source: the nested [for] loops ([for_range]) pushing positions,
      normals, uvs and indices into four arrays ([Buffers], [bappend]),
      [setIndex] with its [Uint16Array]/[Uint32Array] choice
      ([arrayNeedsUint32]), attribute reads [attr3]/[attr2], and [plane],
      the repository's [PlaneGeometry(4, 4, 100, 100)].  The loops are
      proved equal to a row-major concatenation ([plane_ref]).
    - [Host]: JavaScript division of the window size ([js_div], with
      [Infinity]/[NaN]), the window, listener sets as stdpp [gset] (the DOM
      registers a listener once), the camera and renderer records and the
      operations the engine calls on them.
    - [Viewport]: what [renderer.setSize] gives WebGL: the drawing buffer
      and the viewport [(0, 0, w, h)] at the default [pixelRatio] 1, and
      the viewport transform from device to window coordinates.
    - [Projection]: the vertex shader [main] of the three entry points
      ([vertex_main]) over reals, with Three.js's [Matrix4] as its
      column-major [elements], [makePerspective], the arithmetic of
      [updateProjectionMatrix] ([projectionMatrix], [None] for a
      non-finite aspect), the model-view matrix of the camera at
      [(0, 0, 2)] and the mesh at the origin, and the perspective division
      [ndc]; [covers_viewport] says that the plane's image fills the
      normalised device square.
    - [Raster]: the step between the two shaders, from the OpenGL ES 2.0
      specification: the vertex shader run on the vertices a triangle
      names ([shade_vertex], attributes fetched from [Plane]'s buffers),
      and the fragment at given barycentric weights with its device
      position and its perspective-correct [vUv] ([interpolate],
      [rasterize]).
    - [Engine]: the [Engine] record (host side, Three.js objects, uniforms,
      the trace of [renderer.render] calls), [handleResize], [handleClick],
      [animate], the setups, the three mount functions
      ([initFractalAnimation] and the two [useEffect] bodies), the two
      cleanups, host [Event]s with [step]/[run], and [reachable] for host
      events that respect [event_ok].
    - [EngineProps]: the invariant [engine_inv] (one preservation lemma per
      event, then induction on [reachable]) and the engine theorems.
    - [Shading]: the interface between engine and kernels, the class
      [Shader v] (a colour function, valid whenever [collapse] satisfies the
      engine's invariant, and blind to [resolution]), with one instance per
      entry point binding the GLSL uniforms to [fractal_main] or
      [quantum_main]; its client theorems are proved against the class.
    - [React]: React's lifecycle around the two components.  A render
      calls the function component ([FractalAnimation],
      [QuantumVisualization]: [useRef(null)], [useEffect(effect, [])], the
      returned [<div ref={containerRef}>]); a commit creates the [<div>],
      attaches the ref and schedules the effect when its deps differ from
      the committed ones ([deps_equal]); a passive-effect flush runs the
      previous cleanup and then the effect body, [Engine.mount]; an
      unmount detaches the ref and runs the last cleanup.  [Fiber] is
      React's state of one instance, with every engine an effect built;
      [react_run] folds a sequence of [ReactEvent]s, host events included.
      React itself is library code, modelled from its documented order.
    - [Surface]: engine and vertex stage together: the camera keeps the
      repository's constants through every event, so the coverage of the
      canvas is decided by the window's aspect in every mounted state.

    Theorems, by group (claim ids in the doc comments).
    - Fractal kernel (C1-C7): [fractal] returns the first escape index of
      the orbit of [z -> z^2 + c] or the cap 100; the count is in
      [1, 100]; the shader's [int]-counted loop stops at the escape index:
      with fuel [f] it returns exactly when [f > fractal uv], after testing
      [i = 0, ..., fractal uv] (at most 101 tests; that the real model
      equals the rational evaluator, and that 101 tests always suffice,
      are lemmas); [|c| > 2] gives exactly
      1; [c = 0] and the boundary point [c = -2] (strict test) give 100; the
      output is grey, opaque, with intensity in [[0.01, 1]] (its
      [2 PI]-periodicity in time is a lemma).
    - Interference kernel (C8-C10): [collapse = 1] gives [stateA]
      whatever the time, [collapse = 0] the superposition; channels in
      [[0, 0.8]] (its [PI]-periodicity in time is a lemma).
    - Clock (C11-C12): the first reading is 0 and later readings are the
      seconds since it; readings never decrease under a monotone host clock.
    - Engine (C13-C18, C23-C27): viewport consistency while mounted; binary
      [collapse]; monotone draw times; click parity over any interleaving;
      the frame loop never stops; the cleanup does not stop it either
      (a finding: draws continue on the disposed renderer); after cleanup
      resizes and clicks are inert; same-size resize is a no-op (cleanup
      is idempotent, a lemma; so are the mount outcomes); the first
      draw at time 0; a resize is visible whole at the next draw; a
      zero-height window gives an infinite aspect (no guard).
    - React lifecycle (C19-C22): under React's order, for any sequence of
      renders, commits, flushes, unmounts and host events, the effect never
      finds the ref null (the [if (!container) return;] guard is dead
      code, a finding), runs at most once and builds one engine per run;
      the mount builds exactly [setup]'s engine and re-renders keep it;
      after an unmount the ref is null and the cleanup has run once, yet
      the engine's frame stays requested on a disposed renderer; and
      React's lifecycle refines the engine model: mount, host events and
      re-renders in any order, unmount and later events leave exactly the
      engine [run] reaches from [setup] with the unmount as [EffectCleanup].
    - Engine and kernels together (C28-C29): every draw of a reachable
      engine, shaded by the kernel its entry point compiles ([kernel]:
      [fractal_shade] or [quantum_shade], each a proved [Shader]
      instance), yields valid pixels;
      after an odd number of clicks the next draw shows the collapsed
      colour at every coordinate.
    - Engine and vertex stage (C30-C33): in every mounted, settled state
      the plane covers the canvas exactly when [(W / H) tan(37.5 deg) <= 1];
      windows with [3 H^2 <= W^2] (16:9 among them) are never covered, a
      finding against the spec's full-viewport surface (square and portrait
      windows always are, a lemma); the plane lies strictly between the
      near and far planes; every fragment at window position [(x, y)]
      receives [vUv = (1/2 + t (2 x - W) / (2 H), 1/2 + t (2 y - H) / (2 H))],
      inside [[0, 1]^2]: the kernels see the screen scaled by [t / H] per
      pixel on both axes, never stretched.
    - Surface geometry (C34-C39): every stored index addresses a vertex;
      every triangle winds counter-clockwise towards the camera with
      positive area; the triangles tile the square [[-2, 2] x [-2, 2]]
      that [covers_viewport] quantifies over; vertex [k] read from the
      attributes is grid point [(k mod 101, k / 101)] (the index encoding
      and the buffer layout agree); the buffer lengths; the index is a
      [Uint16Array] that holds every index unchanged.

    Abstractions and bounds.  GLSL [float] is modelled by exact reals [R]
    and JavaScript numbers by exact rationals [Q] (plus [Infinity] and
    [NaN] for [innerWidth / innerHeight]); rounding, including the
    [Float32Array] storage of the plane's attributes, is not modelled.
    Typed-array stores are written out with their width ([ToUint16],
    [ToUint32]).  The shader counter [iterations] is a GLSL float
    incremented by 1.0 up to 100, exact in binary32, so it is a [nat].  The
    loop runs at most 100 times, the code's own constant, and every function
    is structurally recursive (the [PlaneGeometry] loops are [for_range]
    over their bounds); the one fuelled model, [for_break], is proved to
    need exactly [fractal uv + 1] tests of its counter on the shader's
    loop, so 101 (its variant [100 - i] plus the final test) suffice for
    every input and are needed where the orbit never escapes.  Concrete kernel inputs are
    evaluated through [fractalQ] by [vm_compute]; facts about the 10201
    vertices and 60000 indices of the repository's plane follow from the
    lemmas for any plane rather than from evaluation.  The segment counts
    of [PlaneGeometry] are natural numbers at least 1 ([Math.floor] is the
    identity on them; 0 would divide by zero).  A resize is two host steps
    (the window changes, then the queued event is dispatched) so that
    frames can interleave between them.  Mounting starts from a host with no
    pending resize event.

    Not modelled: the components' mount site (not in the repository, so
    whether they run under StrictMode's double effects is unknown; the
    model is React's production order), the DOM of the [<div>] beyond its
    presence and its ref, the
    Three.js scene graph beyond the matrices the vertex shader receives,
    the compilation of the [ShaderMaterial], which pixels a triangle
    covers (a fragment is given by its barycentric weights), the clear
    colour shown where the plane does not reach, and [console.error]'s
    sink beyond the logged line.  Each of these is either markup, library
    internals the repository only calls, or hardware behaviour; the model
    covers every statement of the three scripts that changes state, and
    [React] the hooks and markup around them. *)

From Stdlib Require Export QArith Qreals Reals Psatz Lia List.

Declare Scope glsl_scope.
Delimit Scope glsl_scope with glsl.

Create HintDb fm discriminated.
Create Rewrite HintDb qr2r.

(** Boolean strict comparison of reals, the GLSL [a > b]. *)
Definition Rgtb (a b : R) : bool := if Rlt_dec b a then true else false.

Notation "a >? b" := (Rgtb a b) (at level 70, no associativity) : glsl_scope.

Lemma Rgtb_true (a b : R) : Rgtb a b = true <-> (b < a)%R.
Proof. unfold Rgtb. destruct (Rlt_dec b a); split; congruence || tauto. Qed.

Lemma Rgtb_false (a b : R) : Rgtb a b = false <-> (a <= b)%R.
Proof.
  unfold Rgtb. destruct (Rlt_dec b a); split; intros; try lra; try congruence.
Qed.

(** Exact boolean strict comparison of rationals. *)
Definition Qgtb (a b : Q) : bool := if Qlt_le_dec b a then true else false.

Lemma Qgtb_true (a b : Q) : Qgtb a b = true <-> (b < a)%Q.
Proof.
  unfold Qgtb. destruct (Qlt_le_dec b a) as [H|H]; split; try congruence; auto.
  intros Hlt. exfalso. apply (Qlt_not_le _ _ Hlt H).
Qed.

(** [Q2R] commutes with the field operations: the rewrite base [qr2r]. *)
Lemma Q2R_opp' (a : Q) : Q2R (- a) = (- Q2R a)%R.
Proof. apply Q2R_opp. Qed.

#[export] Hint Rewrite Q2R_plus Q2R_mult Q2R_minus Q2R_opp' : qr2r.

Ltac qr_push := autorewrite with qr2r in *.

(** [Rgtb] on images of rationals is [Qgtb]. *)
Lemma Rgtb_Q2R (a b : Q) : Rgtb (Q2R a) (Q2R b) = Qgtb a b.
Proof.
  destruct (Qgtb a b) eqn:E.
  - apply Qgtb_true, Qlt_Rlt in E. now apply Rgtb_true.
  - apply Rgtb_false. apply Qle_Rle.
    unfold Qgtb in E. destruct (Qlt_le_dec b a); [discriminate | assumption].
Qed.

(** A square root exceeds a non-negative bound exactly when the radicand
    exceeds the bound's square. *)
Lemma sqrt_gt_iff (a r : R) :
  (0 <= a)%R -> (0 <= r)%R -> ((r < sqrt a)%R <-> (r * r < a)%R).
Proof.
  intros Ha Hr. rewrite <- (sqrt_square r) at 1 by exact Hr. split.
  - apply sqrt_lt_0_alt.
  - intros H. apply sqrt_lt_1_alt. split; [nra | exact H].
Qed.

Lemma sum_squares_nonneg (x y : R) : (0 <= x * x + y * y)%R.
Proof. nra. Qed.

#[export] Hint Resolve sum_squares_nonneg : fm.

(** [Nat.iter] unfolds on the inside as well as on the outside. *)
Lemma iter_succ_inner {A} (f : A -> A) (n : nat) (a : A) :
  Nat.iter (S n) f a = Nat.iter n f (f a).
Proof. induction n as [|n IH]; simpl; [reflexivity | now rewrite <- IH]. Qed.

(** Reducing a rational does not change its real value. *)
Lemma Q2R_Qred (a : Q) : Q2R (Qred a) = Q2R a.
Proof. apply Qeq_eqR, Qred_correct. Qed.

#[export] Hint Rewrite Q2R_Qred : qr2r.

(** Periodicity of [cos] backwards. *)
Lemma cos_period_minus (x : R) (k : nat) : cos (x - 2 * INR k * PI) = cos x.
Proof. rewrite <- (cos_period (x - 2 * INR k * PI) k). f_equal. ring. Qed.

(** Millisecond-to-second conversions divide by the constant 1000; [lra]
    needs the inverse as a literal. *)
Ltac ms_to_s := unfold Qdiv in *; change (/ 1000)%Q with (1 # 1000)%Q in *.

(** The same for halves ([width / 2] in the geometry code). *)
Ltac q_halves := unfold Qdiv in *; change (/ 2)%Q with (1 # 2)%Q in *.

(** Forward application, to write a handler's statements in source order. *)
Declare Scope engine_scope.
Delimit Scope engine_scope with engine.
Notation "x |> f" := (f x) (at level 69, left associativity, only parsing) : engine_scope.

(** ** Lists *)

Lemma flat_map_map_fuse {A B C} (f : A -> B) (g : B -> list C) (l : list A) :
  flat_map g (map f l) = flat_map (fun x => g (f x)) l.
Proof. induction l as [|a l IH]; simpl; [reflexivity | now rewrite IH]. Qed.

(** Reading inside a concatenation of chunks of equal length [c]: element
    [j] of chunk [k] is at [k * c + j]. *)
Lemma nth_flat_map_chunk {A B} (f : A -> list B) (c : nat) (l : list A) (k j : nat) (a0 : A) (d : B) :
  (forall x, length (f x) = c) -> (k < length l)%nat -> (j < c)%nat ->
  nth (k * c + j) (flat_map f l) d = nth j (f (nth k l a0)) d.
Proof.
  intros Hc. revert k. induction l as [|a l IH]; intros k Hk Hj; simpl in *; [lia|].
  destruct k as [|k].
  - rewrite app_nth1; [reflexivity | rewrite Hc; lia].
  - rewrite app_nth2 by (rewrite Hc; lia). rewrite Hc.
    replace (S k * c + j - c)%nat with (k * c + j)%nat by lia. apply IH; lia.
Qed.
