(* ===== verification/Glsl.v ===== *)
(** * GLSL vectors and builtins used by the fragment shaders

    [vec2], [vec3] and [vec4] over [R], with the constructors and builtins
    the repository's shaders call: [vec2(s)] (splat), component-wise [+]
    and [-], [vec * float], [length], [mix] and [vec4(vec3, float)].  Their
    meaning is the one of the GLSL ES 1.00 specification (section 8):
    [length x = sqrt (x.x*x.x + x.y*x.y)] and [mix x y a = x*(1-a) + y*a].
    A copy of [vec2] over [Q] ([vec2Q]) with an injection [toR] serves as
    an exact executable evaluator; [toR] commutes with every operation. *)

From S2P Require Import Prelude.

Open Scope R_scope.

Record vec2 := mkvec2 { vx : R; vy : R }.
Record vec3 := mkvec3 { vr : R; vg : R; vb : R }.
Record vec4 := mkvec4 { rgb : vec3; alpha : R }.

Notation "⟨ a , b ⟩" := (mkvec2 a b) : glsl_scope.
Notation "⟨ a , b , c ⟩" := (mkvec3 a b c) : glsl_scope.
Open Scope glsl_scope.

(** [vec2(s)] and [vec3(s)]: every component set to [s]. *)
Definition vec2_splat (s : R) : vec2 := ⟨ s, s ⟩.
Definition vec3_splat (s : R) : vec3 := ⟨ s, s, s ⟩.

Definition v2add (a b : vec2) : vec2 := ⟨ vx a + vx b, vy a + vy b ⟩.
Definition v2sub (a b : vec2) : vec2 := ⟨ vx a - vx b, vy a - vy b ⟩.
Definition v2scale (a : vec2) (s : R) : vec2 := ⟨ vx a * s, vy a * s ⟩.
Definition v3scale (a : vec3) (s : R) : vec3 := ⟨ vr a * s, vg a * s, vb a * s ⟩.

(** [length(v)] for a [vec2]. *)
Definition length2 (v : vec2) : R := sqrt (vx v * vx v + vy v * vy v).

(** [mix(x, y, a)] for [vec3] with a [float] weight. *)
Definition mix1 (x y a : R) : R := x * (1 - a) + y * a.
Definition mix3 (x y : vec3) (a : R) : vec3 :=
  ⟨ mix1 (vr x) (vr y) a, mix1 (vg x) (vg y) a, mix1 (vb x) (vb y) a ⟩.

(** Componentwise predicates on colours. *)
Definition vec3_Forall (P : R -> Prop) (v : vec3) : Prop :=
  P (vr v) /\ P (vg v) /\ P (vb v).

Lemma length2_zero : length2 (vec2_splat 0) = 0.
Proof. unfold length2; simpl. replace (0 * 0 + 0 * 0) with 0 by ring. apply sqrt_0. Qed.

(** [length v > r] for [r >= 0] compares squares: no square root needed. *)
Lemma length2_gt_iff (v : vec2) (r : R) :
  0 <= r -> (r < length2 v <-> r * r < vx v * vx v + vy v * vy v).
Proof. intros Hr. apply sqrt_gt_iff; auto with fm. Qed.

Lemma mix1_0 (x y : R) : mix1 x y 0 = x.
Proof. unfold mix1. ring. Qed.

Lemma mix1_1 (x y : R) : mix1 x y 1 = y.
Proof. unfold mix1. ring. Qed.

Lemma mix1_same (x a : R) : mix1 x x a = x.
Proof. unfold mix1. ring. Qed.

(** With a weight in [0,1], [mix] stays between its endpoints. *)
Lemma mix1_between (x y a : R) :
  0 <= a <= 1 -> Rmin x y <= mix1 x y a <= Rmax x y.
Proof.
  intros Ha. unfold mix1, Rmin, Rmax.
  destruct (Rle_dec x y); split; nra.
Qed.

Lemma mix3_0 (x y : vec3) : mix3 x y 0 = x.
Proof. destruct x. unfold mix3; simpl. now rewrite !mix1_0. Qed.

Lemma mix3_1 (x y : vec3) : mix3 x y 1 = y.
Proof. destruct y. unfold mix3; simpl. now rewrite !mix1_1. Qed.

#[export] Hint Rewrite mix1_0 mix1_1 mix1_same mix3_0 mix3_1 : qr2r.

(** ** Exact rational vectors *)

Record vec2Q := mkvec2Q { qx : Q; qy : Q }.

Definition toR (v : vec2Q) : vec2 := ⟨ Q2R (qx v), Q2R (qy v) ⟩.

(** [mix] of two values in an interval, with a weight in [0,1], stays in it. *)
Lemma mix1_in (lo hi x y a : R) :
  lo <= x <= hi -> lo <= y <= hi -> 0 <= a <= 1 -> lo <= mix1 x y a <= hi.
Proof.
  intros Hx Hy Ha. pose proof (mix1_between x y a Ha).
  unfold Rmin, Rmax in *. destruct (Rle_dec x y); lra.
Qed.

(** Scaling a value of [[0, hi]] by a factor of [[0, 1]] keeps it there. *)
Lemma scale_in (hi v s : R) : 0 <= v <= hi -> 0 <= s <= 1 -> 0 <= v * s <= hi.
Proof. intros Hv Hs. split; nra. Qed.
