(* ===== verification/Fractal.v ===== *)
(** * The escape-time fractal shader (FractalAnimation.ts / .tsx)

    [fractal] models the GLSL function of the same name
    (FractalAnimation.ts lines 39-49, identical in FractalAnimation.tsx
    lines 39-49) and [fractal_main] the shader's [main] (lines 51-59 and
    51-58).  The bounded [for] loop with its [break] is [escape_loop], a
    Section over any carrier [V] with the escape test and the recurrence as
    parameters; its theorems say that the loop returns the first index at
    which the orbit escapes, or the bound.  [fractalQ] runs the same loop on
    exact rationals (squared-norm test, reduced fractions) so that concrete
    inputs evaluate by [vm_compute]; [fractal_refines_Q] proves it equal to
    the real model. *)

From S2P Require Import Prelude Glsl.

Open Scope R_scope.
Open Scope glsl_scope.

(** ** The bounded escape loop *)

Section EscapeLoop.
Context {V : Type} (escaped : V -> bool) (next : V -> V).

(** [for (int i = 0; i < N; i++) { if (escaped z) break; z = next z;
    iterations += 1.0; }] with [k = N - i] trips left. *)
Fixpoint escape_loop (k : nat) (z : V) (iterations : nat) : nat :=
  match k with
  | O => iterations
  | S k' => if escaped z then iterations
            else escape_loop k' (next z) (S iterations)
  end.

(** The [n]-th point of the orbit of [z0]. *)
Definition orbit (z0 : V) (n : nat) : V := Nat.iter n next z0.

(** A value satisfies the first-escape specification for [k] trips. *)
Definition first_escape (k : nat) (z0 : V) (n : nat) : Prop :=
  (n <= k)%nat /\ (forall j, (j < n)%nat -> escaped (orbit z0 j) = false) /\
  (n = k \/ escaped (orbit z0 n) = true).

Lemma orbit_S (z : V) (j : nat) : orbit z (S j) = orbit (next z) j.
Proof. apply iter_succ_inner. Qed.

Lemma escape_loop_acc (k : nat) (z : V) (it : nat) :
  escape_loop k z it = (it + escape_loop k z 0)%nat.
Proof.
  revert z it. induction k as [|k IH]; intros z it; simpl; [lia|].
  destruct (escaped z); [lia|]. rewrite (IH _ (S it)), (IH _ 1%nat). lia.
Qed.

Lemma escape_loop_first_escape (k : nat) (z : V) :
  first_escape k z (escape_loop k z 0).
Proof.
  revert z. induction k as [|k IH]; intros z; simpl.
  - repeat split; [lia | intros; lia | now left].
  - destruct (escaped z) eqn:E.
    + repeat split; [lia | intros; lia | now right].
    + rewrite escape_loop_acc. destruct (IH (next z)) as (Hle & Hpre & Hend).
      repeat split; [lia| |].
      * intros [|j] Hj; [exact E|]. rewrite orbit_S. apply Hpre. lia.
      * destruct Hend as [-> | Hesc]; [now left | right].
        rewrite Nat.add_1_l, orbit_S. exact Hesc.
Qed.

(** The specification has at most one solution. *)
Lemma first_escape_unique (k : nat) (z : V) (n m : nat) :
  first_escape k z n -> first_escape k z m -> n = m.
Proof.
  intros (Hn & Pn & En) (Hm & Pm & Em).
  destruct (Nat.lt_total n m) as [Hlt|[Heq|Hgt]]; [|exact Heq|].
  - destruct En as [->|Hesc]; [lia|]. rewrite (Pm n Hlt) in Hesc. discriminate.
  - destruct Em as [->|Hesc]; [lia|]. rewrite (Pn m Hgt) in Hesc. discriminate.
Qed.

Lemma escape_loop_iff (k : nat) (z : V) (n : nat) :
  escape_loop k z 0 = n <-> first_escape k z n.
Proof.
  split; [intros <-; apply escape_loop_first_escape|].
  intros H. eapply first_escape_unique; [apply escape_loop_first_escape | exact H].
Qed.

(** A non-escaping fixed point runs the loop to its bound. *)
Lemma escape_loop_fixpoint (k : nat) (z : V) (it : nat) :
  escaped z = false -> next z = z -> escape_loop k z it = (it + k)%nat.
Proof.
  intros He Hn. revert it. induction k as [|k IH]; intros it; simpl; [lia|].
  rewrite He, Hn, IH. lia.
Qed.
End EscapeLoop.

(** Two instances of the loop related by a simulation compute the same
    count. *)
Section EscapeLoopSimulation.
Context {V W : Type} (escV : V -> bool) (nextV : V -> V)
        (escW : W -> bool) (nextW : W -> W) (rel : V -> W -> Prop).
Hypothesis rel_escaped : forall v w, rel v w -> escV v = escW w.
Hypothesis rel_next : forall v w, rel v w -> rel (nextV v) (nextW w).

Lemma escape_loop_sim (k : nat) (v : V) (w : W) (it : nat) :
  rel v w -> escape_loop escV nextV k v it = escape_loop escW nextW k w it.
Proof.
  revert v w it. induction k as [|k IH]; intros v w it Hr; simpl; [reflexivity|].
  rewrite (rel_escaped v w Hr). destruct (escW w); [reflexivity|].
  apply IH, rel_next, Hr.
Qed.
End EscapeLoopSimulation.

(** ** The GLSL function [fractal] over reals *)

(** [vec2 c = uv * 3.0 - vec2(1.5, 1.5);] *)
Definition fractal_c (uv : vec2) : vec2 := v2sub (v2scale uv 3) ⟨ 1.5, 1.5 ⟩.

(** [z = vec2(z.x*z.x - z.y*z.y, 2.0*z.x*z.y) + c;] *)
Definition fractal_step (c z : vec2) : vec2 :=
  v2add ⟨ vx z * vx z - vy z * vy z, 2 * vx z * vy z ⟩ c.

(** [if (length(z) > 2.0) break;] *)
Definition escaped (z : vec2) : bool := length2 z >? 2.

(** [float fractal(vec2 uv)]: [z] starts at [vec2(0.0)], [iterations] at
    [0.0], and the loop runs for [i] from 0 while [i < 100]. *)
Definition fractal (uv : vec2) : nat :=
  let c := fractal_c uv in
  escape_loop escaped (fractal_step c) 100 (vec2_splat 0) 0.

(** The orbit [z_0 = 0], [z_{n+1} = z_n^2 + c] of the parameter of [uv]. *)
Definition fractal_orbit (uv : vec2) (n : nat) : vec2 :=
  orbit (fractal_step (fractal_c uv)) (vec2_splat 0) n.

(** The two warp statements of [main], in order: the second one reads the
    [uv.x] already updated by the first. *)
Definition warp (time : R) (vUv : vec2) : vec2 :=
  let uv := vUv in
  let uv := ⟨ vx uv + sin (time + vy uv * 10) * 0.1, vy uv ⟩ in
  ⟨ vx uv, vy uv + cos (time + vx uv * 10) * 0.1 ⟩.

(** [void main()]: [gl_FragColor = vec4(vec3(m / 100.0), 1.0)]. *)
Definition fractal_main (time : R) (vUv : vec2) : vec4 :=
  let uv := warp time vUv in
  let m := INR (fractal uv) in
  let color := m / 100 in
  mkvec4 (vec3_splat color) 1.

(** ** The exact rational evaluator *)

Definition fractal_cQ (uv : vec2Q) : vec2Q :=
  mkvec2Q (Qred (qx uv * 3 - (3 # 2))) (Qred (qy uv * 3 - (3 # 2))).

Definition fractal_stepQ (c z : vec2Q) : vec2Q :=
  mkvec2Q (Qred (qx z * qx z - qy z * qy z + qx c)) (Qred (2 * qx z * qy z + qy c)).

Definition escapedQ (z : vec2Q) : bool := Qgtb (qx z * qx z + qy z * qy z) 4.

Definition fractalQ (uv : vec2Q) : nat :=
  escape_loop escapedQ (fractal_stepQ (fractal_cQ uv)) 100 (mkvec2Q 0 0) 0.

(** ** Lemmas on the pieces *)

Lemma escaped_true (z : vec2) : escaped z = true <-> 2 < length2 z.
Proof. apply Rgtb_true. Qed.

Lemma escaped_false (z : vec2) : escaped z = false <-> length2 z <= 2.
Proof. apply Rgtb_false. Qed.

Lemma escaped_sq (z : vec2) : escaped z = Rgtb (vx z * vx z + vy z * vy z) 4.
Proof.
  apply Bool.eq_iff_eq_true. rewrite escaped_true, Rgtb_true, length2_gt_iff by lra.
  lra.
Qed.

Lemma escaped_zero : escaped (vec2_splat 0) = false.
Proof. apply escaped_false. rewrite length2_zero. lra. Qed.

Lemma fractal_step_zero (c : vec2) : fractal_step c (vec2_splat 0) = c.
Proof. destruct c. unfold fractal_step, v2add; simpl. f_equal; ring. Qed.

Lemma escapedQ_toR (w : vec2Q) : escaped (toR w) = escapedQ w.
Proof.
  rewrite escaped_sq. unfold toR, escapedQ; cbn [vx vy].
  replace 4 with (Q2R 4) by (unfold Q2R; simpl; lra).
  rewrite <- Rgtb_Q2R. f_equal. qr_push. ring.
Qed.

Lemma fractal_stepQ_toR (c w : vec2Q) :
  toR (fractal_stepQ c w) = fractal_step (toR c) (toR w).
Proof.
  unfold toR, fractal_stepQ, fractal_step, v2add; cbn [vx vy qx qy].
  f_equal; qr_push; [ring|].
  replace (Q2R 2) with 2 by (unfold Q2R; simpl; lra). ring.
Qed.

Lemma fractal_cQ_toR (uv : vec2Q) : toR (fractal_cQ uv) = fractal_c (toR uv).
Proof.
  unfold toR, fractal_cQ, fractal_c, v2sub, v2scale; cbn [vx vy qx qy].
  f_equal; qr_push; unfold Q2R at 2 3; simpl; lra.
Qed.

Lemma toR_zero : toR (mkvec2Q 0 0) = vec2_splat 0.
Proof. unfold toR, vec2_splat; simpl. f_equal; unfold Q2R; simpl; lra. Qed.

(** ** Properties of the fractal shader *)

(** The count is the first-escape index of the boolean loop. *)
Lemma fractal_escape_index (uv : vec2) (n : nat) :
  fractal uv = n <-> first_escape escaped (fractal_step (fractal_c uv)) 100 (vec2_splat 0) n.
Proof. apply escape_loop_iff. Qed.

(** The rational and the real loop agree from related states. *)
Lemma fractal_loop_toR (k : nat) (c z : vec2Q) (it : nat) :
  escape_loop escaped (fractal_step (toR c)) k (toR z) it =
  escape_loop escapedQ (fractal_stepQ c) k z it.
Proof.
  apply (escape_loop_sim _ _ _ _ (fun v w => v = toR w)); [| |reflexivity].
  - intros v w ->. apply escapedQ_toR.
  - intros v w ->. symmetry. apply fractal_stepQ_toR.
Qed.

Lemma fractal_le_100 (uv : vec2) : (fractal uv <= 100)%nat.
Proof. apply (proj1 (proj1 (fractal_escape_index uv _) eq_refl)). Qed.

Lemma fractal_ge_1 (uv : vec2) : (1 <= fractal uv)%nat.
Proof.
  destruct (proj1 (fractal_escape_index uv _) eq_refl) as (_ & _ & Hend).
  destruct (fractal uv); [|lia]. exfalso.
  destruct Hend as [H|H]; [discriminate|]. simpl in H. rewrite escaped_zero in H. discriminate.
Qed.

(** The grey level [m / 100.0] of any escape count lies in [[0.01, 1]]. *)
Lemma fractal_intensity_range (uv : vec2) : / 100 <= INR (fractal uv) / 100 <= 1.
Proof.
  pose proof (le_INR _ _ (fractal_ge_1 uv)) as Hlo.
  pose proof (le_INR _ _ (fractal_le_100 uv)) as Hhi.
  simpl INR in Hlo. rewrite (INR_IZR_INZ 100) in Hhi. change (Z.of_nat 100) with 100%Z in Hhi.
  lra.
Qed.

(** C1: The loop of [fractal] returns the first escape index of the orbit of
    [z -> z^2 + c] from [0], or 100 when none of the first 100 points has
    [length > 2.0]: [fractal uv = n] holds exactly when [n <= 100], every
    earlier orbit point has length at most 2, and either [n = 100] or the
    [n]-th point has length greater than 2. *)
Theorem fractal_first_escape (uv : vec2) (n : nat) :
  fractal uv = n <->
  (n <= 100)%nat /\ (forall j, (j < n)%nat -> length2 (fractal_orbit uv j) <= 2) /\
  (n = 100%nat \/ 2 < length2 (fractal_orbit uv n)).
Proof.
  rewrite fractal_escape_index. unfold first_escape, fractal_orbit.
  setoid_rewrite escaped_false. now setoid_rewrite escaped_true.
Qed.

(** The exact rational evaluator computes the same escape count as the
    real model on every rational input: the real loop with [length > 2.0]
    and the rational loop with the squared-norm test agree. *)
Lemma fractal_refines_Q (uv : vec2Q) : fractal (toR uv) = fractalQ uv.
Proof.
  unfold fractal, fractalQ. rewrite <- fractal_cQ_toR, <- toR_zero. apply fractal_loop_toR.
Qed.

(** C2: The escape count is between 1 and 100: the loop bound caps it, and
    the first trip always runs because [length(vec2(0.0)) = 0] does not
    exceed 2. *)
Theorem fractal_bounds (uv : vec2) : (1 <= fractal uv <= 100)%nat.
Proof. split; [apply fractal_ge_1 | apply fractal_le_100]. Qed.

(** C4: When the parameter [c = uv * 3.0 - vec2(1.5)] has length greater
    than 2, the count is exactly 1: [z_1 = c] escapes at the second test. *)
Theorem fractal_escapes_at_one (uv : vec2) :
  2 < length2 (fractal_c uv) -> fractal uv = 1%nat.
Proof.
  intros Hc. apply fractal_escape_index. repeat split; [lia| |].
  - intros j Hj. replace j with 0%nat by lia. apply escaped_zero.
  - right. unfold orbit; simpl. rewrite fractal_step_zero. now apply escaped_true.
Qed.

Lemma fractal_escapes_at_one_witness :
  2 < length2 (fractal_c ⟨ 1.5, 0.5 ⟩) /\ fractal ⟨ 1.5, 0.5 ⟩ = 1%nat.
Proof.
  assert (H : 2 < length2 (fractal_c ⟨ 1.5, 0.5 ⟩)).
  { apply length2_gt_iff; [lra|]. unfold fractal_c, v2sub, v2scale; simpl. lra. }
  split; [exact H | apply fractal_escapes_at_one, H].
Defined.

(** C5: At [uv = (0.5, 0.5)] the parameter is [c = (0,0)], the orbit stays
    at the origin and the loop runs to its cap: the count is 100. *)
Theorem fractal_center (uv : vec2) :
  vx uv = 0.5 -> vy uv = 0.5 -> fractal uv = 100%nat.
Proof.
  intros Hx Hy. unfold fractal.
  replace (fractal_c uv) with (vec2_splat 0)
    by (unfold fractal_c, v2sub, v2scale, vec2_splat; cbn [vx vy];
        rewrite Hx, Hy; f_equal; lra).
  apply escape_loop_fixpoint; [apply escaped_zero | apply fractal_step_zero].
Qed.

Lemma fractal_center_witness :
  vx ⟨ 0.5, 0.5 ⟩ = 0.5 /\ vy ⟨ 0.5, 0.5 ⟩ = 0.5 /\ fractal ⟨ 0.5, 0.5 ⟩ = 100%nat.
Proof. split; [reflexivity | split; [reflexivity | apply fractal_center; reflexivity]]. Defined.

(** C6: The escape test is strict: for [uv = (-1/6, 1/2)] the parameter is
    [c = (-2, 0)] with length exactly 2, the orbit [0, -2, 2, 2, ...] never
    has length greater than 2, and the count is 100. *)
Theorem fractal_boundary_not_escaped :
  length2 (fractal_c ⟨ -1/6, 1/2 ⟩) = 2 /\ fractal ⟨ -1/6, 1/2 ⟩ = 100%nat.
Proof.
  split.
  - unfold length2, fractal_c, v2sub, v2scale; simpl.
    replace (_ + _) with (2 * 2) by lra. apply sqrt_square. lra.
  - replace ⟨ -1/6, 1/2 ⟩ with (toR (mkvec2Q (-1 # 6) (1 # 2)))
      by (unfold toR, Q2R; simpl; f_equal; lra).
    unfold fractal. rewrite <- fractal_cQ_toR, <- toR_zero, fractal_loop_toR.
    vm_compute. reflexivity.
Qed.

(** The warp is [2 PI]-periodic in [time]. *)
Lemma warp_periodic (time : R) (uv : vec2) : warp (time + 2 * PI) uv = warp time uv.
Proof.
  unfold warp; cbn [vx vy].
  replace (time + 2 * PI + vy uv * 10) with (time + vy uv * 10 + 2 * INR 1 * PI)
    by (simpl; ring).
  rewrite sin_period.
  set (x' := vx uv + sin (time + vy uv * 10) * 0.1).
  replace (time + 2 * PI + x' * 10) with (time + x' * 10 + 2 * INR 1 * PI)
    by (simpl; ring).
  now rewrite cos_period.
Qed.

(** C7: The fractal shader output is grey (three equal channels), opaque,
    and its intensity [m / 100.0] lies in [[0.01, 1]]: it is never black. *)
Theorem fractal_main_intensity (time : R) (uv : vec2) :
  let col := rgb (fractal_main time uv) in
  vr col = vg col /\ vg col = vb col /\ alpha (fractal_main time uv) = 1 /\
  / 100 <= vr col <= 1.
Proof.
  unfold fractal_main, vec3_splat; cbn [rgb alpha vr vg vb].
  pose proof (fractal_intensity_range (warp time uv)). repeat split; lra.
Qed.

(** The fractal shader is periodic in [time] with period [2 PI]: the
    animation repeats every [2 PI] seconds. *)
Lemma fractal_main_periodic (time : R) (uv : vec2) :
  fractal_main (time + 2 * PI) uv = fractal_main time uv.
Proof. unfold fractal_main. now rewrite warp_periodic. Qed.
