(* ===== verification/FractalLoop.v ===== *)
(** * The shader's [for] loop as GLSL runs it

    [Fractal.escape_loop] counts the trips left; the shader writes
    [for (int i = 0; i < 100; i++) { if (length(z) > 2.0) break; ... }]
    (FractalAnimation.ts lines 43-47, FractalAnimation.tsx lines 43-47),
    with an [int] counter tested before each trip.  [for_break] is that
    loop as a bounded interpreter: an integer counter [i], the test
    [i < bound], the [break], the body and the increment, and a [fuel]
    that decreases at each test, [None] when it runs out.  [fractal_for]
    is [fractal] written with it.  The loop's variant is [bound - i]: the
    theorems show that [bound - i + 1] tests always suffice (the loop
    terminates whatever the orbit does), that the result is then the one
    of [escape_loop], that the counter never leaves [[i0, bound]] (for the
    shader [[0, 100]], inside the [(-2^10, 2^10)] range GLSL ES guarantees
    for a [mediump int]), and that 100 tests are not enough when the orbit
    never escapes.  For the shader's body the run is exact: with [t] the
    trips [escape_loop] makes, the loop tests its condition [t + 1] times,
    at [i = 0, ..., t], and returns exactly when the fuel exceeds [t]; so
    the shader's loop stops at the escape index [fractal uv]. *)

From S2P Require Import Prelude Glsl Fractal.
Import ListNotations.

Open Scope Z_scope.

Section ForBreak.
Context {St : Type} (brk : St -> bool) (body : St -> St).

(** [for (int i = i0; i < bound; i++) { if (brk(s)) break; s = body(s); }]
    with [fuel] tests of the condition at most. *)
Fixpoint for_break (fuel : nat) (i bound : Z) (s : St) : option St :=
  match fuel with
  | O => None
  | S fuel' =>
      if i <? bound then
        if brk s then Some s else for_break fuel' (i + 1) bound (body s)
      else Some s
  end.

(** The counter values at which the condition is tested, in order. *)
Fixpoint for_counters (fuel : nat) (i bound : Z) (s : St) : list Z :=
  match fuel with
  | O => []
  | S fuel' =>
      i :: (if i <? bound then
              if brk s then [] else for_counters fuel' (i + 1) bound (body s)
            else [])
  end.

(** With more fuel than the variant [bound - i], the loop ends. *)
Lemma for_break_fuel (fuel : nat) (i bound : Z) (s : St) :
  (Z.to_nat (bound - i) < fuel)%nat -> exists r, for_break fuel i bound s = Some r.
Proof.
  revert i s. induction fuel as [|fuel IH]; intros i s Hf; [lia|]. cbn [for_break].
  destruct (Z.ltb_spec i bound); [|eauto]. destruct (brk s); [eauto|].
  apply IH. lia.
Qed.

(** The counter starts at [i] and never goes past [bound]. *)
Lemma for_counters_range (fuel : nat) (i bound : Z) (s : St) :
  i <= bound -> Forall (fun j => i <= j <= bound) (for_counters fuel i bound s).
Proof.
  revert i s. induction fuel as [|fuel IH]; intros i s Hi; cbn [for_counters]; [constructor|].
  constructor; [lia|].
  destruct (Z.ltb_spec i bound); [|constructor]. destruct (brk s); [constructor|].
  eapply Forall_impl; [|apply IH; lia]. cbv beta. lia.
Qed.

(** If no state of an invariant [P] breaks and the body keeps [P], the
    loop needs more tests than [bound - i]: with fewer it runs out. *)
Lemma for_break_runs_out (P : St -> Prop) (fuel : nat) (i bound : Z) (s : St) :
  (forall s, P s -> brk s = false) -> (forall s, P s -> P (body s)) -> P s ->
  (fuel <= Z.to_nat (bound - i))%nat -> for_break fuel i bound s = None.
Proof.
  intros Hb Hp. revert i s. induction fuel as [|fuel IH]; intros i s Hs Hf; [reflexivity|].
  cbn [for_break]. destruct (Z.ltb_spec i bound); [|lia].
  rewrite (Hb s Hs). apply IH; [now apply Hp | lia].
Qed.

End ForBreak.

(** The loop over the state [(z, iterations)] is [escape_loop] with
    [bound - i] trips. *)
Lemma for_break_escape_loop {V : Type} (escaped : V -> bool) (next : V -> V)
    (fuel : nat) (i bound : Z) (z : V) (it : nat) :
  (Z.to_nat (bound - i) < fuel)%nat ->
  option_map snd (for_break (fun s => escaped (fst s)) (fun s => (next (fst s), S (snd s)))
                            fuel i bound (z, it)) =
  Some (escape_loop escaped next (Z.to_nat (bound - i)) z it).
Proof.
  revert i z it. induction fuel as [|fuel IH]; intros i z it Hf; [lia|]. cbn [for_break].
  destruct (Z.ltb_spec i bound) as [Hlt|Hge].
  - replace (Z.to_nat (bound - i)) with (S (Z.to_nat (bound - (i + 1)))) by lia.
    cbn [escape_loop fst snd]. destruct (escaped z); [reflexivity|]. apply IH. lia.
  - replace (Z.to_nat (bound - i)) with O by lia. reflexivity.
Qed.



(** ** The shader's loop *)

Open Scope R_scope.

(** The loop body of [fractal] on its state [(z, iterations)]:
    [z = vec2(z.x*z.x - z.y*z.y, 2.0*z.x*z.y) + c; iterations += 1.0;] *)
Definition fractal_body (c : vec2) (s : vec2 * nat) : vec2 * nat :=
  (fractal_step c (fst s), S (snd s)).

(** [float fractal(vec2 uv)] with its [for] loop run by [for_break]. *)
Definition fractal_for (fuel : nat) (uv : vec2) : option nat :=
  let c := fractal_c uv in
  option_map snd (for_break (fun s => escaped (fst s)) (fractal_body c) fuel 0 100
                            (vec2_splat 0, 0%nat)).

(** The counter values the shader's loop tests. *)
Definition fractal_counters (fuel : nat) (uv : vec2) : list Z :=
  let c := fractal_c uv in
  for_counters (fun s => escaped (fst s)) (fractal_body c) fuel 0 100 (vec2_splat 0, 0%nat).

Lemma fractal_c_center : fractal_c ⟨ 0.5, 0.5 ⟩ = vec2_splat 0.
Proof. unfold fractal_c, v2sub, v2scale, vec2_splat; cbn [vx vy]. f_equal; lra. Qed.

(** At the centre of the surface the orbit stays at 0, so 100 tests of
    [i < 100] do not end the loop: the 101st, [i = 100], is needed. *)
Lemma fractal_for_center_100 : fractal_for 100 ⟨ 0.5, 0.5 ⟩ = None.
Proof.
  unfold fractal_for. rewrite fractal_c_center.
  rewrite (for_break_runs_out _ _ (fun s => fst s = vec2_splat 0)); [reflexivity | | | reflexivity | ].
  - intros s ->. apply escaped_zero.
  - intros s Hs. unfold fractal_body; cbn [fst]. rewrite Hs. apply fractal_step_zero.
  - cbv. lia.
Qed.


(** The loop terminates: any fuel above 100 tests is enough, whatever the
    orbit does, and the counter stays in [[0, 100]]. *)
Lemma fractal_for_terminates (uv : vec2) (fuel : nat) :
  (100 < fuel)%nat ->
  fractal_for fuel uv = Some (fractal uv) /\
  Forall (fun j => 0 <= j <= 100)%Z (fractal_counters fuel uv).
Proof.
  intros Hf. split.
  - unfold fractal_for, fractal, fractal_body.
    exact (for_break_escape_loop escaped (fractal_step (fractal_c uv)) fuel 0 100 _ 0 Hf).
  - apply for_counters_range. lia.
Qed.
