(* ===== verification/Interference.v ===== *)
(** * The interference shader (QuantumVisualization.tsx)

    [interference] models the GLSL function of QuantumVisualization.tsx
    lines 41-45 and [quantum_main] the shader's [main] (lines 47-63): two
    waves give a [pattern] in [[-1, 1]]; a colour oscillates between
    [stateA] and [stateB] with weight [0.5 + 0.5 sin(2 time)]
    ([superposition]); the [collapse] uniform mixes it towards [stateA];
    the pattern scales the result. *)

From S2P Require Import Prelude Glsl.

Open Scope R_scope.
Open Scope glsl_scope.

(** [float interference(vec2 uv, float t)] *)
Definition interference (uv : vec2) (t : R) : R :=
  let wave1 := sin ((vx uv + t) * 10) in
  let wave2 := cos ((vy uv - t) * 10) in
  (wave1 + wave2) * 0.5.

(** [vec3 stateA = vec3(0.2, 0.4, 0.8);] *)
Definition stateA : vec3 := ⟨ 0.2, 0.4, 0.8 ⟩.
(** [vec3 stateB = vec3(0.8, 0.3, 0.3);] *)
Definition stateB : vec3 := ⟨ 0.8, 0.3, 0.3 ⟩.

(** [float blendFactor = 0.5 + 0.5 * sin(time * 2.0);] *)
Definition blend_factor (time : R) : R := 0.5 + 0.5 * sin (time * 2).

(** [vec3 superposition = mix(stateA, stateB, blendFactor);] *)
Definition superposition (time : R) : vec3 := mix3 stateA stateB (blend_factor time).

(** [void main()] with the uniforms [time] and [collapse]. *)
Definition quantum_main (time collapse : R) (vUv : vec2) : vec4 :=
  let uv := vUv in
  let pattern := interference uv time in
  let finalColor := mix3 (superposition time) stateA collapse in
  let finalColor := v3scale finalColor (0.5 + 0.5 * pattern) in
  mkvec4 finalColor 1.

(** ** Lemmas *)

Lemma interference_range (uv : vec2) (t : R) : -1 <= interference uv t <= 1.
Proof.
  unfold interference.
  pose proof (SIN_bound ((vx uv + t) * 10)). pose proof (COS_bound ((vy uv - t) * 10)).
  lra.
Qed.

Lemma blend_factor_range (time : R) : 0 <= blend_factor time <= 1.
Proof. unfold blend_factor. pose proof (SIN_bound (time * 2)). lra. Qed.

Lemma pattern_scale_range (uv : vec2) (t : R) : 0 <= 0.5 + 0.5 * interference uv t <= 1.
Proof. pose proof (interference_range uv t). lra. Qed.

(** Every channel of the superposition lies in [[0.2, 0.8]]. *)
Lemma superposition_range (time : R) :
  vec3_Forall (fun c => 0.2 <= c <= 0.8) (superposition time).
Proof.
  pose proof (blend_factor_range time).
  unfold superposition, mix3, stateA, stateB, vec3_Forall; cbn [vr vg vb].
  split; [|split]; apply mix1_in; lra.
Qed.

Lemma interference_shift (uv : vec2) (t : R) : interference uv (t + PI) = interference uv t.
Proof.
  unfold interference.
  replace ((vx uv + (t + PI)) * 10) with ((vx uv + t) * 10 + 2 * INR 5 * PI)
    by (simpl; ring).
  rewrite sin_period.
  replace ((vy uv - (t + PI)) * 10) with ((vy uv - t) * 10 - 2 * INR 5 * PI)
    by (simpl; ring).
  now rewrite cos_period_minus.
Qed.

Lemma blend_factor_shift (time : R) : blend_factor (time + PI) = blend_factor time.
Proof.
  unfold blend_factor.
  replace ((time + PI) * 2) with (time * 2 + 2 * INR 1 * PI) by (simpl; ring).
  now rewrite sin_period.
Qed.

(** A channel mixed from two values of [[0.2, 0.8]] and scaled by a
    factor of [[0, 1]] lies in [[0, 0.8]]. *)
Lemma channel_in (s a c k : R) :
  0.2 <= s <= 0.8 -> 0.2 <= a <= 0.8 -> 0 <= c <= 1 -> 0 <= k <= 1 ->
  0 <= mix1 s a c * k <= 0.8.
Proof.
  intros Hs Ha Hc Hk. pose proof (mix1_in 0.2 0.8 s a c Hs Ha Hc).
  apply scale_in; [lra | exact Hk].
Qed.

(** ** Properties of the interference shader *)

(** C8: With [collapse = 1.0] the colour before pattern scaling is exactly
    [stateA], whatever the time: the output is [stateA] scaled by
    [0.5 + 0.5 * pattern]. *)
Theorem quantum_collapsed (time : R) (uv : vec2) :
  quantum_main time 1 uv = mkvec4 (v3scale stateA (0.5 + 0.5 * interference uv time)) 1.
Proof. unfold quantum_main. now rewrite mix3_1. Qed.

(** C9: With [collapse = 0.0] the output is the oscillating superposition,
    unmodified, scaled by the pattern. *)
Theorem quantum_superposed (time : R) (uv : vec2) :
  quantum_main time 0 uv =
  mkvec4 (v3scale (superposition time) (0.5 + 0.5 * interference uv time)) 1.
Proof. unfold quantum_main. now rewrite mix3_0. Qed.

(** At [time = 0] the blend factor is 0.5 and the superposition is the
    exact midpoint [(0.5, 0.35, 0.55)] of [stateA] and [stateB]. *)
Lemma superposition_at_zero :
  blend_factor 0 = 0.5 /\ superposition 0 = ⟨ 0.5, 0.35, 0.55 ⟩.
Proof.
  unfold superposition, blend_factor, mix3, mix1, stateA, stateB; cbn [vr vg vb].
  rewrite Rmult_0_l, sin_0. split; [lra | f_equal; lra].
Qed.

(** C10: For a [collapse] value in [[0, 1]] every colour channel of the
    output lies in [[0, 0.8]] (a valid colour) and alpha is 1. *)
Theorem quantum_color_range (time collapse : R) (uv : vec2) :
  0 <= collapse <= 1 ->
  vec3_Forall (fun c => 0 <= c <= 0.8) (rgb (quantum_main time collapse uv)) /\
  alpha (quantum_main time collapse uv) = 1.
Proof.
  intros Hc. pose proof (pattern_scale_range uv time) as Hs.
  destruct (superposition_range time) as (Hr & Hg & Hb).
  unfold quantum_main, vec3_Forall, mix3, v3scale, stateA in *; cbn [rgb alpha vr vg vb] in *.
  split; [|reflexivity].
  split; [|split]; apply channel_in; lra.
Qed.

Lemma quantum_color_range_witness :
  (0 <= 1 <= 1) /\
  vec3_Forall (fun c => 0 <= c <= 0.8) (rgb (quantum_main 0 1 ⟨ 0, 0 ⟩)) /\
  alpha (quantum_main 0 1 ⟨ 0, 0 ⟩) = 1.
Proof.
  assert (H : 0 <= 1 <= 1) by lra.
  split; [exact H | apply quantum_color_range, H].
Defined.

(** The interference shader is periodic in [time] with period [PI]:
    both waves have period [PI / 5] and the blend [sin(2 time)] period
    [PI]. *)
Lemma quantum_main_periodic (time collapse : R) (uv : vec2) :
  quantum_main (time + PI) collapse uv = quantum_main time collapse uv.
Proof.
  unfold quantum_main, superposition. now rewrite interference_shift, blend_factor_shift.
Qed.
