(* ===== verification/Clock.v ===== *)
(** * Three.js [Clock], as used by the animation loops

    Every entry point creates [new THREE.Clock()] (autoStart = true) and
    calls [clock.getElapsedTime()] once per frame (FractalAnimation.ts
    line 94, FractalAnimation.tsx line 89, QuantumVisualization.tsx line 99).
    The class is library code, not code of this repository: it is modelled
    from Three.js's [Clock] ([constructor], [start], [getDelta],
    [getElapsedTime]), with [performance.now()] in milliseconds passed
    explicitly as [now].  [stop] is never called by the repository and is
    not modelled.  Times are exact rationals. *)

From S2P Require Import Prelude.
From Stdlib Require Import Sorted.
Import ListNotations.

Open Scope Q_scope.

Record Clock := mkClock {
  autoStart : bool;
  startTime : Q;
  oldTime : Q;
  elapsedTime : Q;
  running : bool
}.

(** [new THREE.Clock()] *)
Definition new_Clock : Clock := mkClock true 0 0 0 false.

(** [start()]: records [now] as origin and resets the elapsed time. *)
Definition start (now : Q) (c : Clock) : Clock :=
  mkClock (autoStart c) now now 0 true.

(** [getDelta()]: starts an auto-start clock on first use (returning 0);
    otherwise adds the seconds since the last read to [elapsedTime]. *)
Definition getDelta (now : Q) (c : Clock) : Q * Clock :=
  if autoStart c && negb (running c) then (0, start now c)
  else if running c then
    let diff := (now - oldTime c) / 1000 in
    (diff, mkClock (autoStart c) (startTime c) now (elapsedTime c + diff) true)
  else (0, c).

(** [getElapsedTime()]: one [getDelta()], then the accumulated time. *)
Definition getElapsedTime (now : Q) (c : Clock) : Q * Clock :=
  let c' := snd (getDelta now c) in (elapsedTime c', c').

(** The readings of a clock read at the successive host times [nows]. *)
Fixpoint readings (nows : list Q) (c : Clock) : list Q :=
  match nows with
  | nil => nil
  | now :: rest =>
      let (t, c') := getElapsedTime now c in t :: readings rest c'
  end.

(** The clock invariant: a running clock's elapsed time is the time since
    [startTime] (the deltas telescope) and its last read is not before its
    start; a clock that has not started reads 0. *)
Definition clock_ok (c : Clock) : Prop :=
  autoStart c = true /\
  if running c then elapsedTime c * 1000 == oldTime c - startTime c /\ startTime c <= oldTime c
  else elapsedTime c == 0.

Lemma new_Clock_ok : clock_ok new_Clock.
Proof. split; [reflexivity|]. simpl. reflexivity. Qed.

Lemma getElapsedTime_started (now : Q) (c : Clock) :
  clock_ok c -> running c = false ->
  getElapsedTime now c = (0, start now c).
Proof.
  intros [Ha _] Hr. unfold getElapsedTime, getDelta. now rewrite Ha, Hr.
Qed.

Lemma getElapsedTime_running (now : Q) (c : Clock) :
  running c = true ->
  getElapsedTime now c =
  (elapsedTime c + (now - oldTime c) / 1000,
   mkClock (autoStart c) (startTime c) now (elapsedTime c + (now - oldTime c) / 1000) true).
Proof.
  intros Hr. unfold getElapsedTime, getDelta. rewrite Hr, andb_false_r. reflexivity.
Qed.

(** One running read keeps the elapsed time equal to the time since start. *)
Lemma telescope_step (e old st now : Q) :
  e * 1000 == old - st -> (e + (now - old) / 1000) * 1000 == now - st.
Proof.
  intros H. ms_to_s. lra.
Qed.

(** The readings of a running clock are the seconds since its start. *)
Lemma readings_running (nows : list Q) (c : Clock) :
  running c = true -> elapsedTime c * 1000 == oldTime c - startTime c ->
  Forall2 Qeq (readings nows c) (map (fun t => (t - startTime c) / 1000) nows).
Proof.
  revert c. induction nows as [|now rest IH]; intros c Hr Hc; cbn [readings map];
    [constructor|].
  rewrite getElapsedTime_running by exact Hr. constructor.
  - ms_to_s. lra.
  - apply (IH (mkClock _ _ _ _ true)); [reflexivity | apply telescope_step, Hc].
Qed.

(** [getElapsedTime] keeps the clock invariant: after any read at a host
    time not earlier than the previous read, the clock is running, its
    elapsed time is [(oldTime - startTime) / 1000] and its last read is
    [now]. *)
Lemma getElapsedTime_invariant (now : Q) (c : Clock) :
  clock_ok c -> (running c = true -> oldTime c <= now) ->
  let c' := snd (getElapsedTime now c) in
  clock_ok c' /\ running c' = true /\ oldTime c' = now.
Proof.
  intros Hok Hmono c'. subst c'.
  destruct (running c) eqn:Hr.
  - rewrite getElapsedTime_running by exact Hr.
    unfold clock_ok in Hok. rewrite Hr in Hok. destruct Hok as [Ha [He Hle]].
    specialize (Hmono eq_refl). repeat split; try reflexivity; [exact Ha| |]; simpl.
    + apply telescope_step, He.
    + lra.
  - rewrite getElapsedTime_started by assumption. destruct Hok as [Ha _].
    repeat split; [exact Ha| | ]; simpl; [ring | lra].
Qed.

(** C11: The first reading of a new clock is 0, and every later reading
    is the number of seconds since that first reading:
    [(now - t0) / 1000] for host times in milliseconds. *)
Theorem readings_since_first (t0 : Q) (rest : list Q) :
  Forall2 Qeq (readings (t0 :: rest) new_Clock)
              (0 :: map (fun t => (t - t0) / 1000) rest).
Proof.
  cbn [readings]. rewrite getElapsedTime_started by (apply new_Clock_ok || reflexivity).
  constructor; [reflexivity|]. apply readings_running; [reflexivity|]. simpl. ring.
Qed.

(** A read never returns less than the accumulated elapsed time. *)
Lemma getElapsedTime_ge (now : Q) (c : Clock) :
  clock_ok c -> (running c = true -> oldTime c <= now) ->
  elapsedTime c <= fst (getElapsedTime now c).
Proof.
  intros [Ha Hc] Hmono. destruct (running c) eqn:Hr.
  - rewrite getElapsedTime_running by exact Hr. simpl.
    specialize (Hmono eq_refl). ms_to_s. lra.
  - rewrite getElapsedTime_started by ((split; [exact Ha | now rewrite Hr]) || exact Hr).
    simpl. lra.
Qed.

Lemma readings_sorted_gen (nows : list Q) (c : Clock) :
  clock_ok c -> Sorted Qle nows ->
  (running c = true -> HdRel Qle (oldTime c) nows) ->
  Sorted Qle (readings nows c) /\ HdRel Qle (elapsedTime c) (readings nows c).
Proof.
  revert c. induction nows as [|now rest IH]; intros c Hok Hs Hhd; cbn [readings];
    [split; constructor|].
  apply Sorted_inv in Hs as [Hs Hrest].
  assert (Hmono : running c = true -> oldTime c <= now).
  { intros Hr. specialize (Hhd Hr). inversion Hhd; assumption. }
  pose proof (getElapsedTime_ge now c Hok Hmono) as Hge.
  destruct (getElapsedTime_invariant now c Hok Hmono) as (Hok' & _ & Ho').
  destruct (getElapsedTime now c) as [t c'] eqn:E. simpl in Hok', Ho', Hge.
  assert (Ht : t = elapsedTime c') by (unfold getElapsedTime in E; congruence).
  destruct (IH c' Hok' Hs) as [IH1 IH2]; [intros _; now rewrite Ho'|].
  split; constructor; [exact IH1 | now rewrite Ht | exact Hge].
Qed.

(** C12: If the host clock [performance.now()] is non-decreasing across the
    reads, the readings of a new [Clock] are non-decreasing: the [time]
    uniform never goes back. *)
Theorem clock_readings_monotone (nows : list Q) :
  Sorted Qle nows -> Sorted Qle (readings nows new_Clock).
Proof.
  intros Hs. apply readings_sorted_gen; [apply new_Clock_ok | exact Hs | discriminate].
Qed.

Lemma clock_readings_monotone_witness :
  Sorted Qle [1; 2; 2; 5] /\ Sorted Qle (readings [1; 2; 2; 5] new_Clock).
Proof.
  assert (H : Sorted Qle [1; 2; 2; 5]).
  { repeat constructor; apply Qle_bool_imp_le; reflexivity. }
  split; [exact H | apply clock_readings_monotone, H].
Defined.
