(* ===== verification/Plane.v ===== *)
(** * The surface: Three.js [PlaneGeometry(4, 4, 100, 100)]

    Every entry point builds [new THREE.PlaneGeometry(4, 4, 100, 100)]
    (FractalAnimation.ts line 23, FractalAnimation.tsx line 24,
    QuantumVisualization.tsx line 24).  The constructor is library code: it
    is modelled from Three.js's [PlaneGeometry] as written there, two
    nested [for] loops pushing vertex positions, normals and uvs, then two
    nested loops pushing two triangles per grid cell.  [for_range] is the
    [for] loop, the four arrays are the record [Buffers], and [push] is
    [bappend].  The loops are proved equal to a row-major concatenation
    ([plane_ref]); from it follow the buffer lengths, that every index
    addresses a vertex, that the index [ix + gridX1 * iy] reads back the
    vertex of grid point [(ix, iy)], that every triangle winds
    counter-clockwise towards the camera, that the triangles tile the
    plane's rectangle, the uv range, and how [setIndex] stores the
    indices.  Each fact is proved for any plane, then stated as a claim
    for the repository's [plane].  Coordinates are exact rationals; the
    segment counts are natural numbers ([Math.floor] is the identity on
    them) and at least 1, since [Math.floor(0)] would divide by zero. *)

From Stdlib Require Import ZArith Qround.
From S2P Require Import Prelude.
Import ListNotations.

(** ** A [for] loop over an index range *)

Section ForLoop.
Context {St : Type}.

(** [for (let i = i0; i < i0 + n; i++) s = body(i, s);] *)
Fixpoint for_range (n i : nat) (body : nat -> St -> St) (s : St) : St :=
  match n with
  | O => s
  | S n' => for_range n' (S i) body (body i s)
  end.

End ForLoop.

(** ** The buffers the constructor fills *)

Record Buffers := mkBuffers {
  b_vertices : list Q;   (** [vertices]: x, y, z per vertex *)
  b_normals : list Q;    (** [normals]: x, y, z per vertex *)
  b_uvs : list Q;        (** [uvs]: u, v per vertex *)
  b_indices : list nat   (** [indices]: three per triangle *)
}.

Definition bempty : Buffers := mkBuffers [] [] [] [].

(** Pushing the elements of [d] at the end of each array of [b]. *)
Definition bappend (b d : Buffers) : Buffers :=
  mkBuffers (b_vertices b ++ b_vertices d) (b_normals b ++ b_normals d)
            (b_uvs b ++ b_uvs d) (b_indices b ++ b_indices d).

Definition bconcat (l : list Buffers) : Buffers := fold_right bappend bempty l.

Definition q_of_nat (n : nat) : Q := inject_Z (Z.of_nat n).

(** The body of the vertex loop at [(ix, iy)]:
    [vertices.push(x, -y, 0); normals.push(0, 0, 1);
     uvs.push(ix / gridX); uvs.push(1 - (iy / gridY));] *)
Definition vertex_push (gridX gridY : nat) (segment_width segment_height width_half height_half : Q)
    (iy ix : nat) : Buffers :=
  let y := q_of_nat iy * segment_height - height_half in
  let x := q_of_nat ix * segment_width - width_half in
  mkBuffers [x; - y; 0] [0; 0; 1]
            [q_of_nat ix / q_of_nat gridX; 1 - q_of_nat iy / q_of_nat gridY] [].

(** The body of the index loop at cell [(ix, iy)]:
    [indices.push(a, b, d); indices.push(b, c, d);] *)
Definition face_push (gridX1 iy ix : nat) : Buffers :=
  let a := (ix + gridX1 * iy)%nat in
  let b := (ix + gridX1 * (iy + 1))%nat in
  let c := ((ix + 1) + gridX1 * (iy + 1))%nat in
  let d := ((ix + 1) + gridX1 * iy)%nat in
  mkBuffers [] [] [] [a; b; d; b; c; d].

(** The arrays the constructor [PlaneGeometry(width, height,
    widthSegments, heightSegments)] fills: the vertex loops, then the index
    loops. *)
Definition plane_arrays (width height : Q) (widthSegments heightSegments : nat) : Buffers :=
  let width_half := width / 2 in
  let height_half := height / 2 in
  let gridX := widthSegments in
  let gridY := heightSegments in
  let gridX1 := (gridX + 1)%nat in
  let gridY1 := (gridY + 1)%nat in
  let segment_width := width / q_of_nat gridX in
  let segment_height := height / q_of_nat gridY in
  let b := for_range gridY1 0 (fun iy b =>
             for_range gridX1 0 (fun ix b =>
               bappend b (vertex_push gridX gridY segment_width segment_height
                                      width_half height_half iy ix)) b) bempty in
  for_range gridY 0 (fun iy b =>
    for_range gridX 0 (fun ix b => bappend b (face_push gridX1 iy ix)) b) b.

(** ** [BufferGeometry.setIndex] and the attributes *)

(** The typed array [setIndex] allocates for a JavaScript array. *)
Inductive IndexArray :=
| Uint16Array (values : list Z)
| Uint32Array (values : list Z).

Definition index_values (a : IndexArray) : list Z :=
  match a with Uint16Array l | Uint32Array l => l end.

(** Storing a number in a [Uint16Array] / [Uint32Array] element
    ([ToUint16], [ToUint32] of ECMAScript, on integers). *)
Definition ToUint16 (v : Z) : Z := v mod 2 ^ 16.
Definition ToUint32 (v : Z) : Z := v mod 2 ^ 32.

(** [arrayNeedsUint32]: scans from the last element down and answers
    [true] at the first one [>= 65535] (65535 is kept free for primitive
    restart). *)
Fixpoint arrayNeedsUint32_from_end (rev_array : list nat) : bool :=
  match rev_array with
  | [] => false
  | i :: rest => if (65535 <=? Z.of_nat i)%Z then true else arrayNeedsUint32_from_end rest
  end.

Definition arrayNeedsUint32 (array : list nat) : bool := arrayNeedsUint32_from_end (rev array).

(** [setIndex(index)] on an array: [new (arrayNeedsUint32(index) ?
    Uint32BufferAttribute : Uint16BufferAttribute)(index, 1)]. *)
Definition setIndex (index : list nat) : IndexArray :=
  if arrayNeedsUint32 index
  then Uint32Array (map (fun i => ToUint32 (Z.of_nat i)) index)
  else Uint16Array (map (fun i => ToUint16 (Z.of_nat i)) index).

Record BufferGeometry := mkGeometry {
  index : IndexArray;
  position : list Q;
  normal : list Q;
  uv : list Q
}.

(** The end of the constructor: [this.setIndex(indices)] and one
    attribute per array (item sizes 3, 3 and 2). *)
Definition PlaneGeometry (width height : Q) (widthSegments heightSegments : nat) : BufferGeometry :=
  let b := plane_arrays width height widthSegments heightSegments in
  mkGeometry (setIndex (b_indices b)) (b_vertices b) (b_normals b) (b_uvs b).

(** [new THREE.PlaneGeometry(4, 4, 100, 100)] *)
Definition plane : BufferGeometry := PlaneGeometry 4 4 100 100.

(** [getX], [getY], [getZ] of an attribute of item size 3 at vertex [k],
    and [getX], [getY] of one of item size 2: [array[k * itemSize + j]]. *)
Definition attr3 (array : list Q) (k : nat) : Q * Q * Q :=
  (nth (3 * k) array 0, nth (3 * k + 1) array 0, nth (3 * k + 2) array 0).
Definition attr2 (array : list Q) (k : nat) : Q * Q :=
  (nth (2 * k) array 0, nth (2 * k + 1) array 0).

(** [gl.drawElements(gl.TRIANGLES, ...)] reads the index array by
    consecutive triples. *)
Fixpoint triangles (l : list nat) : list (nat * nat * nat) :=
  match l with
  | a :: b :: c :: rest => (a, b, c) :: triangles rest
  | _ => []
  end.

(** Twice the signed area of a triangle of the plane [z = 0]; positive
    when its vertices turn counter-clockwise seen from [+z]. *)
Definition orient2 (a b c : Q * Q) : Q :=
  (fst b - fst a) * (snd c - snd a) - (snd b - snd a) * (fst c - fst a).

Definition xy (p : Q * Q * Q) : Q * Q := let '(x, y, _) := p in (x, y).

Definition triangle_orientation (pos : list Q) (t : nat * nat * nat) : Q :=
  let '(a, b, c) := t in orient2 (xy (attr3 pos a)) (xy (attr3 pos b)) (xy (attr3 pos c)).

(** Point [p] of the plane [z = 0] lies in triangle [t] of the mesh: it is
    a convex combination of the triangle's corners read from [pos]. *)
Definition in_triangle (pos : list Q) (t : nat * nat * nat) (p : Q * Q) : Prop :=
  let '(a, b, c) := t in
  exists l0 l1 l2, 0 <= l0 /\ 0 <= l1 /\ 0 <= l2 /\ l0 + l1 + l2 == 1 /\
    fst p == l0 * fst (xy (attr3 pos a)) + l1 * fst (xy (attr3 pos b)) + l2 * fst (xy (attr3 pos c)) /\
    snd p == l0 * snd (xy (attr3 pos a)) + l1 * snd (xy (attr3 pos b)) + l2 * snd (xy (attr3 pos c)).

(** ** The row-major reference *)

(** All pushes of a two-level loop over [rows x cols], row by row. *)
Definition grid_concat (rows cols : nat) (f : nat -> nat -> Buffers) : Buffers :=
  bconcat (map (fun iy => bconcat (map (f iy) (seq 0 cols))) (seq 0 rows)).

Definition plane_ref (width height : Q) (gridX gridY : nat) : Buffers :=
  bappend
    (grid_concat (gridY + 1) (gridX + 1)
       (vertex_push gridX gridY (width / q_of_nat gridX) (height / q_of_nat gridY)
                    (width / 2) (height / 2)))
    (grid_concat gridY gridX (face_push (gridX + 1))).

(** ** Lemmas on the buffers *)

Lemma bappend_assoc (a b c : Buffers) : bappend (bappend a b) c = bappend a (bappend b c).
Proof. unfold bappend; simpl. now rewrite !app_assoc. Qed.

Lemma bappend_empty (b : Buffers) : bappend b bempty = b.
Proof. destruct b. unfold bappend; simpl. now rewrite !app_nil_r. Qed.

(** A loop that pushes [f i] at each step pushes their concatenation. *)
Lemma for_range_push (n i : nat) (f : nat -> Buffers) (s : Buffers) :
  for_range n i (fun k b => bappend b (f k)) s = bappend s (bconcat (map f (seq i n))).
Proof.
  revert i s. induction n as [|n IH]; intros i s; simpl; [now rewrite bappend_empty|].
  rewrite IH, bappend_assoc. reflexivity.
Qed.

Lemma for_range_grid_from (rows i cols : nat) (f : nat -> nat -> Buffers) (s : Buffers) :
  for_range rows i (fun iy b => for_range cols 0 (fun ix b => bappend b (f iy ix)) b) s =
  bappend s (bconcat (map (fun iy => bconcat (map (f iy) (seq 0 cols))) (seq i rows))).
Proof.
  revert i s. induction rows as [|rows IH]; intros i s; simpl; [now rewrite bappend_empty|].
  rewrite IH, for_range_push, bappend_assoc. reflexivity.
Qed.

Lemma for_range_grid (rows cols : nat) (f : nat -> nat -> Buffers) (s : Buffers) :
  for_range rows 0 (fun iy b => for_range cols 0 (fun ix b => bappend b (f iy ix)) b) s =
  bappend s (grid_concat rows cols f).
Proof. apply for_range_grid_from. Qed.

Lemma bappend_empty_l (b : Buffers) : bappend bempty b = b.
Proof. now destruct b. Qed.

(** Each array of a concatenation is the concatenation of the arrays:
    one section for the four projections. *)
Section Projection.
Context {X : Type} (p : Buffers -> list X).
Hypothesis p_app : forall a b, p (bappend a b) = p a ++ p b.
Hypothesis p_empty : p bempty = [].

Lemma proj_bconcat (l : list Buffers) : p (bconcat l) = flat_map p l.
Proof. induction l as [|b l IH]; simpl; [exact p_empty | now rewrite p_app, IH]. Qed.

Lemma proj_grid (rows cols : nat) (f : nat -> nat -> Buffers) :
  p (grid_concat rows cols f) =
  flat_map (fun iy => flat_map (fun ix => p (f iy ix)) (seq 0 cols)) (seq 0 rows).
Proof.
  unfold grid_concat. rewrite proj_bconcat, flat_map_map_fuse. apply flat_map_ext. intros iy.
  now rewrite proj_bconcat, flat_map_map_fuse.
Qed.

(** A grid whose cells all push [c] elements pushes [rows * (cols * c)]. *)
Lemma proj_grid_length (rows cols c : nat) (f : nat -> nat -> Buffers) :
  (forall iy ix, length (p (f iy ix)) = c) ->
  length (p (grid_concat rows cols f)) = (rows * (cols * c))%nat.
Proof.
  intros Hc. rewrite proj_grid.
  rewrite (flat_map_constant_length (c := (cols * c)%nat)), length_seq; [reflexivity|].
  intros iy _. rewrite (flat_map_constant_length (c := c)), length_seq; auto.
Qed.

End Projection.

Ltac proj_ok := intros; reflexivity.

(** The loops of the constructor push exactly the row-major reference. *)
Lemma plane_arrays_ref (w h : Q) (gx gy : nat) : plane_arrays w h gx gy = plane_ref w h gx gy.
Proof. unfold plane_arrays, plane_ref. rewrite !for_range_grid, bappend_empty_l. reflexivity. Qed.

Lemma flat_map_nil_grid {X : Type} (rows cols : list nat) :
  flat_map (fun _ : nat => flat_map (fun _ : nat => @nil X) cols) rows = [].
Proof. induction rows as [|r rows IH]; simpl; [reflexivity|]. rewrite IH, app_nil_r. induction cols; simpl; auto. Qed.

Ltac plane_proj p :=
  rewrite plane_arrays_ref; unfold plane_ref; cbn [p bappend];
  rewrite !(proj_grid p) by proj_ok; cbn [p face_push vertex_push];
  rewrite ?flat_map_nil_grid, ?app_nil_r; reflexivity.

(** The arrays of the plane, one by one: vertex data from the vertex grid,
    indices from the cell grid. *)
Lemma plane_vertices (w h : Q) (gx gy : nat) :
  b_vertices (plane_arrays w h gx gy) =
  flat_map (fun iy => flat_map (fun ix =>
    b_vertices (vertex_push gx gy (w / q_of_nat gx) (h / q_of_nat gy) (w / 2) (h / 2) iy ix))
    (seq 0 (gx + 1))) (seq 0 (gy + 1)).
Proof. plane_proj b_vertices. Qed.

Lemma plane_uvs (w h : Q) (gx gy : nat) :
  b_uvs (plane_arrays w h gx gy) =
  flat_map (fun iy => flat_map (fun ix =>
    b_uvs (vertex_push gx gy (w / q_of_nat gx) (h / q_of_nat gy) (w / 2) (h / 2) iy ix))
    (seq 0 (gx + 1))) (seq 0 (gy + 1)).
Proof. plane_proj b_uvs. Qed.

Lemma plane_indices (w h : Q) (gx gy : nat) :
  b_indices (plane_arrays w h gx gy) =
  flat_map (fun iy => flat_map (fun ix => b_indices (face_push (gx + 1) iy ix))
    (seq 0 gx)) (seq 0 gy).
Proof. plane_proj b_indices. Qed.

Lemma plane_arrays_lengths (w h : Q) (gx gy : nat) :
  let b := plane_arrays w h gx gy in
  length (b_vertices b) = (3 * ((gx + 1) * (gy + 1)))%nat /\
  length (b_normals b) = (3 * ((gx + 1) * (gy + 1)))%nat /\
  length (b_uvs b) = (2 * ((gx + 1) * (gy + 1)))%nat /\
  length (b_indices b) = (6 * (gx * gy))%nat.
Proof.
  cbn zeta. rewrite plane_arrays_ref. unfold plane_ref.
  cbn [b_vertices b_normals b_uvs b_indices bappend]. rewrite !length_app.
  rewrite (proj_grid_length b_vertices (fun _ _ => eq_refl) eq_refl _ _ 3), (proj_grid_length b_vertices (fun _ _ => eq_refl) eq_refl _ _ 0),
          (proj_grid_length b_normals (fun _ _ => eq_refl) eq_refl _ _ 3), (proj_grid_length b_normals (fun _ _ => eq_refl) eq_refl _ _ 0),
          (proj_grid_length b_uvs (fun _ _ => eq_refl) eq_refl _ _ 2), (proj_grid_length b_uvs (fun _ _ => eq_refl) eq_refl _ _ 0),
          (proj_grid_length b_indices (fun _ _ => eq_refl) eq_refl _ _ 0 (vertex_push _ _ _ _ _ _)),
          (proj_grid_length b_indices (fun _ _ => eq_refl) eq_refl _ _ 6) by proj_ok.
  repeat split; lia.
Qed.

Lemma setIndex_length (l : list nat) : length (index_values (setIndex l)) = length l.
Proof. unfold setIndex. destruct (arrayNeedsUint32 l); simpl; apply length_map. Qed.

(** The six indices of cell [(ix, iy)] address vertices of the grid. *)
Lemma face_push_in_range (gx gy iy ix i : nat) :
  (ix < gx)%nat -> (iy < gy)%nat -> In i (b_indices (face_push (gx + 1) iy ix)) ->
  (i < (gx + 1) * (gy + 1))%nat.
Proof.
  intros Hx Hy Hi. assert ((gx + 1) * (iy + 1) <= (gx + 1) * gy)%nat by (apply Nat.mul_le_mono_l; lia).
  simpl in Hi. repeat destruct Hi as [<-|Hi]; try contradiction; nia.
Qed.

(** Reading chunk [(ix, iy)] of a row-major grid of chunks of length [c]. *)
Lemma grid_nth {X} (g : nat -> nat -> list X) (rows cols c ix iy j : nat) (d : X) :
  (forall iy ix, length (g iy ix) = c) -> (ix < cols)%nat -> (iy < rows)%nat -> (j < c)%nat ->
  nth (c * (ix + cols * iy) + j) (flat_map (fun iy => flat_map (g iy) (seq 0 cols)) (seq 0 rows)) d =
  nth j (g iy ix) d.
Proof.
  intros Hc Hx Hy Hj.
  replace (c * (ix + cols * iy) + j)%nat with (iy * (cols * c) + (ix * c + j))%nat by ring.
  rewrite (nth_flat_map_chunk _ (cols * c) _ iy _ 0%nat); rewrite ?length_seq; try nia.
  - rewrite seq_nth by lia. rewrite (nth_flat_map_chunk _ c _ ix j 0%nat); rewrite ?length_seq; auto.
    now rewrite seq_nth by lia.
  - intros iy'. rewrite (flat_map_constant_length (c := c)), length_seq; auto.
Qed.

Lemma attr3_grid (g : nat -> nat -> list Q) (rows cols ix iy : nat) :
  (forall iy ix, length (g iy ix) = 3%nat) -> (ix < cols)%nat -> (iy < rows)%nat ->
  attr3 (flat_map (fun iy => flat_map (g iy) (seq 0 cols)) (seq 0 rows)) (ix + cols * iy) =
  (nth 0 (g iy ix) 0, nth 1 (g iy ix) 0, nth 2 (g iy ix) 0).
Proof.
  intros Hc Hx Hy. unfold attr3.
  rewrite <- !(grid_nth g rows cols 3 ix iy _ 0 Hc Hx Hy) by lia. now rewrite Nat.add_0_r.
Qed.

Lemma attr2_grid (g : nat -> nat -> list Q) (rows cols ix iy : nat) :
  (forall iy ix, length (g iy ix) = 2%nat) -> (ix < cols)%nat -> (iy < rows)%nat ->
  attr2 (flat_map (fun iy => flat_map (g iy) (seq 0 cols)) (seq 0 rows)) (ix + cols * iy) =
  (nth 0 (g iy ix) 0, nth 1 (g iy ix) 0).
Proof.
  intros Hc Hx Hy. unfold attr2.
  rewrite <- !(grid_nth g rows cols 2 ix iy _ 0 Hc Hx Hy) by lia. now rewrite Nat.add_0_r.
Qed.

(** The position and uv the shader receives for vertex [ix + gridX1 * iy]
    are those pushed at grid point [(ix, iy)]. *)
Lemma plane_position_at (w h : Q) (gx gy ix iy : nat) :
  (ix <= gx)%nat -> (iy <= gy)%nat ->
  attr3 (position (PlaneGeometry w h gx gy)) (ix + (gx + 1) * iy) =
  (q_of_nat ix * (w / q_of_nat gx) - w / 2, - (q_of_nat iy * (h / q_of_nat gy) - h / 2), 0).
Proof.
  intros Hx Hy. unfold PlaneGeometry; cbn [position]. rewrite plane_vertices.
  rewrite (attr3_grid (fun iy ix => b_vertices (vertex_push _ _ _ _ _ _ iy ix)) (gy + 1)); auto; lia.
Qed.

Lemma plane_uv_at (w h : Q) (gx gy ix iy : nat) :
  (ix <= gx)%nat -> (iy <= gy)%nat ->
  attr2 (uv (PlaneGeometry w h gx gy)) (ix + (gx + 1) * iy) =
  (q_of_nat ix / q_of_nat gx, 1 - q_of_nat iy / q_of_nat gy).
Proof.
  intros Hx Hy. unfold PlaneGeometry; cbn [uv]. rewrite plane_uvs.
  rewrite (attr2_grid (fun iy ix => b_uvs (vertex_push _ _ _ _ _ _ iy ix)) (gy + 1)); auto; lia.
Qed.

(** Every vertex number below the vertex count is [ix + gridX1 * iy] for
    the grid point [(k mod gridX1, k / gridX1)]. *)
Lemma grid_decode (gx gy k : nat) :
  (k < (gx + 1) * (gy + 1))%nat ->
  k = (k mod (gx + 1) + (gx + 1) * (k / (gx + 1)))%nat /\
  (k mod (gx + 1) <= gx)%nat /\ (k / (gx + 1) <= gy)%nat.
Proof.
  intros Hk. split; [rewrite Nat.add_comm; apply Nat.div_mod; lia|]. split.
  - pose proof (Nat.mod_upper_bound k (gx + 1)). lia.
  - assert (k / (gx + 1) < gy + 1)%nat by (apply Nat.Div0.div_lt_upper_bound; lia). lia.
Qed.

Lemma triangles_app (n : nat) (l1 l2 : list nat) :
  length l1 = (3 * n)%nat -> triangles (l1 ++ l2) = triangles l1 ++ triangles l2.
Proof.
  revert l1. induction n as [|n IH]; intros l1 Hl.
  - destruct l1; [reflexivity | simpl in Hl; lia].
  - destruct l1 as [|a [|b [|c l1]]]; simpl in Hl; try lia.
    simpl. f_equal. apply IH. lia.
Qed.

Lemma triangles_flat_map {A} (n : nat) (f : A -> list nat) (l : list A) :
  (forall x, length (f x) = (3 * n)%nat) ->
  triangles (flat_map f l) = flat_map (fun x => triangles (f x)) l.
Proof.
  intros Hf. induction l as [|a l IH]; [reflexivity|].
  simpl. rewrite (triangles_app n) by apply Hf. now rewrite IH.
Qed.

Lemma q_of_nat_add1 (n : nat) : q_of_nat (n + 1) == q_of_nat n + 1.
Proof. unfold q_of_nat. now rewrite Nat2Z.inj_add, inject_Z_plus. Qed.

Lemma segment_pos (w : Q) (n : nat) : 0 < w -> (0 < n)%nat -> 0 < w / q_of_nat n.
Proof.
  intros Hw Hn. apply Qlt_shift_div_l; [|now rewrite Qmult_0_l].
  unfold q_of_nat. change 0 with (inject_Z 0). rewrite <- Zlt_Qlt. lia.
Qed.

(** The two triangles of a cell, [(a, b, d)] and [(b, c, d)], both have
    twice the signed area [segment_width * segment_height]. *)
Lemma cell_orientation (ix iy : nat) (sw sh wh hh : Q) :
  let x i := q_of_nat i * sw - wh in
  let y j := - (q_of_nat j * sh - hh) in
  orient2 (x ix, y iy) (x ix, y (iy + 1)%nat) (x (ix + 1)%nat, y iy) == sw * sh /\
  orient2 (x ix, y (iy + 1)%nat) (x (ix + 1)%nat, y (iy + 1)%nat) (x (ix + 1)%nat, y iy) == sw * sh.
Proof. intros x y. unfold orient2, x, y; simpl. rewrite !q_of_nat_add1. split; ring. Qed.

Lemma ratio_in_01 (i n : nat) :
  (i <= n)%nat -> (0 < n)%nat -> 0 <= q_of_nat i / q_of_nat n <= 1.
Proof.
  intros Hi Hn. unfold q_of_nat.
  assert (Hpos : 0 < inject_Z (Z.of_nat n)) by (change 0 with (inject_Z 0); rewrite <- Zlt_Qlt; lia).
  split.
  - apply Qle_shift_div_l; [exact Hpos|]. rewrite Qmult_0_l.
    change 0 with (inject_Z 0). rewrite <- Zle_Qle. lia.
  - apply Qle_shift_div_r; [exact Hpos|]. rewrite Qmult_1_l. rewrite <- Zle_Qle. lia.
Qed.

Lemma arrayNeedsUint32_from_end_false (l : list nat) :
  arrayNeedsUint32_from_end l = false <-> Forall (fun i => (Z.of_nat i < 65535)%Z) l.
Proof.
  induction l as [|i l IH]; simpl; [split; auto|].
  destruct (65535 <=? Z.of_nat i)%Z eqn:E.
  - apply Z.leb_le in E. split; [discriminate | intros Hf; inversion Hf; lia].
  - apply Z.leb_gt in E. rewrite IH. split; [now constructor | now inversion 1].
Qed.

(** [arrayNeedsUint32] is [false] exactly when every index is below 65535. *)
Lemma arrayNeedsUint32_false (l : list nat) :
  arrayNeedsUint32 l = false <-> Forall (fun i => (Z.of_nat i < 65535)%Z) l.
Proof.
  unfold arrayNeedsUint32. rewrite arrayNeedsUint32_from_end_false. split; intros H.
  - apply Forall_rev in H. now rewrite rev_involutive in H.
  - now apply Forall_rev.
Qed.

Lemma map_mod_small (m : Z) (l : list nat) :
  Forall (fun i => (Z.of_nat i < m)%Z) l -> map (fun i => (Z.of_nat i mod m)%Z) l = map Z.of_nat l.
Proof.
  intros Hl. apply map_ext_in. intros i Hi. rewrite Forall_forall in Hl.
  apply Z.mod_small. specialize (Hl i Hi). lia.
Qed.

(** [setIndex] stores every index below [2^32] unchanged, in whichever
    array it chooses. *)
Lemma setIndex_values (l : list nat) :
  Forall (fun i => (Z.of_nat i < 2 ^ 32)%Z) l -> index_values (setIndex l) = map Z.of_nat l.
Proof.
  intros Hl. unfold setIndex, ToUint16, ToUint32. destruct (arrayNeedsUint32 l) eqn:E; simpl.
  - now apply map_mod_small.
  - apply map_mod_small. apply arrayNeedsUint32_false in E. eapply Forall_impl; [|exact E].
    simpl. lia.
Qed.

Lemma plane_arrays_index_bound (w h : Q) (gx gy : nat) :
  Forall (fun i => (i < (gx + 1) * (gy + 1))%nat) (b_indices (plane_arrays w h gx gy)).
Proof.
  apply Forall_forall. rewrite plane_indices. intros i Hi.
  apply in_flat_map in Hi as (iy & Hy & Hi). apply in_flat_map in Hi as (ix & Hx & Hi).
  apply in_seq in Hx, Hy. eapply face_push_in_range; eauto; lia.
Qed.

(** A coordinate of [[0, n]] lies in one of the [n] unit cells. *)
Lemma cell_of (q : Q) (n : nat) :
  0 <= q <= q_of_nat n -> (0 < n)%nat ->
  exists i, (i < n)%nat /\ q_of_nat i <= q <= q_of_nat i + 1.
Proof.
  intros [H0 Hn] Hpos. pose proof (Qfloor_le q) as Hf. pose proof (Qlt_floor q) as Hf1.
  rewrite inject_Z_plus in Hf1.
  assert (Hf0 : (0 <= Qfloor q)%Z).
  { destruct (Z.le_gt_cases 0 (Qfloor q)) as [|Hneg]; [assumption|].
    assert (inject_Z (Qfloor q) + inject_Z 1 <= 0); [|lra].
    rewrite <- inject_Z_plus. change 0 with (inject_Z 0). rewrite <- Zle_Qle. lia. }
  destruct (Nat.lt_ge_cases (Z.to_nat (Qfloor q)) n) as [Hlt|Hge].
  - exists (Z.to_nat (Qfloor q)). unfold q_of_nat. rewrite Z2Nat.id by exact Hf0.
    split; [exact Hlt|]. change (inject_Z 1) with 1 in Hf1. lra.
  - exists (n - 1)%nat. split; [lia|].
    assert (Hn1 : q_of_nat (n - 1) + 1 == q_of_nat n).
    { rewrite <- q_of_nat_add1. now replace (n - 1 + 1)%nat with n by lia. }
    assert (q_of_nat (n - 1) <= inject_Z (Qfloor q)); [|lra].
    unfold q_of_nat. rewrite <- Zle_Qle. lia.
Qed.

(** Both triangles of every cell are drawn. *)
Lemma cell_triangles_in (w h : Q) (gx gy ix iy : nat) :
  (ix < gx)%nat -> (iy < gy)%nat ->
  let gx1 := (gx + 1)%nat in
  In ((ix + gx1 * iy)%nat, (ix + gx1 * (iy + 1))%nat, (ix + 1 + gx1 * iy)%nat)
     (triangles (b_indices (plane_arrays w h gx gy))) /\
  In ((ix + gx1 * (iy + 1))%nat, (ix + 1 + gx1 * (iy + 1))%nat, (ix + 1 + gx1 * iy)%nat)
     (triangles (b_indices (plane_arrays w h gx gy))).
Proof.
  intros Hx Hy gx1. rewrite plane_indices, (triangles_flat_map (2 * gx)).
  2:{ intros iy'. rewrite (flat_map_constant_length (c := 6%nat)), length_seq; [lia | reflexivity]. }
  split; apply in_flat_map; exists iy; (split; [apply in_seq; lia|]);
    rewrite (triangles_flat_map 2) by reflexivity;
    apply in_flat_map; exists ix; (split; [apply in_seq; lia|]); cbn; auto.
Qed.

(** ** Any plane's buffers *)

(** [PlaneGeometry(w, h, gx, gy)] holds [(gx+1)(gy+1)]
    vertices: three position and three normal components and two uv
    components each, and [6 gx gy] indices (two triangles per cell). *)
Lemma geometry_buffer_lengths (w h : Q) (gx gy : nat) :
  let g := PlaneGeometry w h gx gy in
  length (position g) = (3 * ((gx + 1) * (gy + 1)))%nat /\
  length (normal g) = (3 * ((gx + 1) * (gy + 1)))%nat /\
  length (uv g) = (2 * ((gx + 1) * (gy + 1)))%nat /\
  length (index_values (index g)) = (6 * (gx * gy))%nat.
Proof.
  cbn zeta. unfold PlaneGeometry; cbn [position normal uv index]. rewrite setIndex_length.
  apply plane_arrays_lengths.
Qed.

(** Every index the geometry's index attribute holds
    addresses one of its [(gx+1)(gy+1)] vertices, for any plane with fewer
    than [2^32] vertices: the pushed indices are in range and [setIndex]
    stores them unchanged. *)
Lemma geometry_indices_in_range (w h : Q) (gx gy : nat) (i : Z) :
  (Z.of_nat ((gx + 1) * (gy + 1)) <= 2 ^ 32)%Z ->
  In i (index_values (index (PlaneGeometry w h gx gy))) ->
  (0 <= i < Z.of_nat ((gx + 1) * (gy + 1)))%Z.
Proof.
  intros Hn. pose proof (plane_arrays_index_bound w h gx gy) as Hb.
  unfold PlaneGeometry; cbn [index]. rewrite setIndex_values.
  - intros (j & <- & Hj)%in_map_iff. rewrite Forall_forall in Hb. specialize (Hb j Hj). lia.
  - eapply Forall_impl; [|exact Hb]. simpl. lia.
Qed.

(** The vertex numbering of the index buffer and the
    layout of the attribute arrays agree: vertex [k] of the plane, read
    from the position and uv attributes, is the grid point
    [(k mod gridX1, k / gridX1)], at [x = ix * w/gx - w/2],
    [y = h/2 - iy * h/gy], [z = 0], with uv [(ix/gx, 1 - iy/gy)]. *)
Lemma geometry_vertex_roundtrip (w h : Q) (gx gy k : nat) :
  (k < (gx + 1) * (gy + 1))%nat ->
  let ix := (k mod (gx + 1))%nat in
  let iy := (k / (gx + 1))%nat in
  attr3 (position (PlaneGeometry w h gx gy)) k =
    (q_of_nat ix * (w / q_of_nat gx) - w / 2, - (q_of_nat iy * (h / q_of_nat gy) - h / 2), 0) /\
  attr2 (uv (PlaneGeometry w h gx gy)) k = (q_of_nat ix / q_of_nat gx, 1 - q_of_nat iy / q_of_nat gy).
Proof.
  intros Hk ix iy. destruct (grid_decode gx gy k Hk) as (Hek & Hx & Hy).
  rewrite Hek at 1 2. split; [apply plane_position_at | apply plane_uv_at]; assumption.
Qed.

(** Every triangle the plane's index array draws, with its
    corners read from the position attribute, turns counter-clockwise seen
    from [+z] (where the camera is), with twice its area equal to
    [segment_width * segment_height > 0]: no triangle is culled as a back
    face and none is degenerate. *)
Lemma geometry_front_facing (w h : Q) (gx gy : nat) :
  0 < w -> 0 < h ->
  Forall (fun t => triangle_orientation (position (PlaneGeometry w h gx gy)) t
                     == w / q_of_nat gx * (h / q_of_nat gy) /\
                   0 < triangle_orientation (position (PlaneGeometry w h gx gy)) t)
         (triangles (b_indices (plane_arrays w h gx gy))).
Proof.
  intros Hw Hh. rewrite plane_indices, (triangles_flat_map (2 * gx)).
  2:{ intros iy. rewrite (flat_map_constant_length (c := 6%nat)), length_seq; [lia | reflexivity]. }
  apply Forall_flat_map, Forall_forall. intros iy Hy. apply in_seq in Hy.
  rewrite (triangles_flat_map 2) by reflexivity.
  apply Forall_flat_map, Forall_forall. intros ix Hx. apply in_seq in Hx.
  assert (Hpos : 0 < w / q_of_nat gx * (h / q_of_nat gy))
    by (apply Qmult_lt_0_compat; apply segment_pos; auto; lia).
  destruct (cell_orientation ix iy (w / q_of_nat gx) (h / q_of_nat gy) (w / 2) (h / 2)) as [H1 H2].
  cbn [b_indices face_push triangles].
  repeat apply Forall_cons; try apply Forall_nil; unfold triangle_orientation;
    rewrite !plane_position_at by lia; cbn [xy];
    [rewrite H1 | rewrite H2]; split; auto; reflexivity.
Qed.

(** Every uv component of a plane with at least one segment
    each way lies in [[0, 1]]. *)
Lemma geometry_uv_range (w h : Q) (gx gy : nat) :
  (0 < gx)%nat -> (0 < gy)%nat ->
  Forall (fun u => 0 <= u <= 1) (uv (PlaneGeometry w h gx gy)).
Proof.
  intros Hx Hy. unfold PlaneGeometry; cbn [uv]. rewrite plane_uvs.
  apply Forall_flat_map, Forall_forall. intros iy Hiy%in_seq.
  apply Forall_flat_map, Forall_forall. intros ix Hix%in_seq.
  destruct (ratio_in_01 ix gx) as [Hu1 Hu2]; try lia.
  destruct (ratio_in_01 iy gy) as [Hv1 Hv2]; try lia.
  cbn [b_uvs vertex_push]. repeat constructor; lra.
Qed.

(** A plane with at most 65535 vertices, such as the
    repository's [PlaneGeometry(4, 4, 100, 100)] with 10201, gets a
    [Uint16Array] index holding the pushed indices unchanged. *)
Lemma geometry_index_uint16 (w h : Q) (gx gy : nat) :
  (Z.of_nat ((gx + 1) * (gy + 1)) <= 65535)%Z ->
  index (PlaneGeometry w h gx gy) = Uint16Array (map Z.of_nat (b_indices (plane_arrays w h gx gy))).
Proof.
  intros Hn. pose proof (plane_arrays_index_bound w h gx gy) as Hb.
  assert (Hs : Forall (fun i => (Z.of_nat i < 65535)%Z) (b_indices (plane_arrays w h gx gy)))
    by (eapply Forall_impl; [|exact Hb]; intros i Hi; cbv beta in Hi; lia).
  unfold PlaneGeometry, setIndex, ToUint16; cbn [index].
  rewrite (proj2 (arrayNeedsUint32_false _) Hs). f_equal.
  apply map_mod_small. eapply Forall_impl; [|exact Hs]. intros i Hi. cbv beta in Hi. change (2 ^ 16)%Z with 65536%Z. lia.
Qed.

Lemma q_of_nat_pos (n : nat) : (0 < n)%nat -> 0 < q_of_nat n.
Proof. intros Hn. unfold q_of_nat. change 0 with (inject_Z 0). rewrite <- Zlt_Qlt. lia. Qed.

Lemma Q_pos_neq (q : Q) : 0 < q -> ~ q == 0.
Proof. intros Hq E. rewrite E in Hq. exact (Qlt_irrefl 0 Hq). Qed.

(** A point's coordinate measured in cells, [(X + w/2) / segment_width],
    lies in [[0, gridX]]. *)
Lemma grid_coord_range (w X : Q) (n : nat) :
  0 < w -> (0 < n)%nat -> - (w / 2) <= X <= w / 2 ->
  0 <= (X + w / 2) / (w / q_of_nat n) <= q_of_nat n.
Proof.
  intros Hw Hn HX. pose proof (q_of_nat_pos n Hn). pose proof (segment_pos w n Hw Hn).
  split.
  - apply Qle_shift_div_l; [assumption|]. rewrite Qmult_0_l. q_halves. lra.
  - apply Qle_shift_div_r; [assumption|].
    setoid_replace (q_of_nat n * (w / q_of_nat n)) with w by (field; repeat split; apply Q_pos_neq; assumption).
    q_halves. lra.
Qed.

(** The triangles of any plane tile its rectangle: every point of
    [[-w/2, w/2] x [-h/2, h/2]] lies in a drawn triangle.  The cell is
    found by flooring the point's cell coordinates, the triangle by the sum
    of its offsets in the cell. *)
Lemma geometry_tiles (w h : Q) (gx gy : nat) (X Y : Q) :
  0 < w -> 0 < h -> (0 < gx)%nat -> (0 < gy)%nat ->
  - (w / 2) <= X <= w / 2 -> - (h / 2) <= Y <= h / 2 ->
  exists t, In t (triangles (b_indices (plane_arrays w h gx gy))) /\
            in_triangle (position (PlaneGeometry w h gx gy)) t (X, Y).
Proof.
  intros Hw Hh Hgx Hgy HX HY.
  assert (HY' : - (h / 2) <= - Y <= h / 2) by lra.
  pose proof (grid_coord_range w X gx Hw Hgx HX) as Hgxc.
  pose proof (grid_coord_range h (- Y) gy Hh Hgy HY') as Hgyc.
  assert (N1 := Q_pos_neq _ (q_of_nat_pos gx Hgx)). assert (N2 := Q_pos_neq _ (q_of_nat_pos gy Hgy)).
  assert (N3 := Q_pos_neq _ Hw). assert (N4 := Q_pos_neq _ Hh).
  destruct (cell_of _ gx Hgxc Hgx) as (ix & Hix & Hsx).
  destruct (cell_of _ gy Hgyc Hgy) as (iy & Hiy & Hsy).
  destruct (cell_triangles_in w h gx gy ix iy Hix Hiy) as [T1 T2].
  set (s := (X + w / 2) / (w / q_of_nat gx) - q_of_nat ix) in *.
  set (r := (- Y + h / 2) / (h / q_of_nat gy) - q_of_nat iy) in *.
  assert (Hs : 0 <= s <= 1) by (unfold s; lra). assert (Hr : 0 <= r <= 1) by (unfold r; lra).
  destruct (Qlt_le_dec 1 (s + r)) as [Hup|Hlow].
  - eexists; split; [exact T2|]. unfold in_triangle; cbv beta iota.
    rewrite !plane_position_at by lia. cbn [xy fst snd].
    exists (1 - s), (s + r - 1), (1 - r).
    repeat split; try lra; unfold s, r; rewrite ?q_of_nat_add1; field; auto.
  - eexists; split; [exact T1|]. unfold in_triangle; cbv beta iota.
    rewrite !plane_position_at by lia. cbn [xy fst snd].
    exists (1 - s - r), r, s.
    repeat split; try lra; unfold s, r; rewrite ?q_of_nat_add1; field; auto.
Qed.

(** In any drawn triangle the three corners are vertices of the plane. *)
Lemma triangles_in (l : list nat) (a b c : nat) :
  In (a, b, c) (triangles l) -> In a l /\ In b l /\ In c l.
Proof.
  remember (length l) as n eqn:Hn. revert l Hn.
  induction n as [n IH] using lt_wf_ind. intros [|x [|y [|z l]]] Hn H; try contradiction.
  destruct H as [E|H].
  - injection E as <- <- <-. simpl; tauto.
  - simpl in Hn. destruct (IH (length l) ltac:(lia) l eq_refl H) as (H1 & H2 & H3). simpl; tauto.
Qed.

(** The uv of each vertex of the repository's plane is an affine function
    of its position, [u = x/4 + 1/2], [v = y/4 + 1/2], and the vertex
    lies in [[-2, 2] x [-2, 2]] at [z = 0]. *)
Lemma plane_vertex_affine (k : nat) :
  (k < 101 * 101)%nat ->
  exists x y, attr3 (position plane) k = (x, y, 0) /\
    fst (attr2 (uv plane) k) == x * (1 # 4) + (1 # 2) /\
    snd (attr2 (uv plane) k) == y * (1 # 4) + (1 # 2) /\
    -2 <= x <= 2 /\ -2 <= y <= 2.
Proof.
  intros Hk. destruct (geometry_vertex_roundtrip 4 4 100 100 k Hk) as [H1 H2].
  unfold plane. rewrite H1, H2. change (100 + 1)%nat with 101%nat. eexists _, _.
  split; [reflexivity|]. cbn [fst snd].
  assert (N : ~ q_of_nat 100 == 0) by (apply Q_pos_neq, q_of_nat_pos; lia).
  pose proof (Nat.mod_upper_bound k 101 ltac:(lia)).
  assert (k / 101 < 101)%nat by (apply Nat.Div0.div_lt_upper_bound; lia).
  destruct (ratio_in_01 (k mod 101) 100) as [Hu0 Hu1]; try lia.
  destruct (ratio_in_01 (k / 101) 100) as [Hv0 Hv1]; try lia.
  assert (Ex : q_of_nat (k mod 101) * (4 / q_of_nat 100) - 4 / 2 ==
               4 * (q_of_nat (k mod 101) / q_of_nat 100) - 2) by (field; exact N).
  assert (Ey : - (q_of_nat (k / 101) * (4 / q_of_nat 100) - 4 / 2) ==
               4 * (1 - q_of_nat (k / 101) / q_of_nat 100) - 2) by (field; exact N).
  rewrite Ex, Ey. repeat split; try lra; ring.
Qed.

(** ** The repository's plane *)

(** C38: the repository's plane holds [101 * 101] vertices, with three
    position, three normal and two uv components each, and
    [6 * 100 * 100] indices (two triangles per cell). *)
Theorem plane_buffer_lengths :
  length (position plane) = (3 * (101 * 101))%nat /\
  length (normal plane) = (3 * (101 * 101))%nat /\
  length (uv plane) = (2 * (101 * 101))%nat /\
  length (index_values (index plane)) = (6 * (100 * 100))%nat.
Proof. exact (geometry_buffer_lengths 4 4 100 100). Qed.

(** C34: every index the repository's plane stores addresses one of its
    [101 * 101 = 10201] vertices. *)
Theorem plane_indices_in_range :
  Forall (fun i => 0 <= i < 10201)%Z (index_values (index plane)).
Proof.
  apply Forall_forall. intros i Hi.
  exact (geometry_indices_in_range 4 4 100 100 i ltac:(lia) Hi).
Qed.

(** C37: the vertex numbering of the repository's index buffer and the
    layout of its attribute arrays agree: vertex [k < 10201], read from the
    position and uv attributes, is grid point [(k mod 101, k / 101)], at
    [x = ix * 4/100 - 2], [y = 2 - iy * 4/100], [z = 0], with uv
    [(ix/100, 1 - iy/100)]. *)
Theorem plane_vertex_roundtrip (k : nat) :
  (k < 101 * 101)%nat ->
  let ix := (k mod 101)%nat in
  let iy := (k / 101)%nat in
  attr3 (position plane) k =
    (q_of_nat ix * (4 / q_of_nat 100) - 4 / 2, - (q_of_nat iy * (4 / q_of_nat 100) - 4 / 2), 0) /\
  attr2 (uv plane) k = (q_of_nat ix / q_of_nat 100, 1 - q_of_nat iy / q_of_nat 100).
Proof. intros Hk. exact (geometry_vertex_roundtrip 4 4 100 100 k Hk). Qed.

(** C35: every triangle the repository's index array draws, with its
    corners read from the position attribute, turns counter-clockwise seen
    from [+z], where the camera is, with twice its area equal to
    [0.04 * 0.04 > 0]: no triangle is culled as a back face and none is
    degenerate. *)
Theorem plane_front_facing :
  Forall (fun t => triangle_orientation (position plane) t == 4 / q_of_nat 100 * (4 / q_of_nat 100) /\
                   0 < triangle_orientation (position plane) t)
         (triangles (b_indices (plane_arrays 4 4 100 100))).
Proof. apply geometry_front_facing; reflexivity. Qed.

(** C39: the repository's plane has 10201 vertices, fewer than 65535, so
    [setIndex] picks a [Uint16Array], and it holds the pushed indices
    unchanged. *)
Theorem plane_index_uint16 :
  index plane = Uint16Array (map Z.of_nat (b_indices (plane_arrays 4 4 100 100))).
Proof. apply geometry_index_uint16. lia. Qed.

(** C36: the repository's triangles tile the plane's square: every point
    of [[-2, 2] x [-2, 2]] lies in a triangle the index array draws, as a
    convex combination of its corners read from the position attribute. *)
Theorem plane_tiles_square (X Y : Q) :
  -2 <= X <= 2 -> -2 <= Y <= 2 ->
  exists t, In t (triangles (b_indices (plane_arrays 4 4 100 100))) /\
            in_triangle (position plane) t (X, Y).
Proof.
  intros HX HY. apply geometry_tiles; try reflexivity; try lia.
  - q_halves. lra.
  - q_halves. lra.
Qed.

(** ** Witnesses *)

Lemma plane_tiles_square_witness :
  (-2 <= (1 # 3) <= 2) /\
  exists t, In t (triangles (b_indices (plane_arrays 4 4 100 100))) /\
            in_triangle (position plane) t (1 # 3, - (1 # 3)).
Proof.
  assert (H : -2 <= (1 # 3) <= 2) by (split; vm_compute; discriminate).
  assert (H' : -2 <= - (1 # 3) <= 2) by (split; vm_compute; discriminate).
  split; [exact H | exact (plane_tiles_square (1 # 3) (- (1 # 3)) H H')].
Defined.

Lemma plane_vertex_roundtrip_witness :
  (102 < 101 * 101)%nat /\
  attr3 (position plane) 102 =
    (q_of_nat 1 * (4 / q_of_nat 100) - 4 / 2, - (q_of_nat 1 * (4 / q_of_nat 100) - 4 / 2), 0) /\
  attr2 (uv plane) 102 = (q_of_nat 1 / q_of_nat 100, 1 - q_of_nat 1 / q_of_nat 100).
Proof.
  assert (H : (102 < 101 * 101)%nat) by lia.
  split; [exact H | exact (plane_vertex_roundtrip 102 H)].
Defined.
