(* ===== verification/Host.v ===== *)
(** * Host objects: window, DOM listeners, camera and renderer

    The objects the engine code talks to: the browser window
    ([window.innerWidth], [window.innerHeight]), the listener registrations
    of [window] and of the canvas ([renderer.domElement]), the Three.js
    [PerspectiveCamera] and [WebGLRenderer].  Listener registrations are a
    [gset]: the DOM ignores [addEventListener] of a listener already
    registered for the same type, and [removeEventListener] of one that is
    not registered.  [innerWidth / innerHeight] is a JavaScript division of
    two integers, so it can be [Infinity] or [NaN] ([js_div]).  Only the
    state these objects expose to the engine code is modelled. *)

From S2P Require Import Prelude.
From stdpp Require Import base gmap sets.

Open Scope Z_scope.

(** ** JavaScript numbers from an integer division *)

Inductive jsnum := JNum (q : Q) | JPosInf | JNegInf | JNaN.

(** [a / b] in JavaScript, for integers [a] and [b]. *)
Definition js_div (a b : Z) : jsnum :=
  if b =? 0 then (if a =? 0 then JNaN else if 0 <? a then JPosInf else JNegInf)
  else JNum (inject_Z a / inject_Z b).

(** ** The window *)

Record Window := mkWindow { innerWidth : Z; innerHeight : Z }.

(** ** Listener identities *)

(** The two handlers the engine registers: [handleResize] on [window]
    (type ["resize"]) and [handleClick] on the canvas (type ["click"]). *)
Inductive Listener := ResizeHandler | ClickHandler.

#[export] Instance Listener_eq_dec : EqDecision Listener.
Proof. solve_decision. Defined.

#[export] Instance Listener_countable : Countable Listener.
Proof.
  refine (inj_countable'
            (fun l => match l with ResizeHandler => true | ClickHandler => false end)
            (fun b => if b then ResizeHandler else ClickHandler) _).
  by intros [].
Defined.

(** [target.addEventListener(type, l)] and [removeEventListener]. *)
Definition addEventListener (l : Listener) (ls : gset Listener) : gset Listener := {[l]} ∪ ls.
Definition removeEventListener (l : Listener) (ls : gset Listener) : gset Listener := ls ∖ {[l]}.
Arguments removeEventListener : simpl never.

(** ** Three.js camera *)

Record Camera := mkCamera {
  fov : Q;
  aspect : jsnum;
  near : Q;
  far : Q;
  position_z : Q;
  proj_aspect : jsnum  (** the aspect baked into [projectionMatrix] *)
}.

(** [new THREE.PerspectiveCamera(75, window.innerWidth / window.innerHeight,
    0.1, 1000)] followed by [camera.position.z = 2]; the constructor
    computes the projection matrix from the given aspect. *)
Definition new_camera (win : Window) : Camera :=
  let a := js_div (innerWidth win) (innerHeight win) in
  mkCamera 75 a (1 # 10) 1000 2 a.

(** [camera.aspect = a] *)
Definition camera_set_aspect (a : jsnum) (c : Camera) : Camera :=
  mkCamera (fov c) a (near c) (far c) (position_z c) (proj_aspect c).

(** [camera.updateProjectionMatrix()] *)
Definition updateProjectionMatrix (c : Camera) : Camera :=
  mkCamera (fov c) (aspect c) (near c) (far c) (position_z c) (aspect c).

(** ** Three.js renderer and its canvas *)

Record Renderer := mkRenderer {
  canvas_size : Z * Z;
  canvas_listeners : gset Listener;  (** listeners of [renderer.domElement] *)
  attached : bool;                   (** the canvas is a child of the container *)
  disposed : bool
}.

(** [new THREE.WebGLRenderer(...)], [renderer.setSize(w, h)] and
    [container.appendChild(renderer.domElement)]. *)
Definition new_renderer (win : Window) : Renderer :=
  mkRenderer (innerWidth win, innerHeight win) ∅ true false.

Definition renderer_setSize (w h : Z) (r : Renderer) : Renderer :=
  mkRenderer (w, h) (canvas_listeners r) (attached r) (disposed r).

Definition canvas_update_listeners (f : gset Listener -> gset Listener) (r : Renderer) : Renderer :=
  mkRenderer (canvas_size r) (f (canvas_listeners r)) (attached r) (disposed r).

(** [if (container.contains(renderer.domElement))
      container.removeChild(renderer.domElement)] *)
Definition detach_canvas (r : Renderer) : Renderer :=
  if attached r then mkRenderer (canvas_size r) (canvas_listeners r) false (disposed r) else r.

(** [renderer.dispose()] *)
Definition renderer_dispose (r : Renderer) : Renderer :=
  mkRenderer (canvas_size r) (canvas_listeners r) (attached r) true.

(** ** Lemmas *)

Lemma removeEventListener_idem (l : Listener) (ls : gset Listener) :
  removeEventListener l (removeEventListener l ls) = removeEventListener l ls.
Proof. unfold removeEventListener. set_solver. Qed.

Lemma removeEventListener_not_elem (l : Listener) (ls : gset Listener) :
  l ∉ removeEventListener l ls.
Proof. unfold removeEventListener. set_solver. Qed.

Lemma detach_canvas_listeners (r : Renderer) :
  canvas_listeners (detach_canvas r) = canvas_listeners r.
Proof. unfold detach_canvas. by destruct (attached r). Qed.

Lemma renderer_teardown_idem (f : gset Listener -> gset Listener) (r : Renderer) :
  (forall ls, f (f ls) = f ls) ->
  renderer_dispose (detach_canvas (canvas_update_listeners f
    (renderer_dispose (detach_canvas (canvas_update_listeners f r))))) =
  renderer_dispose (detach_canvas (canvas_update_listeners f r)).
Proof.
  intros Hf. destruct r as [cs cl [] d];
    unfold renderer_dispose, detach_canvas, canvas_update_listeners; simpl; now rewrite Hf.
Qed.

Lemma renderer_dispose_detach_idem (r : Renderer) :
  renderer_dispose (detach_canvas (renderer_dispose (detach_canvas r))) =
  renderer_dispose (detach_canvas r).
Proof. destruct r as [cs cl [] d]; reflexivity. Qed.
