(* ===== verification/Viewport.v ===== *)
(** * The renderer's viewport: from device coordinates to pixels

    [renderer.setSize(w, h)] (FractalAnimation.tsx lines 21 and 78,
    QuantumVisualization.tsx lines 21 and 87) sets the renderer's size, the
    canvas's drawing buffer to [Math.floor(w * pixelRatio)] by
    [Math.floor(h * pixelRatio)] and the viewport to [(0, 0, w, h)] scaled
    by [pixelRatio]; the code never calls [setPixelRatio], so the ratio is
    the default 1.  WebGL maps normalised device coordinates to window
    coordinates by the viewport transform (OpenGL ES 2.0, section 2.12.1)
    and samples each pixel [(i, j)] (rows counted from the bottom) at its
    centre, window position [(i + 1/2, j + 1/2)].  Modelled from Three.js and the OpenGL ES
    specification; sizes are the integers [window.innerWidth] and
    [window.innerHeight]. *)

From S2P Require Import Prelude Glsl Host.

Open Scope Z_scope.

(** [WebGLRenderer]'s [_pixelRatio]: the default, never changed. *)
Definition pixelRatio : Z := 1.

Record Viewport := mkViewport { vp_x : Z; vp_y : Z; vp_w : Z; vp_h : Z }.

(** [canvas.width = Math.floor(width * _pixelRatio)], and the height. *)
Definition drawing_buffer (r : Renderer) : Z * Z :=
  (fst (canvas_size r) * pixelRatio, snd (canvas_size r) * pixelRatio).

(** [setViewport(0, 0, width, height)]: the viewport handed to
    [gl.viewport], multiplied by [_pixelRatio]. *)
Definition gl_viewport (r : Renderer) : Viewport :=
  mkViewport 0 0 (fst (canvas_size r) * pixelRatio) (snd (canvas_size r) * pixelRatio).

Open Scope R_scope.

(** The viewport transform: window coordinates of a point in normalised
    device coordinates. *)
Definition window_of_ndc (vp : Viewport) (p : vec2) : vec2 :=
  ⟨ IZR (vp_w vp) / 2 * vx p + (IZR (vp_x vp) + IZR (vp_w vp) / 2),
    IZR (vp_h vp) / 2 * vy p + (IZR (vp_y vp) + IZR (vp_h vp) / 2) ⟩.
