(* ===== verification/Projection.v ===== *)
(** * The vertex stage: camera matrices and the vertex shader

    Each entry point draws the plane with the vertex shader
    [vUv = uv; gl_Position = projectionMatrix * modelViewMatrix *
    vec4(position, 1.0);] (FractalAnimation.ts lines 26-31,
    FractalAnimation.tsx lines 26-32, QuantumVisualization.tsx lines 26-32).
    Three.js fills [projectionMatrix] from the camera
    ([PerspectiveCamera.updateProjectionMatrix], [Matrix4.makePerspective])
    and [modelViewMatrix] from the camera's world inverse times the mesh's
    world matrix; both are library code, modelled from Three.js: a
    [Matrix4] is its column-major [elements] array, the camera sits at
    [(0, 0, position.z)] without rotation, and the mesh at the origin.
    Coordinates are GLSL floats, modelled as reals; a camera whose aspect is
    [Infinity] or [NaN] has no finite projection ([None]).  The theorems
    give the clip position of a vertex of the plane, show that the plane
    lies between the near and far planes, and characterise when the
    [4 x 4] plane at distance 2 covers the whole viewport. *)

From S2P Require Import Prelude Glsl Host.
Import ListNotations.

Open Scope R_scope.
Open Scope glsl_scope.

(** ** [Matrix4] *)

(** [Matrix4.elements]: sixteen numbers, column after column. *)
Definition mat4 := list R.

(** Row [i], column [j]: [elements[4 * j + i]]. *)
Definition entry (m : mat4) (i j : nat) : R := nth (4 * j + i) m 0.

(** Component [j] of a [vec4] ([.x], [.y], [.z], [.w]). *)
Definition vcomp (v : vec4) (j : nat) : R :=
  match j with
  | O => vr (rgb v)
  | 1%nat => vg (rgb v)
  | 2%nat => vb (rgb v)
  | _ => alpha v
  end.

Definition row_dot (m : mat4) (i : nat) (v : vec4) : R :=
  entry m i 0 * vcomp v 0 + entry m i 1 * vcomp v 1 + entry m i 2 * vcomp v 2 +
  entry m i 3 * vcomp v 3.

(** GLSL [mat4 * vec4]. *)
Definition mat4_apply (m : mat4) (v : vec4) : vec4 :=
  mkvec4 ⟨ row_dot m 0 v, row_dot m 1 v, row_dot m 2 v ⟩ (row_dot m 3 v).

(** GLSL [mat4 * mat4], as [Matrix4.multiplyMatrices(a, b)]. *)
Definition mat4_mul (a b : mat4) : mat4 :=
  flat_map (fun j => map (fun i =>
    entry a i 0 * entry b 0 j + entry a i 1 * entry b 1 j +
    entry a i 2 * entry b 2 j + entry a i 3 * entry b 3 j) (seq 0 4)) (seq 0 4).

(** [new Matrix4()]: the identity. *)
Definition identity : mat4 :=
  [1; 0; 0; 0;  0; 1; 0; 0;  0; 0; 1; 0;  0; 0; 0; 1].

(** [Matrix4.makeTranslation(x, y, z)]. *)
Definition makeTranslation (x y z : R) : mat4 :=
  [1; 0; 0; 0;  0; 1; 0; 0;  0; 0; 1; 0;  x; y; z; 1].

(** [Matrix4.makePerspective(left, right, top, bottom, near, far)] for the
    WebGL coordinate system. *)
Definition makePerspective (left right top bottom near far : R) : mat4 :=
  let x := 2 * near / (right - left) in
  let y := 2 * near / (top - bottom) in
  let a := (right + left) / (right - left) in
  let b := (top + bottom) / (top - bottom) in
  let c := - (far + near) / (far - near) in
  let d := - 2 * far * near / (far - near) in
  [x; 0; 0; 0;  0; y; 0; 0;  a; b; c; -1;  0; 0; d; 0].

(** ** The camera's matrices *)

Definition DEG2RAD : R := PI / 180.

(** [PerspectiveCamera.updateProjectionMatrix()] with [zoom = 1], no view
    offset and no film offset, for the aspect stored by the last update.
    An aspect of [0] (a zero-width window) divides by zero in
    [makePerspective] and, like [Infinity] and [NaN], gives a matrix with
    non-finite entries: [None]. *)
Definition projectionMatrix (cam : Camera) : option mat4 :=
  match proj_aspect cam with
  | JNum a =>
      if Qeq_bool a 0 then None else
      let near := Q2R (near cam) in
      let top := near * tan (DEG2RAD * (1 / 2) * Q2R (fov cam)) / 1 in
      let height := 2 * top in
      let width := Q2R a * height in
      let left := - (1 / 2) * width in
      Some (makePerspective left (left + width) top (top - height) near (Q2R (far cam)))
  | _ => None
  end.

(** [camera.matrixWorldInverse]: the camera is translated to
    [(0, 0, position.z)] and not rotated; its inverse translates back. *)
Definition matrixWorldInverse (cam : Camera) : mat4 := makeTranslation 0 0 (- Q2R (position_z cam)).

(** [mesh.modelViewMatrix = camera.matrixWorldInverse * mesh.matrixWorld],
    the mesh at the origin. *)
Definition modelViewMatrix (cam : Camera) : mat4 := mat4_mul (matrixWorldInverse cam) identity.

(** ** The vertex shader *)

Record VertexOut := mkVertexOut { vUv : vec2; gl_Position : vec4 }.

(** [main] of the vertex shader of all three entry points. *)
Definition vertex_main (projectionMatrix modelViewMatrix : mat4) (position : vec3) (uv : vec2) : VertexOut :=
  mkVertexOut uv (mat4_apply (mat4_mul projectionMatrix modelViewMatrix) (mkvec4 position 1)).

(** The perspective division of the rasteriser: normalised device
    coordinates [(x/w, y/w, z/w)]. *)
Definition ndc (p : vec4) : vec3 :=
  ⟨ vr (rgb p) / alpha p, vg (rgb p) / alpha p, vb (rgb p) / alpha p ⟩.

(** ** Covering the viewport *)

(** The plane [PlaneGeometry(4, 4, ...)] spans [[-2, 2] x [-2, 2]] at
    [z = 0], with uv [((x + 2) / 4, (y + 2) / 4)].  It covers the viewport
    when every point [(u, v)] of the normalised device square
    [[-1, 1] x [-1, 1]] is the image of a point of the plane. *)
Definition covers_viewport (cam : Camera) : Prop :=
  exists P, projectionMatrix cam = Some P /\
  forall u v, -1 <= u <= 1 -> -1 <= v <= 1 ->
  exists x y, -2 <= x <= 2 /\ -2 <= y <= 2 /\
    let p := ndc (gl_Position (vertex_main P (modelViewMatrix cam) ⟨ x, y, 0 ⟩
                                           ⟨ (x + 2) / 4, (y + 2) / 4 ⟩)) in
    vr p = u /\ vg p = v.

(** ** Matrix lemmas *)

Lemma entry_mul (a b : mat4) (i j : nat) :
  (i < 4)%nat -> (j < 4)%nat ->
  entry (mat4_mul a b) i j =
  entry a i 0 * entry b 0 j + entry a i 1 * entry b 1 j + entry a i 2 * entry b 2 j +
  entry a i 3 * entry b 3 j.
Proof.
  intros Hi Hj.
  do 4 (destruct i as [|i]; [do 4 (destruct j as [|j]; [reflexivity|]); lia|]). lia.
Qed.

(** GLSL's left-nested [projectionMatrix * modelViewMatrix * v] is
    [projectionMatrix * (modelViewMatrix * v)]. *)
Lemma mat4_apply_mul (a b : mat4) (v : vec4) :
  mat4_apply (mat4_mul a b) v = mat4_apply a (mat4_apply b v).
Proof.
  unfold mat4_apply at 1 2, row_dot. rewrite !entry_mul by lia.
  unfold mat4_apply, row_dot; cbn [vcomp rgb alpha vr vg vb]. f_equal; [f_equal|]; ring.
Qed.

(** Applying a matrix given by its sixteen elements to a point [(x, y, z, 1)]. *)
Lemma mat4_apply_elements (m00 m10 m20 m30 m01 m11 m21 m31 m02 m12 m22 m32 m03 m13 m23 m33 x y z : R) :
  mat4_apply [m00; m10; m20; m30; m01; m11; m21; m31; m02; m12; m22; m32; m03; m13; m23; m33]
             (mkvec4 ⟨ x, y, z ⟩ 1) =
  mkvec4 ⟨ m00 * x + m01 * y + m02 * z + m03, m10 * x + m11 * y + m12 * z + m13,
           m20 * x + m21 * y + m22 * z + m23 ⟩ (m30 * x + m31 * y + m32 * z + m33).
Proof. unfold mat4_apply, row_dot, entry; simpl. f_equal; [f_equal|]; ring. Qed.

(** The model-view matrix moves a point by [-position.z] along [z]. *)
Lemma modelView_apply (cam : Camera) (x y z : R) :
  mat4_apply (modelViewMatrix cam) (mkvec4 ⟨ x, y, z ⟩ 1) =
  mkvec4 ⟨ x, y, z - Q2R (position_z cam) ⟩ 1.
Proof.
  unfold modelViewMatrix. rewrite mat4_apply_mul. unfold identity.
  rewrite mat4_apply_elements. unfold matrixWorldInverse, makeTranslation.
  replace (1 * x + 0 * y + 0 * z + 0) with x by ring.
  replace (0 * x + 1 * y + 0 * z + 0) with y by ring.
  replace (0 * x + 0 * y + 1 * z + 0) with z by ring.
  replace (0 * x + 0 * y + 0 * z + 1) with 1 by ring.
  rewrite mat4_apply_elements. f_equal; [f_equal|]; ring.
Qed.

(** The camera constants of every entry point: [fov = 75],
    [near = 0.1], [far = 1000], [position.z = 2]. *)
Definition repo_camera (cam : Camera) : Prop :=
  fov cam = 75%Q /\ near cam = (1 # 10)%Q /\ far cam = 1000%Q /\ position_z cam = 2%Q.

Lemma new_camera_repo (win : Window) : repo_camera (new_camera win).
Proof. repeat split. Qed.

Lemma camera_set_aspect_repo (a : jsnum) (cam : Camera) :
  repo_camera cam -> repo_camera (camera_set_aspect a cam).
Proof. intros H; exact H. Qed.

Lemma updateProjectionMatrix_repo (cam : Camera) :
  repo_camera cam -> repo_camera (updateProjectionMatrix cam).
Proof. intros H; exact H. Qed.

#[export] Hint Resolve new_camera_repo camera_set_aspect_repo updateProjectionMatrix_repo : fm.

(** Half the vertical field of view: [75 / 2] degrees is [5 PI / 24]. *)
Definition half_fov : R := 5 * PI / 24.

Lemma half_fov_eq : DEG2RAD * (1 / 2) * Q2R 75 = half_fov.
Proof. unfold DEG2RAD, half_fov, Q2R; simpl. field. Qed.

Lemma tan_half_fov_bounds : 1 / sqrt 3 < tan half_fov < 1.
Proof.
  pose proof PI_RGT_0. rewrite <- tan_PI6, <- tan_PI4. unfold half_fov.
  split; apply tan_increasing; lra.
Qed.

Lemma tan_half_fov_pos : 0 < tan half_fov.
Proof. pose proof PI_RGT_0. apply tan_gt_0; unfold half_fov; lra. Qed.

(** [z_clip] of a point at distance [dist] in front of a camera with
    planes [near] and [far] ([w_clip = dist]). *)
Definition clip_depth (near far dist : R) : R := (dist * (far + near) - 2 * far * near) / (far - near).

Lemma Q2R_nonzero (a : Q) : ~ (a == 0)%Q -> Q2R a <> 0.
Proof. intros Ha E. apply Ha, eqR_Qeq. rewrite E. unfold Q2R; simpl. ring. Qed.

Ltac q2r_consts := unfold Q2R; simpl; field_simplify; try lra.

(** For a camera of the repository with a finite non-zero aspect [a], the
    vertex shader sends the plane's point [(x, y, 0)] to the clip position
    [(x / (a t), y / t, z_c, 2)], [t = tan(37.5 degrees)], whatever its uv. *)
Lemma vertex_clip (cam : Camera) (a : Q) :
  repo_camera cam -> proj_aspect cam = JNum a -> ~ (a == 0)%Q ->
  exists P, projectionMatrix cam = Some P /\
  forall (x y : R) (uv : vec2),
    gl_Position (vertex_main P (modelViewMatrix cam) ⟨ x, y, 0 ⟩ uv) =
    mkvec4 ⟨ x / (Q2R a * tan half_fov), y / tan half_fov, clip_depth (1 / 10) 1000 2 ⟩ 2.
Proof.
  intros (Hf & Hn & Hfar & Hz) Ha Ha0. pose proof (Q2R_nonzero a Ha0) as HA.
  pose proof tan_half_fov_pos as Ht.
  unfold projectionMatrix. rewrite Ha.
  destruct (Qeq_bool a 0) eqn:E; [apply Qeq_bool_iff in E; contradiction|].
  eexists; split; [reflexivity|]. intros x y uv. unfold vertex_main; cbn [gl_Position].
  rewrite mat4_apply_mul, modelView_apply. unfold makePerspective. rewrite mat4_apply_elements.
  rewrite Hf, Hn, Hfar, Hz, half_fov_eq. unfold clip_depth.
  replace (Q2R (1 # 10)) with (1 / 10) by (unfold Q2R; simpl; field).
  replace (Q2R 1000) with 1000 by (unfold Q2R; simpl; field).
  replace (Q2R 2) with 2 by (unfold Q2R; simpl; field).
  assert (HAt : 2 * Q2R a * tan half_fov <> 0)
    by (apply Rmult_integral_contrapositive_currified; [apply Rmult_integral_contrapositive_currified|]; lra).
  f_equal; [f_equal|]; field; repeat split; try lra; auto.
Qed.

Section Coverage.
Variables (cam : Camera) (a : Q).
Hypothesis Hcam : repo_camera cam.
Hypothesis Ha : proj_aspect cam = JNum a.
Hypothesis Hpos : (0 < a)%Q.

Lemma aspect_pos : 0 < Q2R a.
Proof. replace 0 with (Q2R 0) by (unfold Q2R; simpl; ring). now apply Qlt_Rlt. Qed.

Lemma aspect_nonzero : ~ (a == 0)%Q.
Proof. intros E. rewrite E in Hpos. discriminate. Qed.

(** If [a t <= 1], the preimage of [(u, v)] is [(2 a t u, 2 t v)]. *)
Lemma coverage_of_bound : Q2R a * tan half_fov <= 1 -> covers_viewport cam.
Proof.
  intros Hb. pose proof aspect_pos. pose proof tan_half_fov_pos. pose proof tan_half_fov_bounds.
  destruct (vertex_clip cam a Hcam Ha aspect_nonzero) as (P & HP & Hclip).
  exists P; split; [exact HP|]. intros u v Hu Hv.
  assert (Hk : 0 < Q2R a * tan half_fov) by nra.
  set (k := Q2R a * tan half_fov) in *. set (t := tan half_fov) in *.
  exists (2 * k * u), (2 * t * v). cbv zeta. rewrite !Hclip. unfold ndc; cbn.
  repeat split; try nra; field; lra.
Qed.

(** The point [u = 1] needs [x = 2 a t], which lies on the plane only if
    [a t <= 1]. *)
Lemma bound_of_coverage : covers_viewport cam -> Q2R a * tan half_fov <= 1.
Proof.
  intros (P & HP & Hcov). pose proof aspect_pos. pose proof tan_half_fov_pos.
  destruct (vertex_clip cam a Hcam Ha aspect_nonzero) as (P' & HP' & Hclip).
  rewrite HP in HP'. injection HP' as <-.
  destruct (Hcov 1 0) as (x & y & Hx & Hy & Hu & _); try lra.
  rewrite Hclip in Hu. unfold ndc in Hu; cbn in Hu.
  assert (Hx' : x = x / (Q2R a * tan half_fov) / 2 * (2 * (Q2R a * tan half_fov)))
    by (field; split; lra).
  rewrite Hu in Hx'. lra.
Qed.

End Coverage.

(** The aspect [innerWidth / innerHeight] of a window of positive size. *)
Lemma js_div_window (W H : Z) :
  (0 < W)%Z -> (0 < H)%Z ->
  js_div W H = JNum (inject_Z W / inject_Z H) /\ (0 < inject_Z W / inject_Z H)%Q /\
  Q2R (inject_Z W / inject_Z H) = IZR W / IZR H.
Proof.
  intros HW HH. assert (HH' : (0 < inject_Z H)%Q) by (change 0%Q with (inject_Z 0); now rewrite <- Zlt_Qlt).
  assert (HW' : (0 < inject_Z W)%Q) by (change 0%Q with (inject_Z 0); now rewrite <- Zlt_Qlt).
  split; [|split].
  - unfold js_div. destruct (Z.eqb_spec H 0); [lia | reflexivity].
  - apply Qlt_shift_div_l; [exact HH'|]. now rewrite Qmult_0_l.
  - rewrite Q2R_div by (intros E; rewrite E in HH'; discriminate).
    unfold Q2R; simpl. field. apply not_0_IZR; lia.
Qed.

(** For a camera of the repository whose projection uses a
    positive aspect [a], the [4 x 4] plane covers the whole viewport
    exactly when [a * tan(37.5 degrees) <= 1], i.e. [a <= 1.303...]. *)
Lemma viewport_coverage_iff (cam : Camera) (a : Q) :
  repo_camera cam -> proj_aspect cam = JNum a -> (0 < a)%Q ->
  (covers_viewport cam <-> Q2R a * tan half_fov <= 1).
Proof.
  intros Hc Ha Hp. split; [apply bound_of_coverage | apply coverage_of_bound]; assumption.
Qed.

(** C33: with a finite non-zero aspect every point of the plane is in
    front of the camera ([w_clip = 2 > 0]) and strictly between the near and
    far planes ([-1 < z_ndc < 1]): the plane is never clipped in depth. *)
Theorem plane_in_depth_range (cam : Camera) (a : Q) :
  repo_camera cam -> proj_aspect cam = JNum a -> ~ (a == 0)%Q ->
  exists P, projectionMatrix cam = Some P /\
  forall (x y : R) (uv : vec2),
    let p := gl_Position (vertex_main P (modelViewMatrix cam) ⟨ x, y, 0 ⟩ uv) in
    0 < alpha p /\ -1 < vb (ndc p) < 1.
Proof.
  intros Hc Ha Ha0. destruct (vertex_clip cam a Hc Ha Ha0) as (P & HP & Hclip).
  exists P; split; [exact HP|]. intros x y uv. cbv zeta. rewrite Hclip. unfold ndc, clip_depth; cbn.
  split; [lra|]. split; apply Rmult_lt_reg_r with 2; try lra; field_simplify; lra.
Qed.

(** A camera whose projection uses the aspect of a window at least
    [sqrt 3] times as wide as high ([3 H^2 <= W^2]) does not let the plane
    cover the viewport. *)
Lemma wide_aspect_uncovered (cam : Camera) (W H : Z) :
  repo_camera cam -> proj_aspect cam = js_div W H ->
  (0 < W)%Z -> (0 < H)%Z -> (3 * H * H <= W * W)%Z -> ~ covers_viewport cam.
Proof.
  intros Hc Ha HW HH Hwide Hcov. destruct (js_div_window W H HW HH) as (Hd & Hp & Hr).
  rewrite Hd in Ha. pose proof tan_half_fov_bounds as [Ht _].
  apply (bound_of_coverage cam _ Hc Ha Hp) in Hcov.
  rewrite Hr in Hcov. assert (HH0 : 0 < IZR H) by (apply IZR_lt; lia).
  assert (HA : sqrt 3 <= IZR W / IZR H).
  { rewrite <- (sqrt_square (IZR W / IZR H)) by (apply Rlt_le, Rdiv_lt_0_compat; apply IZR_lt; lia).
    apply sqrt_le_1_alt. apply IZR_le in Hwide. rewrite !mult_IZR in Hwide.
    replace (IZR W / IZR H * (IZR W / IZR H)) with ((IZR W * IZR W) / (IZR H * IZR H)) by (field; lra).
    apply Rmult_le_reg_r with (IZR H * IZR H); [nra|]. field_simplify; nra. }
  assert (Hs : 0 < sqrt 3) by (apply sqrt_lt_R0; lra).
  assert (1 < IZR W / IZR H * tan half_fov); [|lra].
  apply Rle_lt_trans with (IZR W / IZR H * (1 / sqrt 3)).
  - apply Rmult_le_reg_r with (sqrt 3); [exact Hs|].
    replace (IZR W / IZR H * (1 / sqrt 3) * sqrt 3) with (IZR W / IZR H)
      by (field; split; apply Rgt_not_eq; assumption). lra.
  - apply Rmult_lt_compat_l; [|exact Ht]. lra.
Qed.

(** A camera whose projection uses the aspect of a window at most as wide
    as high lets the plane cover the viewport. *)
Lemma narrow_aspect_covered (cam : Camera) (W H : Z) :
  repo_camera cam -> proj_aspect cam = js_div W H ->
  (0 < W)%Z -> (W <= H)%Z -> covers_viewport cam.
Proof.
  intros Hc Ha HW HWH. destruct (js_div_window W H HW) as (Hd & Hp & Hr); [lia|].
  rewrite Hd in Ha. pose proof tan_half_fov_bounds as [_ Ht]. pose proof tan_half_fov_pos.
  apply (coverage_of_bound cam _ Hc Ha Hp). rewrite Hr.
  assert (0 < IZR H) by (apply IZR_lt; lia).
  assert (IZR W / IZR H <= 1).
  { apply Rmult_le_reg_r with (IZR H); [lra|]. field_simplify; [apply IZR_le; lia | lra]. }
  assert (0 < IZR W / IZR H) by (apply Rdiv_lt_0_compat; [apply IZR_lt; lia | lra]).
  nra.
Qed.

(** ** Witnesses *)

Lemma plane_in_depth_range_witness :
  exists P, projectionMatrix (new_camera (mkWindow 1920 1080)) = Some P /\
  forall (x y : R) (uv : vec2),
    let p := gl_Position (vertex_main P (modelViewMatrix (new_camera (mkWindow 1920 1080))) ⟨ x, y, 0 ⟩ uv) in
    0 < alpha p /\ -1 < vb (ndc p) < 1.
Proof.
  apply (plane_in_depth_range (new_camera (mkWindow 1920 1080)) (inject_Z 1920 / inject_Z 1080));
    [apply new_camera_repo | reflexivity | vm_compute; discriminate].
Defined.
