(* ===== verification/Raster.v ===== *)
(** * The rasteriser: from vertices to fragments

    WebGL runs the vertex shader on the vertices a triangle names, divides
    by [w] to place them on the screen, and gives each fragment of the
    triangle the varyings interpolated perspective-correctly (OpenGL ES
    2.0, section 3.5.1) with the fragment's window-space barycentric
    weights.  This file models that step for the repository's plane: the
    attributes are read from [Plane]'s buffers (rationals, embedded in the
    reals of GLSL), the vertex shader is [Projection.vertex_main], and
    [rasterize] gives a fragment's position in normalised device
    coordinates and its [vUv].  Which pixels a triangle covers is not
    modelled: a fragment is given by its weights.  [fragment_uv] says
    which [vUv] the fragment shader receives at each point of the device
    square; [Surface] restates it in window pixels for the engine. *)

From S2P Require Import Prelude Glsl Plane Host Projection.

Open Scope R_scope.
Open Scope glsl_scope.

(** Perspective-correct interpolation of a varying with values [f0], [f1],
    [f2] at corners of clip [w] [w0], [w1], [w2], at window-space
    barycentric weights [l0], [l1], [l2]. *)
Definition interpolate (l0 l1 l2 w0 w1 w2 f0 f1 f2 : R) : R :=
  (l0 * f0 / w0 + l1 * f1 / w1 + l2 * f2 / w2) / (l0 / w0 + l1 / w1 + l2 / w2).

(** An attribute value of the buffers as the GLSL float the shader reads. *)
Definition vec3_of (p : Q * Q * Q) : vec3 := let '(x, y, z) := p in ⟨ Q2R x, Q2R y, Q2R z ⟩.
Definition vec2_of (p : Q * Q) : vec2 := let '(u, v) := p in ⟨ Q2R u, Q2R v ⟩.

(** The vertex shader run on vertex [k]: [position] and [uv] fetched at [k]. *)
Definition shade_vertex (P MV : mat4) (g : BufferGeometry) (k : nat) : VertexOut :=
  vertex_main P MV (vec3_of (attr3 (position g) k)) (vec2_of (attr2 (uv g) k)).

Record Fragment := mkFragment { frag_ndc : vec2; frag_vUv : vec2 }.

(** The fragment of triangle [(a, b, c)] at weights [(l0, l1, l2)]. *)
Definition rasterize (P MV : mat4) (g : BufferGeometry) (t : nat * nat * nat) (l0 l1 l2 : R) : Fragment :=
  let '(a, b, c) := t in
  let v0 := shade_vertex P MV g a in
  let v1 := shade_vertex P MV g b in
  let v2 := shade_vertex P MV g c in
  let p0 := ndc (gl_Position v0) in
  let p1 := ndc (gl_Position v1) in
  let p2 := ndc (gl_Position v2) in
  let w0 := alpha (gl_Position v0) in
  let w1 := alpha (gl_Position v1) in
  let w2 := alpha (gl_Position v2) in
  mkFragment
    ⟨ l0 * vr p0 + l1 * vr p1 + l2 * vr p2, l0 * vg p0 + l1 * vg p1 + l2 * vg p2 ⟩
    ⟨ interpolate l0 l1 l2 w0 w1 w2 (vx (vUv v0)) (vx (vUv v1)) (vx (vUv v2)),
      interpolate l0 l1 l2 w0 w1 w2 (vy (vUv v0)) (vy (vUv v1)) (vy (vUv v2)) ⟩.

(** ** Lemmas *)

(** Corners at the same depth: perspective-correct interpolation is the
    affine one. *)
Lemma interpolate_same_w (l0 l1 l2 w f0 f1 f2 : R) :
  w <> 0 -> l0 + l1 + l2 = 1 ->
  interpolate l0 l1 l2 w w w f0 f1 f2 = l0 * f0 + l1 * f1 + l2 * f2.
Proof.
  intros Hw Hl. unfold interpolate.
  replace (l0 / w + l1 / w + l2 / w) with (1 / w) by (rewrite <- Hl; field; exact Hw).
  field. exact Hw.
Qed.

(** The vertex shader on vertex [k] of the repository's plane, with the
    camera of the repository: the clip position of [Projection.vertex_clip]
    and a [vUv] affine in the vertex's position. *)
Lemma shade_plane_vertex (cam : Camera) (a : Q) (P : mat4) (k : nat) :
  repo_camera cam -> proj_aspect cam = JNum a -> (0 < a)%Q -> projectionMatrix cam = Some P ->
  (k < 101 * 101)%nat ->
  exists x y, -2 <= x <= 2 /\ -2 <= y <= 2 /\
    gl_Position (shade_vertex P (modelViewMatrix cam) plane k) =
      mkvec4 ⟨ x / (Q2R a * tan half_fov), y / tan half_fov, clip_depth (1 / 10) 1000 2 ⟩ 2 /\
    vUv (shade_vertex P (modelViewMatrix cam) plane k) = ⟨ x / 4 + 1 / 2, y / 4 + 1 / 2 ⟩.
Proof.
  intros Hc Ha Hpos HP Hk.
  destruct (vertex_clip cam a Hc Ha (aspect_nonzero a Hpos)) as (P' & HP' & Hclip).
  rewrite HP in HP'. injection HP' as <-.
  destruct (plane_vertex_affine k Hk) as (x & y & Hxyz & Hu & Hv & Hx & Hy).
  unfold shade_vertex. rewrite Hxyz.
  destruct (attr2 (uv plane) k) as [u v]. cbn [fst snd] in Hu. cbn [fst snd] in Hv.
  cbn [vec3_of vec2_of].
  replace (Q2R 0) with 0 by (unfold Q2R; simpl; ring).
  exists (Q2R x), (Q2R y).
  assert (E2 : Q2R (-2) = -2) by (unfold Q2R; simpl; field).
  destruct Hx as [Hx0 Hx1]. destruct Hy as [Hy0 Hy1].
  apply Qle_Rle in Hx0. apply Qle_Rle in Hx1. apply Qle_Rle in Hy0. apply Qle_Rle in Hy1.
  rewrite E2 in Hx0, Hy0.
  replace (Q2R 2) with 2 in Hx1, Hy1 by (unfold Q2R; simpl; field).
  split; [lra|]. split; [lra|]. split; [apply Hclip|].
  unfold vertex_main; cbn [vUv]. rewrite (Qeq_eqR _ _ Hu), (Qeq_eqR _ _ Hv). qr_push.
  replace (Q2R (1 # 4)) with (1 / 4) by (unfold Q2R; simpl; field).
  replace (Q2R (1 # 2)) with (1 / 2) by (unfold Q2R; simpl; field).
  f_equal; field.
Qed.

(** ** What the fragment shader receives *)

(** With a camera of the repository projecting with a positive aspect
    [a], every fragment of every triangle of the plane at normalised device
    position [(X, Y)] receives [vUv = (1/2 + a t X / 2, 1/2 + t Y / 2)],
    [t = tan(37.5 degrees)], and this [vUv] lies in [[0, 1] x [0, 1]]: the
    kernels see an affine image of the screen, centred on [(0.5, 0.5)]. *)
Lemma fragment_uv (cam : Camera) (a : Q) (tri : nat * nat * nat) (l0 l1 l2 : R) :
  repo_camera cam -> proj_aspect cam = JNum a -> (0 < a)%Q ->
  In tri (triangles (b_indices (plane_arrays 4 4 100 100))) ->
  0 <= l0 -> 0 <= l1 -> 0 <= l2 -> l0 + l1 + l2 = 1 ->
  exists P, projectionMatrix cam = Some P /\
  let f := rasterize P (modelViewMatrix cam) plane tri l0 l1 l2 in
  frag_vUv f = ⟨ 1 / 2 + Q2R a * tan half_fov * vx (frag_ndc f) / 2,
                 1 / 2 + tan half_fov * vy (frag_ndc f) / 2 ⟩ /\
  0 <= vx (frag_vUv f) <= 1 /\ 0 <= vy (frag_vUv f) <= 1.
Proof.
  intros Hc Ha Hpos Htri H0 H1 H2 Hl.
  destruct (vertex_clip cam a Hc Ha (aspect_nonzero a Hpos)) as (P & HP & _).
  exists P; split; [exact HP|]. destruct tri as [[i0 i1] i2].
  destruct (triangles_in _ _ _ _ Htri) as (Hi0 & Hi1 & Hi2).
  pose proof (plane_arrays_index_bound 4 4 100 100) as Hb. rewrite Forall_forall in Hb.
  destruct (shade_plane_vertex cam a P i0 Hc Ha Hpos HP (Hb _ Hi0)) as (x0 & y0 & Hx0 & Hy0 & Hp0 & Hu0).
  destruct (shade_plane_vertex cam a P i1 Hc Ha Hpos HP (Hb _ Hi1)) as (x1 & y1 & Hx1 & Hy1 & Hp1 & Hu1).
  destruct (shade_plane_vertex cam a P i2 Hc Ha Hpos HP (Hb _ Hi2)) as (x2 & y2 & Hx2 & Hy2 & Hp2 & Hu2).
  pose proof (aspect_pos a Hpos). pose proof tan_half_fov_pos.
  cbv zeta. unfold rasterize. rewrite Hp0, Hp1, Hp2, Hu0, Hu1, Hu2. unfold ndc; cbn.
  rewrite !interpolate_same_w by (lra || exact Hl).
  replace l2 with (1 - l0 - l1) in * by lra.
  split; [f_equal; field; lra|]. split; split; nra.
Qed.
