(* ===== verification/Engine.v ===== *)
(** * The engine: uniforms, handlers, mount, cleanup and host events

    One [Engine] record holds the state of one mounted entry point: the host
    side (window size, a queued ["resize"] event, the window's listeners,
    the pending animation frame, the last [performance.now()]), the Three.js
    objects (camera, renderer and canvas, clock), the material's [uniforms],
    the disposal flags of geometry and material, and the list of
    [renderer.render] calls issued so far with the state they drew (newest
    first).  Handlers are functions [Engine -> Engine] whose statements
    follow the source in order ([|>]).  [step] is the effect of one host
    event; [reachable] closes the three mount functions under [step] for
    host events that respect the host's guarantees ([event_ok]). *)

From S2P Require Import Prelude Clock Host.
From stdpp Require Import base gmap sets.
From Stdlib Require Import String.

Open Scope Q_scope.
Open Scope engine_scope.

(** ** Uniforms and draws *)

(** The material's uniforms: [time], [resolution] and, only in
    QuantumVisualization, [collapse]. *)
Record Uniforms := mkUniforms {
  u_time : Q;
  u_resolution : Z * Z;
  u_collapse : option Q
}.

(** [material.uniforms.resolution.value.set(w, h)] *)
Definition resolution_set (w h : Z) (u : Uniforms) : Uniforms :=
  mkUniforms (u_time u) (w, h) (u_collapse u).

(** [uniforms.time.value = t] *)
Definition time_set (t : Q) (u : Uniforms) : Uniforms :=
  mkUniforms t (u_resolution u) (u_collapse u).

(** [uniforms.collapse.value = uniforms.collapse.value === 0.0 ? 1.0 : 0.0] *)
Definition collapse_flip (c : Q) : Q := if Qeq_bool c 0 then 1 else 0.

Definition collapse_toggle (u : Uniforms) : Uniforms :=
  mkUniforms (u_time u) (u_resolution u) (option_map collapse_flip (u_collapse u)).

(** One [renderer.render(scene, camera)]: what the draw used. *)
Record Draw := mkDraw {
  d_uniforms : Uniforms;
  d_proj_aspect : jsnum;
  d_size : Z * Z;
  d_disposed : bool   (** the renderer had been disposed *)
}.

(** ** Engine state *)

Record Engine := mkEngine {
  window : Window;
  resize_queued : bool;
  window_listeners : gset Listener;
  raf_pending : bool;
  host_now : Q;
  camera : Camera;
  renderer : Renderer;
  uniforms : Uniforms;
  clock : Clock;
  geometry_disposed : bool;
  material_disposed : bool;
  draws : list Draw
}.

Definition set_window (w : Window) (e : Engine) : Engine :=
  mkEngine w (resize_queued e) (window_listeners e) (raf_pending e) (host_now e) (camera e)
    (renderer e) (uniforms e) (clock e) (geometry_disposed e) (material_disposed e) (draws e).
Definition set_resize_queued (b : bool) (e : Engine) : Engine :=
  mkEngine (window e) b (window_listeners e) (raf_pending e) (host_now e) (camera e)
    (renderer e) (uniforms e) (clock e) (geometry_disposed e) (material_disposed e) (draws e).
Definition update_window_listeners (f : gset Listener -> gset Listener) (e : Engine) : Engine :=
  mkEngine (window e) (resize_queued e) (f (window_listeners e)) (raf_pending e) (host_now e)
    (camera e) (renderer e) (uniforms e) (clock e) (geometry_disposed e) (material_disposed e)
    (draws e).
Definition set_raf_pending (b : bool) (e : Engine) : Engine :=
  mkEngine (window e) (resize_queued e) (window_listeners e) b (host_now e) (camera e)
    (renderer e) (uniforms e) (clock e) (geometry_disposed e) (material_disposed e) (draws e).
Definition set_host_now (t : Q) (e : Engine) : Engine :=
  mkEngine (window e) (resize_queued e) (window_listeners e) (raf_pending e) t (camera e)
    (renderer e) (uniforms e) (clock e) (geometry_disposed e) (material_disposed e) (draws e).
Definition update_camera (f : Camera -> Camera) (e : Engine) : Engine :=
  mkEngine (window e) (resize_queued e) (window_listeners e) (raf_pending e) (host_now e)
    (f (camera e)) (renderer e) (uniforms e) (clock e) (geometry_disposed e)
    (material_disposed e) (draws e).
Definition update_renderer (f : Renderer -> Renderer) (e : Engine) : Engine :=
  mkEngine (window e) (resize_queued e) (window_listeners e) (raf_pending e) (host_now e)
    (camera e) (f (renderer e)) (uniforms e) (clock e) (geometry_disposed e)
    (material_disposed e) (draws e).
Definition update_uniforms (f : Uniforms -> Uniforms) (e : Engine) : Engine :=
  mkEngine (window e) (resize_queued e) (window_listeners e) (raf_pending e) (host_now e)
    (camera e) (renderer e) (f (uniforms e)) (clock e) (geometry_disposed e)
    (material_disposed e) (draws e).
Definition set_clock (c : Clock) (e : Engine) : Engine :=
  mkEngine (window e) (resize_queued e) (window_listeners e) (raf_pending e) (host_now e)
    (camera e) (renderer e) (uniforms e) c (geometry_disposed e) (material_disposed e) (draws e).
Definition dispose_geometry (e : Engine) : Engine :=
  mkEngine (window e) (resize_queued e) (window_listeners e) (raf_pending e) (host_now e)
    (camera e) (renderer e) (uniforms e) (clock e) true (material_disposed e) (draws e).
Definition dispose_material (e : Engine) : Engine :=
  mkEngine (window e) (resize_queued e) (window_listeners e) (raf_pending e) (host_now e)
    (camera e) (renderer e) (uniforms e) (clock e) (geometry_disposed e) true (draws e).
Definition push_draw (d : Draw) (e : Engine) : Engine :=
  mkEngine (window e) (resize_queued e) (window_listeners e) (raf_pending e) (host_now e)
    (camera e) (renderer e) (uniforms e) (clock e) (geometry_disposed e) (material_disposed e)
    (d :: draws e).

(** ** Handlers *)

(** [requestAnimationFrame(animate)] *)
Definition requestAnimationFrame (e : Engine) : Engine := set_raf_pending true e.

(** [uniforms.time.value = clock.getElapsedTime()]: the clock reads
    [performance.now()], the host time of the current frame. *)
Definition update_time (e : Engine) : Engine :=
  let (t, c) := getElapsedTime (host_now e) (clock e) in
  update_uniforms (time_set t) (set_clock c e).

(** [renderer.render(scene, camera)] *)
Definition render (e : Engine) : Engine :=
  push_draw (mkDraw (uniforms e) (proj_aspect (camera e)) (canvas_size (renderer e))
                    (disposed (renderer e))) e.

(** [const animate = () => { requestAnimationFrame(animate);
      uniforms.time.value = clock.getElapsedTime(); renderer.render(...); }] *)
Definition animate (e : Engine) : Engine :=
  e |> requestAnimationFrame |> update_time |> render.

(** [handleResize]: reads the window size and updates camera, renderer and
    the [resolution] uniform. *)
Definition handleResize (e : Engine) : Engine :=
  let w := innerWidth (window e) in
  let h := innerHeight (window e) in
  e |> update_camera (camera_set_aspect (js_div w h))
    |> update_camera updateProjectionMatrix
    |> update_renderer (renderer_setSize w h)
    |> update_uniforms (resolution_set w h).

(** [handleClick] of QuantumVisualization. *)
Definition handleClick (e : Engine) : Engine := update_uniforms collapse_toggle e.

(** ** Mounting *)

(** The engine set up by the fractal variants once a container exists:
    scene, camera, renderer appended to the container, geometry, material
    with uniforms [time = 0] and [resolution = window size], the window
    ["resize"] listener, a new clock, then the first [animate()] call. *)
Definition fractal_setup (win : Window) (now : Q) : Engine :=
  animate
    (mkEngine win false (addEventListener ResizeHandler ∅) false now
       (new_camera win) (new_renderer win)
       (mkUniforms 0 (innerWidth win, innerHeight win) None)
       new_Clock false false []).

(** The same for QuantumVisualization, with the [collapse] uniform at 0 and
    the ["click"] listener on the canvas. *)
Definition quantum_setup (win : Window) (now : Q) : Engine :=
  animate
    (mkEngine win false (addEventListener ResizeHandler ∅) false now
       (new_camera win)
       (canvas_update_listeners (addEventListener ClickHandler) (new_renderer win))
       (mkUniforms 0 (innerWidth win, innerHeight win) (Some 0))
       new_Clock false false []).

(** The outcome of mounting: an engine, or nothing with the log lines. *)
Inductive MountResult := Mounted (e : Engine) | NotMounted (log : list string).

(** [initFractalAnimation()]: [document.getElementById("three-container")]
    may be absent, then [console.error("No container found")]. *)
Definition initFractalAnimation (container : bool) (win : Window) (now : Q) : MountResult :=
  if container then Mounted (fractal_setup win now)
  else NotMounted ["No container found"%string].

(** The [useEffect] body of FractalAnimation.tsx: [if (!container) return;]. *)
Definition FractalAnimation_effect (container : bool) (win : Window) (now : Q) : MountResult :=
  if container then Mounted (fractal_setup win now) else NotMounted [].

(** The [useEffect] body of QuantumVisualization.tsx. *)
Definition QuantumVisualization_effect (container : bool) (win : Window) (now : Q) : MountResult :=
  if container then Mounted (quantum_setup win now) else NotMounted [].

(** ** Cleanup *)

(** The cleanup returned by FractalAnimation.tsx's effect.  It does not
    call [cancelAnimationFrame]. *)
Definition fractal_cleanup (e : Engine) : Engine :=
  e |> update_window_listeners (removeEventListener ResizeHandler)
    |> update_renderer detach_canvas
    |> update_renderer renderer_dispose
    |> dispose_geometry
    |> dispose_material.

(** The cleanup of QuantumVisualization.tsx: also removes the click
    listener; no [cancelAnimationFrame] either. *)
Definition quantum_cleanup (e : Engine) : Engine :=
  e |> update_window_listeners (removeEventListener ResizeHandler)
    |> update_renderer (canvas_update_listeners (removeEventListener ClickHandler))
    |> update_renderer detach_canvas
    |> update_renderer renderer_dispose
    |> dispose_geometry
    |> dispose_material.

(** ** The three entry points *)

Inductive Variant := FractalScript | FractalComponent | QuantumComponent.

Definition mount (v : Variant) : bool -> Window -> Q -> MountResult :=
  match v with
  | FractalScript => initFractalAnimation
  | FractalComponent => FractalAnimation_effect
  | QuantumComponent => QuantumVisualization_effect
  end.

Definition setup (v : Variant) : Window -> Q -> Engine :=
  match v with
  | QuantumComponent => quantum_setup
  | _ => fractal_setup
  end.

(** The script has no teardown: a cleanup leaves it as it is. *)
Definition cleanup (v : Variant) : Engine -> Engine :=
  match v with
  | FractalScript => fun e => e
  | FractalComponent => fractal_cleanup
  | QuantumComponent => quantum_cleanup
  end.

(** ** Host events *)

Inductive Event :=
| WindowResize (w h : Z)     (** the window takes size [w x h]; a ["resize"] event is queued *)
| DispatchResize             (** the queued ["resize"] event reaches the window's listeners *)
| CanvasClick                (** a click on the canvas *)
| AnimationFrame (now : Q)   (** the browser runs the requested frame callback *)
| EffectCleanup.             (** React runs the effect's cleanup *)

Definition step (v : Variant) (ev : Event) (e : Engine) : Engine :=
  match ev with
  | WindowResize w h => e |> set_window (mkWindow w h) |> set_resize_queued true
  | DispatchResize =>
      if resize_queued e then
        let e := set_resize_queued false e in
        if decide (ResizeHandler ∈ window_listeners e) then handleResize e else e
      else e
  | CanvasClick =>
      if attached (renderer e) && bool_decide (ClickHandler ∈ canvas_listeners (renderer e))
      then handleClick e else e
  | AnimationFrame now =>
      if raf_pending e then e |> set_host_now now |> set_raf_pending false |> animate else e
  | EffectCleanup => cleanup v e
  end.

Fixpoint run (v : Variant) (evs : list Event) (e : Engine) : Engine :=
  match evs with
  | [] => e
  | ev :: evs' => run v evs' (step v ev e)
  end.

(** What the host guarantees: sizes are non-negative, [performance.now()]
    does not go back, and only the React components have a cleanup. *)
Definition event_ok (v : Variant) (e : Engine) (ev : Event) : Prop :=
  match ev with
  | WindowResize w h => (0 <= w /\ 0 <= h)%Z
  | AnimationFrame now => (host_now e <= now)%Q
  | EffectCleanup => v <> FractalScript
  | _ => True
  end.

Inductive reachable (v : Variant) : Engine -> Prop :=
| reachable_setup (win : Window) (now : Q) :
    (0 <= innerWidth win)%Z -> (0 <= innerHeight win)%Z -> reachable v (setup v win now)
| reachable_step (e : Engine) (ev : Event) :
    reachable v e -> event_ok v e ev -> reachable v (step v ev e).

(** The cleanups as one record update each. *)
Lemma fractal_cleanup_eq (e : Engine) :
  fractal_cleanup e =
  mkEngine (window e) (resize_queued e) (removeEventListener ResizeHandler (window_listeners e))
    (raf_pending e) (host_now e) (camera e) (renderer_dispose (detach_canvas (renderer e)))
    (uniforms e) (clock e) true true (draws e).
Proof. reflexivity. Qed.

Lemma quantum_cleanup_eq (e : Engine) :
  quantum_cleanup e =
  mkEngine (window e) (resize_queued e) (removeEventListener ResizeHandler (window_listeners e))
    (raf_pending e) (host_now e) (camera e)
    (renderer_dispose (detach_canvas
       (canvas_update_listeners (removeEventListener ClickHandler) (renderer e))))
    (uniforms e) (clock e) true true (draws e).
Proof. reflexivity. Qed.
