(* ===== verification/EngineProps.v ===== *)
(** * Properties of the engine

    [engine_inv] is the invariant of every reachable engine state: the
    animation frame is always requested, the clock invariant holds and the
    [time] uniform is its last reading, draw times never decrease, the
    [collapse] uniform is 0 or 1 (QuantumVisualization) or absent, the
    listeners are registered exactly until the cleanup, and while mounted
    with no resize event pending the [resolution] uniform, the canvas size
    and the camera aspect agree with the window.  It is proved by one
    preservation lemma per host event and induction on [reachable]; the
    theorems then read properties of event sequences off it. *)

From Stdlib Require Import Sorted String.
From S2P Require Import Prelude Clock Host Engine.
From stdpp Require Import base gmap sets.

Open Scope Q_scope.

(** ** The invariant *)

Definition draw_time (d : Draw) : Q := u_time (d_uniforms d).

(** Newest-first lists of times that never increase towards the past. *)
Definition times_ok (l : list Q) : Prop := Sorted (fun a b => b <= a) l.

Definition viewport_consistent (e : Engine) : Prop :=
  let w := innerWidth (window e) in
  let h := innerHeight (window e) in
  u_resolution (uniforms e) = (w, h) /\ canvas_size (renderer e) = (w, h) /\
  aspect (camera e) = js_div w h /\ proj_aspect (camera e) = aspect (camera e).

Definition collapse_ok (v : Variant) (c : option Q) : Prop :=
  match v with
  | QuantumComponent => c = Some 0 \/ c = Some 1
  | _ => c = None
  end.

Definition listeners_ok (v : Variant) (e : Engine) : Prop :=
  if disposed (renderer e) then
    (ResizeHandler ∉ window_listeners e) /\ (ClickHandler ∉ canvas_listeners (renderer e)) /\
    v <> FractalScript
  else
    ResizeHandler ∈ window_listeners e /\ attached (renderer e) = true /\
    (ClickHandler ∈ canvas_listeners (renderer e) <-> v = QuantumComponent).

Record engine_inv (v : Variant) (e : Engine) : Prop := {
  inv_raf : raf_pending e = true;
  inv_clock : clock_ok (clock e) /\ running (clock e) = true /\ oldTime (clock e) = host_now e;
  inv_time : u_time (uniforms e) = elapsedTime (clock e);
  inv_draws : times_ok (u_time (uniforms e) :: map draw_time (draws e));
  inv_collapse : collapse_ok v (u_collapse (uniforms e));
  inv_draws_collapse : Forall (fun d => collapse_ok v (u_collapse (d_uniforms d))) (draws e);
  inv_listeners : listeners_ok v e;
  inv_viewport : disposed (renderer e) = false -> resize_queued e = false -> viewport_consistent e
}.

(** ** How [animate] changes the state *)

Lemma animate_eq (e : Engine) :
  animate e =
  let r := getElapsedTime (host_now e) (clock e) in
  mkEngine (window e) (resize_queued e) (window_listeners e) true (host_now e) (camera e)
    (renderer e) (time_set (fst r) (uniforms e)) (snd r) (geometry_disposed e)
    (material_disposed e)
    (mkDraw (time_set (fst r) (uniforms e)) (proj_aspect (camera e))
            (canvas_size (renderer e)) (disposed (renderer e)) :: draws e).
Proof.
  unfold animate, render, update_time, requestAnimationFrame. simpl.
  destruct (getElapsedTime (host_now e) (clock e)). reflexivity.
Qed.

Lemma times_ok_cons (t t' : Q) (l : list Q) :
  t <= t' -> times_ok (t :: l) -> times_ok (t' :: t' :: l).
Proof.
  intros Hle Hs. apply Sorted_inv in Hs as [Hs Hhd].
  constructor; [constructor; [exact Hs|] | constructor; apply Qle_refl].
  inversion Hhd; constructor. eapply Qle_trans; eassumption.
Qed.

(** [animate] keeps the clock, time and draw parts of the invariant when the
    host time has not gone back. *)
Lemma animate_inv_time (e : Engine) :
  clock_ok (clock e) -> (running (clock e) = true -> oldTime (clock e) <= host_now e) ->
  u_time (uniforms e) = elapsedTime (clock e) ->
  times_ok (u_time (uniforms e) :: map draw_time (draws e)) ->
  let e' := animate e in
  (clock_ok (clock e') /\ running (clock e') = true /\ oldTime (clock e') = host_now e') /\
  u_time (uniforms e') = elapsedTime (clock e') /\
  times_ok (u_time (uniforms e') :: map draw_time (draws e')).
Proof.
  intros Hok Hmono Ht Hs e'. subst e'. rewrite animate_eq. cbn zeta.
  pose proof (getElapsedTime_invariant _ _ Hok Hmono) as Hinv.
  pose proof (getElapsedTime_ge _ _ Hok Hmono) as Hge.
  destruct (getElapsedTime (host_now e) (clock e)) as [t c'] eqn:E.
  cbn [fst snd time_set u_time clock uniforms draws map draw_time d_uniforms host_now] in *.
  assert (Htc : t = elapsedTime c') by (unfold getElapsedTime in E; congruence).
  split; [exact Hinv | split; [exact Htc|]].
  apply (times_ok_cons (u_time (uniforms e))); [rewrite Ht; exact Hge | exact Hs].
Qed.

(** ** Preservation, event by event *)

Lemma setup_inv (v : Variant) (win : Window) (now : Q) : engine_inv v (setup v win now).
Proof.
  assert (Hc : clock_ok (start now new_Clock)) by (split; [reflexivity | simpl; split; [ring | apply Qle_refl]]).
  destruct v; cbn [setup]; unfold fractal_setup, quantum_setup; rewrite animate_eq;
    cbn -[start]; (constructor; cbn -[start];
    [reflexivity | split; [exact Hc | split; reflexivity] | reflexivity
    | repeat constructor; apply Qle_refl | | | | intros _ _; repeat split]).
  all: try (now left); try reflexivity; try (repeat constructor; now left).
  all: repeat split; try reflexivity; try set_solver; try discriminate.
Qed.

Lemma WindowResize_inv (v : Variant) (e : Engine) (w h : Z) :
  engine_inv v e -> engine_inv v (step v (WindowResize w h) e).
Proof.
  intros []. destruct e. constructor; cbn in *; auto. intros _ Hq. discriminate.
Qed.

Lemma DispatchResize_inv (v : Variant) (e : Engine) :
  engine_inv v e -> engine_inv v (step v DispatchResize e).
Proof.
  intros Hi. cbn [step]. destruct (resize_queued e) eqn:Hq; [|exact Hi].
  destruct Hi as [? ? ? ? ? ? Hl ?]. destruct e.
  destruct (decide _) as [Hin|Hnin]; constructor; cbn in *; auto.
  - intros _ _. repeat split; reflexivity.
  - intros Hd _. unfold listeners_ok in Hl. cbn in Hl. rewrite Hd in Hl.
    destruct Hl as [Hin _]. contradiction.
Qed.

Lemma collapse_ok_toggle (c : option Q) :
  collapse_ok QuantumComponent c -> collapse_ok QuantumComponent (option_map collapse_flip c).
Proof. intros [-> | ->]; [right | left]; reflexivity. Qed.

Lemma CanvasClick_inv (v : Variant) (e : Engine) :
  engine_inv v e -> engine_inv v (step v CanvasClick e).
Proof.
  intros Hi. cbn [step].
  destruct (attached (renderer e) && bool_decide _) eqn:Hc; [|exact Hi].
  apply andb_true_iff in Hc as [_ Hc]. apply bool_decide_eq_true in Hc.
  destruct Hi as [Hr Hcl Ht Hs Hcol Hdc Hl Hv].
  assert (v = QuantumComponent) as ->.
  { unfold listeners_ok in Hl. destruct (disposed (renderer e)).
    - destruct Hl as (_ & Hn & _). contradiction.
    - apply Hl, Hc. }
  constructor; try assumption. apply collapse_ok_toggle, Hcol.
Qed.

Lemma AnimationFrame_inv (v : Variant) (e : Engine) (now : Q) :
  engine_inv v e -> host_now e <= now -> engine_inv v (step v (AnimationFrame now) e).
Proof.
  intros Hi Hnow. cbn [step]. rewrite (inv_raf _ _ Hi).
  destruct Hi as [_ Hcl Ht Hs Hcol Hdc Hl Hv]. destruct Hcl as (Hok & Hr & Ho).
  set (e1 := set_raf_pending false (set_host_now now e)).
  assert (Hm : running (clock e1) = true -> oldTime (clock e1) <= host_now e1).
  { intros _. change (oldTime (clock e) <= now). rewrite Ho. exact Hnow. }
  destruct (animate_inv_time e1 Hok Hm Ht Hs) as (Hc' & Ht' & Hs').
  constructor; try assumption; rewrite animate_eq.
  all: first [reflexivity | exact Hcol | exact Hl | intros Hd Hq; exact (Hv Hd Hq)
             | constructor; [exact Hcol | exact Hdc]].
Qed.

Lemma EffectCleanup_inv (v : Variant) (e : Engine) :
  engine_inv v e -> v <> FractalScript -> engine_inv v (step v EffectCleanup e).
Proof.
  intros [Hr Hcl Ht Hs Hcol Hdc Hl Hv] Hnv.
  assert (Hnc : v = FractalComponent -> ClickHandler ∉ canvas_listeners (renderer e)).
  { intros ->. unfold listeners_ok in Hl. destruct (disposed (renderer e)).
    - apply Hl.
    - intros Hin. apply Hl in Hin. discriminate. }
  destruct v; [congruence| |]; cbn [step cleanup fractal_cleanup quantum_cleanup];
    constructor; try assumption; try (intros Hd; discriminate);
    unfold listeners_ok; simpl; rewrite detach_canvas_listeners;
    (split; [apply removeEventListener_not_elem|]);
    (split; [first [apply removeEventListener_not_elem | apply Hnc; reflexivity] | discriminate]).
Qed.

Lemma step_inv (v : Variant) (e : Engine) (ev : Event) :
  engine_inv v e -> event_ok v e ev -> engine_inv v (step v ev e).
Proof.
  intros Hi Hok. destruct ev; cbn [event_ok] in Hok.
  - now apply WindowResize_inv.
  - now apply DispatchResize_inv.
  - now apply CanvasClick_inv.
  - now apply AnimationFrame_inv.
  - now apply EffectCleanup_inv.
Qed.

(** Every reachable state satisfies the invariant. *)
Lemma reachable_inv (v : Variant) (e : Engine) : reachable v e -> engine_inv v e.
Proof.
  induction 1 as [win now _ _ | e ev _ IH Hok]; [apply setup_inv | now apply step_inv].
Qed.

(** ** Helpers shared by the theorems *)

Lemma setup_reachable (v : Variant) (w h : Z) (now : Q) :
  (0 <= w)%Z -> (0 <= h)%Z -> reachable v (setup v (mkWindow w h) now).
Proof. intros Hw Hh. apply reachable_setup; assumption. Qed.

Lemma step_frame (v : Variant) (e : Engine) (now : Q) :
  raf_pending e = true ->
  step v (AnimationFrame now) e = animate (set_raf_pending false (set_host_now now e)).
Proof. intros Hr. cbn [step]. now rewrite Hr. Qed.

(** ** Theorems on reachable states *)

(** C13: While an engine is mounted and no resize event is pending, the
    [resolution] uniform and the canvas size equal the window size and the
    camera's aspect and projection use [innerWidth / innerHeight]. *)
Theorem reachable_viewport_consistent (v : Variant) (e : Engine) :
  reachable v e -> disposed (renderer e) = false -> resize_queued e = false ->
  let w := innerWidth (window e) in
  let h := innerHeight (window e) in
  u_resolution (uniforms e) = (w, h) /\ canvas_size (renderer e) = (w, h) /\
  aspect (camera e) = js_div w h /\ proj_aspect (camera e) = js_div w h.
Proof.
  intros Hr Hd Hq. destruct (inv_viewport _ _ (reachable_inv _ _ Hr) Hd Hq) as (H1 & H2 & H3 & H4).
  cbn zeta. rewrite H4. auto.
Qed.

Lemma reachable_viewport_consistent_witness :
  let e := setup QuantumComponent (mkWindow 800 600) 0 in
  reachable QuantumComponent e /\ disposed (renderer e) = false /\ resize_queued e = false /\
  u_resolution (uniforms e) = (800, 600)%Z /\ canvas_size (renderer e) = (800, 600)%Z /\
  aspect (camera e) = js_div 800 600 /\ proj_aspect (camera e) = js_div 800 600.
Proof.
  cbn zeta. assert (Hr := setup_reachable QuantumComponent 800 600 0 ltac:(lia) ltac:(lia)).
  split; [exact Hr|]. split; [reflexivity|]. split; [reflexivity|].
  exact (reachable_viewport_consistent _ _ Hr eq_refl eq_refl).
Defined.

(** C14: In every reachable state of QuantumVisualization the [collapse]
    uniform is exactly 0 or 1; the fractal variants have no [collapse]
    uniform. *)
Theorem reachable_collapse_binary (v : Variant) (e : Engine) :
  reachable v e ->
  match v with
  | QuantumComponent => u_collapse (uniforms e) = Some 0 \/ u_collapse (uniforms e) = Some 1
  | _ => u_collapse (uniforms e) = None
  end.
Proof. intros Hr. exact (inv_collapse _ _ (reachable_inv _ _ Hr)). Qed.

Lemma reachable_collapse_binary_witness :
  let e := step QuantumComponent CanvasClick (setup QuantumComponent (mkWindow 800 600) 0) in
  reachable QuantumComponent e /\
  (u_collapse (uniforms e) = Some 0 \/ u_collapse (uniforms e) = Some 1).
Proof.
  cbn zeta.
  assert (Hr : reachable QuantumComponent
                 (step QuantumComponent CanvasClick (setup QuantumComponent (mkWindow 800 600) 0))).
  { apply reachable_step; [apply setup_reachable; lia | exact I]. }
  split; [exact Hr | exact (reachable_collapse_binary _ _ Hr)].
Defined.

(** C15: The time of every draw is at least the time of the draw before
    it, and the current [time] uniform is at least the time of the last
    draw ([draws] lists the newest first). *)
Theorem draw_times_monotone (v : Variant) (e : Engine) :
  reachable v e ->
  Sorted (fun a b => b <= a) (u_time (uniforms e) :: map draw_time (draws e)).
Proof. intros Hr. exact (inv_draws _ _ (reachable_inv _ _ Hr)). Qed.

Lemma draw_times_monotone_witness :
  let e := run FractalComponent [AnimationFrame 16; AnimationFrame 40]
                (setup FractalComponent (mkWindow 800 600) 0) in
  reachable FractalComponent e /\
  Sorted (fun a b => b <= a) (u_time (uniforms e) :: map draw_time (draws e)).
Proof.
  cbn zeta.
  assert (Hr : reachable FractalComponent
     (run FractalComponent [AnimationFrame 16; AnimationFrame 40]
          (setup FractalComponent (mkWindow 800 600) 0))).
  { cbn [run]. apply reachable_step; [apply reachable_step|].
    - apply setup_reachable; lia.
    - cbn. apply Qle_bool_imp_le. reflexivity.
    - cbn. apply Qle_bool_imp_le. reflexivity. }
  split; [exact Hr | exact (draw_times_monotone _ _ Hr)].
Defined.

(** ** Clicks *)

Fixpoint count_clicks (evs : list Event) : nat :=
  match evs with
  | [] => 0
  | CanvasClick :: evs' => S (count_clicks evs')
  | _ :: evs' => count_clicks evs'
  end.

(** Events other than the cleanup leave the canvas listeners and the
    attachment alone, and only a click changes [collapse]. *)
Lemma step_keeps_canvas (v : Variant) (ev : Event) (e : Engine) :
  ev <> EffectCleanup ->
  canvas_listeners (renderer (step v ev e)) = canvas_listeners (renderer e) /\
  attached (renderer (step v ev e)) = attached (renderer e).
Proof.
  intros Hne. destruct ev; cbn [step]; try congruence; try (split; reflexivity).
  - destruct (resize_queued e); [|split; reflexivity].
    destruct (decide _); split; reflexivity.
  - destruct (_ && _); split; reflexivity.
  - destruct (raf_pending e); [rewrite animate_eq|]; split; reflexivity.
Qed.

Lemma step_collapse (v : Variant) (ev : Event) (e : Engine) :
  ev <> EffectCleanup -> attached (renderer e) = true ->
  ClickHandler ∈ canvas_listeners (renderer e) ->
  u_collapse (uniforms (step v ev e)) =
  if ev is CanvasClick then option_map collapse_flip (u_collapse (uniforms e))
  else u_collapse (uniforms e).
Proof.
  intros Hne Ha Hc. destruct ev; cbn [step]; try congruence; try reflexivity.
  - destruct (resize_queued e); [|reflexivity]. destruct (decide _); reflexivity.
  - rewrite Ha. rewrite (bool_decide_eq_true_2 _ Hc). reflexivity.
  - destruct (raf_pending e); [rewrite animate_eq|]; reflexivity.
Qed.

Lemma run_collapse (v : Variant) (evs : list Event) (e : Engine) :
  ~ In EffectCleanup evs -> attached (renderer e) = true ->
  ClickHandler ∈ canvas_listeners (renderer e) ->
  u_collapse (uniforms (run v evs e)) =
  Nat.iter (count_clicks evs) (option_map collapse_flip) (u_collapse (uniforms e)).
Proof.
  revert e. induction evs as [|ev evs IH]; intros e Hni Ha Hc; [reflexivity|].
  assert (Hne : ev <> EffectCleanup) by (intros ->; apply Hni; left; reflexivity).
  destruct (step_keeps_canvas v ev e Hne) as [Hl Hat].
  cbn [run]. rewrite IH; [| intros Hin; apply Hni; right; exact Hin | congruence | congruence].
  rewrite step_collapse by assumption.
  destruct ev; cbn [count_clicks]; try reflexivity; try congruence.
  rewrite iter_succ_inner. reflexivity.
Qed.

Lemma flip_iter_zero (k : nat) :
  Nat.iter k (option_map collapse_flip) (Some 0) = Some (if Nat.even k then 0 else 1).
Proof.
  induction k as [|k IH]; [reflexivity|].
  rewrite Nat.iter_succ, IH, Nat.even_succ, <- Nat.negb_even.
  destruct (Nat.even k); reflexivity.
Qed.

(** C16: Starting from a freshly mounted QuantumVisualization, after any
    sequence of host events without the cleanup, [collapse] is 0 when the
    number of clicks is even and 1 when it is odd, whatever frames and
    resizes are interleaved. *)
Theorem click_parity (win : Window) (now : Q) (evs : list Event) :
  ~ In EffectCleanup evs ->
  u_collapse (uniforms (run QuantumComponent evs (setup QuantumComponent win now))) =
  Some (if Nat.even (count_clicks evs) then 0 else 1).
Proof.
  intros Hni. rewrite run_collapse; [apply flip_iter_zero | exact Hni | reflexivity |].
  cbn. set_solver.
Qed.

Lemma click_parity_witness :
  ~ In EffectCleanup [CanvasClick; AnimationFrame 16; CanvasClick; CanvasClick] /\
  u_collapse (uniforms (run QuantumComponent [CanvasClick; AnimationFrame 16; CanvasClick; CanvasClick]
                 (setup QuantumComponent (mkWindow 800 600) 0))) = Some 1.
Proof.
  assert (H : ~ In EffectCleanup [CanvasClick; AnimationFrame 16; CanvasClick; CanvasClick]).
  { simpl. intuition discriminate. }
  split; [exact H | exact (click_parity _ _ _ H)].
Defined.

(** ** The frame loop *)

(** C17: The animation loop never stops on its own: from any reachable
    state, for any non-decreasing sequence of frame times, every frame
    callback issues exactly one draw and requests the next frame. *)
Theorem frames_never_stop (v : Variant) (e : Engine) (nows : list Q) :
  reachable v e -> Sorted Qle (host_now e :: nows) ->
  let e' := run v (map AnimationFrame nows) e in
  reachable v e' /\ raf_pending e' = true /\
  length (draws e') = (length nows + length (draws e))%nat.
Proof.
  revert e. induction nows as [|now rest IH]; intros e Hr Hs.
  - repeat split; [exact Hr | exact (inv_raf _ _ (reachable_inv _ _ Hr))].
  - apply Sorted_inv in Hs as [Hs Hhd]. inversion Hhd as [|? ? Hle]; subst.
    cbn [map run]. set (e1 := step v (AnimationFrame now) e).
    assert (Hr1 : reachable v e1) by (apply reachable_step; assumption).
    assert (Hd1 : length (draws e1) = S (length (draws e))).
    { unfold e1. rewrite step_frame by exact (inv_raf _ _ (reachable_inv _ _ Hr)).
      rewrite animate_eq. reflexivity. }
    assert (Hn1 : host_now e1 = now).
    { unfold e1. rewrite step_frame by exact (inv_raf _ _ (reachable_inv _ _ Hr)).
      rewrite animate_eq. reflexivity. }
    destruct (IH e1 Hr1) as (Hr' & Hraf & Hlen); [rewrite Hn1; exact Hs|].
    repeat split; [exact Hr' | exact Hraf |]. rewrite Hlen, Hd1. simpl. lia.
Qed.

Lemma frames_never_stop_witness :
  let e := setup QuantumComponent (mkWindow 800 600) 0 in
  reachable QuantumComponent e /\ Sorted Qle (host_now e :: [16; 33; 50]) /\
  length (draws (run QuantumComponent (map AnimationFrame [16; 33; 50]) e)) = 4%nat.
Proof.
  cbn zeta. assert (Hr := setup_reachable QuantumComponent 800 600 0 ltac:(lia) ltac:(lia)).
  assert (Hs : Sorted Qle (host_now (setup QuantumComponent (mkWindow 800 600) 0) :: [16; 33; 50])).
  { repeat constructor; apply Qle_bool_imp_le; reflexivity. }
  split; [exact Hr | split; [exact Hs|]].
  destruct (frames_never_stop _ _ _ Hr Hs) as (_ & _ & ->). reflexivity.
Defined.

Lemma cleanup_disposed (v : Variant) (e : Engine) :
  v <> FractalScript -> disposed (renderer (cleanup v e)) = true.
Proof. intros Hv. destruct v; [congruence| |]; reflexivity. Qed.

(** C18: The React cleanup does not stop the animation loop: after it has
    run, a frame is still requested, and the next frame callback renders
    again with the disposed renderer (no [cancelAnimationFrame]). *)
Theorem cleanup_keeps_rendering (v : Variant) (e : Engine) (now : Q) :
  v <> FractalScript -> reachable v e -> host_now e <= now ->
  let e1 := step v EffectCleanup e in
  let e2 := step v (AnimationFrame now) e1 in
  disposed (renderer e1) = true /\ raf_pending e1 = true /\
  exists d, draws e2 = d :: draws e1 /\ d_disposed d = true.
Proof.
  intros Hv Hr Hnow e1 e2.
  assert (Hr1 : reachable v e1) by (apply reachable_step; assumption).
  pose proof (inv_raf _ _ (reachable_inv _ _ Hr1)) as Hraf.
  assert (Hd : disposed (renderer e1) = true) by (apply cleanup_disposed, Hv).
  split; [exact Hd | split; [exact Hraf|]].
  unfold e2. rewrite step_frame by exact Hraf. rewrite animate_eq.
  eexists. split; [reflexivity | exact Hd].
Qed.

Lemma cleanup_keeps_rendering_witness :
  let e := setup QuantumComponent (mkWindow 800 600) 0 in
  QuantumComponent <> FractalScript /\ reachable QuantumComponent e /\ host_now e <= 100 /\
  disposed (renderer (step QuantumComponent EffectCleanup e)) = true.
Proof.
  cbn zeta. assert (Hr := setup_reachable QuantumComponent 800 600 0 ltac:(lia) ltac:(lia)).
  assert (Hv : QuantumComponent <> FractalScript) by discriminate.
  assert (Hn : host_now (setup QuantumComponent (mkWindow 800 600) 0) <= 100)
    by (apply Qle_bool_imp_le; reflexivity).
  split; [exact Hv | split; [exact Hr | split; [exact Hn|]]].
  exact (proj1 (cleanup_keeps_rendering _ _ _ Hv Hr Hn)).
Defined.

(** ** Resize and cleanup *)

(** C23: After the cleanup, resize notifications and clicks change
    neither the camera, the renderer, the uniforms nor the draws: the
    removed listeners no longer mutate the engine. *)
Theorem teardown_inert (v : Variant) (e : Engine) (ev : Event) :
  reachable v e -> disposed (renderer e) = true ->
  (forall now, ev <> AnimationFrame now) -> ev <> EffectCleanup ->
  let e' := step v ev e in
  camera e' = camera e /\ renderer e' = renderer e /\ uniforms e' = uniforms e /\
  draws e' = draws e.
Proof.
  intros Hr Hd Hnf Hnc e'. subst e'.
  pose proof (inv_listeners _ _ (reachable_inv _ _ Hr)) as Hl.
  unfold listeners_ok in Hl. rewrite Hd in Hl. destruct Hl as (Hnr & Hnk & _).
  destruct ev as [w h| | |now|]; cbn [step]; try (exfalso; eapply Hnf; reflexivity); try congruence.
  - repeat split.
  - destruct (resize_queued e); [|repeat split].
    destruct (decide _) as [Hin|]; [contradiction | repeat split].
  - rewrite (bool_decide_eq_false_2 _ Hnk), andb_false_r. repeat split.
Qed.

Lemma teardown_inert_witness :
  let e := step QuantumComponent EffectCleanup (setup QuantumComponent (mkWindow 800 600) 0) in
  reachable QuantumComponent e /\ disposed (renderer e) = true /\
  uniforms (step QuantumComponent CanvasClick e) = uniforms e.
Proof.
  cbn zeta.
  assert (Hr : reachable QuantumComponent
     (step QuantumComponent EffectCleanup (setup QuantumComponent (mkWindow 800 600) 0))).
  { apply reachable_step; [apply setup_reachable; lia | discriminate]. }
  split; [exact Hr | split; [reflexivity|]].
  refine (proj1 (proj2 (proj2 (teardown_inert _ _ CanvasClick Hr eq_refl _ _)))); discriminate.
Defined.

(** C24: A resize notification that repeats the current window size is a
    no-op: while mounted with no resize pending, the window taking its
    current size and the ["resize"] event being dispatched leave the whole
    engine state unchanged. *)
Theorem resize_same_size_noop (v : Variant) (e : Engine) :
  reachable v e -> disposed (renderer e) = false -> resize_queued e = false ->
  run v [WindowResize (innerWidth (window e)) (innerHeight (window e)); DispatchResize] e = e.
Proof.
  intros Hr Hd Hq. pose proof (reachable_inv _ _ Hr) as Hi.
  destruct (inv_viewport _ _ Hi Hd Hq) as (Hres & Hsz & Ha & Hp).
  pose proof (inv_listeners _ _ Hi) as Hl. unfold listeners_ok in Hl. rewrite Hd in Hl.
  destruct Hl as (Hin & _).
  destruct e as [[w h] q wl raf hn [fv a nr fr pz pa] [cs cl att dsp] [ut ur uc] ck gd md ds].
  cbn in Hres, Hsz, Ha, Hp, Hin, Hd, Hq. subst.
  cbn [run step]. cbn. destruct (decide _) as [_|]; [|contradiction]. reflexivity.
Qed.

Lemma resize_same_size_noop_witness :
  let e := setup FractalScript (mkWindow 800 600) 0 in
  reachable FractalScript e /\ disposed (renderer e) = false /\ resize_queued e = false /\
  run FractalScript [WindowResize 800 600; DispatchResize] e = e.
Proof.
  cbn zeta. assert (Hr := setup_reachable FractalScript 800 600 0 ltac:(lia) ltac:(lia)).
  split; [exact Hr | split; [reflexivity | split; [reflexivity|]]].
  exact (resize_same_size_noop _ _ Hr eq_refl eq_refl).
Defined.

(** [handleResize] is idempotent: running it twice is running it
    once. *)
Lemma handleResize_idempotent (e : Engine) : handleResize (handleResize e) = handleResize e.
Proof. destruct e as [? ? ? ? ? [] [] [] ? ? ? ?]. reflexivity. Qed.

(** The cleanup is idempotent: a second cleanup removes nothing more
    and disposes nothing more. *)
Lemma cleanup_idempotent (v : Variant) (e : Engine) : cleanup v (cleanup v e) = cleanup v e.
Proof.
  destruct v; [reflexivity| |]; cbn [cleanup];
    rewrite ?fractal_cleanup_eq, ?quantum_cleanup_eq; cbn -[removeEventListener];
    rewrite removeEventListener_idem; f_equal.
  - apply renderer_dispose_detach_idem.
  - apply renderer_teardown_idem, removeEventListener_idem.
Qed.

(** ** Mounting and the first frame *)

(** Mounting without a container builds nothing: the script logs
    ["No container found"] and the React effects return silently; with a
    container each entry point builds its engine. *)
Lemma mount_outcome (v : Variant) (win : Window) (now : Q) :
  mount v true win now = Mounted (setup v win now) /\
  mount v false win now =
  NotMounted (if v is FractalScript then ["No container found"%string] else []).
Proof. destruct v; split; reflexivity. Qed.

(** C25: Mounting draws once at once, at [time = 0], with the window size
    as [resolution] and [collapse = 0] (QuantumVisualization), starts the
    clock at the mount time and requests the next frame. *)
Theorem first_draw (v : Variant) (win : Window) (now : Q) :
  let e := setup v win now in
  map d_uniforms (draws e) =
    [mkUniforms 0 (innerWidth win, innerHeight win)
       (if v is QuantumComponent then Some 0 else None)] /\
  raf_pending e = true /\ running (clock e) = true /\ startTime (clock e) = now.
Proof. destruct v; repeat split. Qed.

(** ** Ordering of resize and frames *)

Lemma DispatchResize_handles (e : Engine) (v : Variant) :
  resize_queued e = true -> ResizeHandler ∈ window_listeners e ->
  step v DispatchResize e = handleResize (set_resize_queued false e).
Proof.
  intros Hq Hin. cbn [step]. rewrite Hq. destruct (decide _) as [_|Hn]; [reflexivity|].
  contradiction.
Qed.

(** C26: A resize becomes visible at the next draw, whole: after the
    window takes size [w x h], the ["resize"] event is dispatched and a
    frame runs, exactly one new draw exists and it used resolution
    [(w, h)], canvas size [(w, h)] and the aspect [w / h]. *)
Theorem resize_then_frame (v : Variant) (e : Engine) (w h : Z) (now : Q) :
  reachable v e -> disposed (renderer e) = false ->
  let e' := run v [WindowResize w h; DispatchResize; AnimationFrame now] e in
  exists d, draws e' = d :: draws e /\ u_resolution (d_uniforms d) = (w, h) /\
            d_size d = (w, h) /\ d_proj_aspect d = js_div w h.
Proof.
  intros Hr Hd e'. pose proof (reachable_inv _ _ Hr) as Hi.
  pose proof (inv_listeners _ _ Hi) as Hl. unfold listeners_ok in Hl. rewrite Hd in Hl.
  destruct Hl as (Hin & _).
  unfold e'. cbn [run]. rewrite DispatchResize_handles by (reflexivity || assumption).
  rewrite step_frame by exact (inv_raf _ _ Hi). rewrite animate_eq.
  eexists. repeat split.
Qed.

Lemma resize_then_frame_witness :
  let e := setup QuantumComponent (mkWindow 800 600) 0 in
  reachable QuantumComponent e /\ disposed (renderer e) = false /\
  exists d, draws (run QuantumComponent [WindowResize 1024 768; DispatchResize; AnimationFrame 16] e)
            = d :: draws e /\ u_resolution (d_uniforms d) = (1024, 768)%Z.
Proof.
  cbn zeta. assert (Hr := setup_reachable QuantumComponent 800 600 0 ltac:(lia) ltac:(lia)).
  split; [exact Hr | split; [reflexivity|]].
  destruct (resize_then_frame _ _ 1024 768 16 Hr eq_refl) as (d & Hd & Hres & _).
  exists d. split; assumption.
Defined.

(** C27: No guard protects a zero-height window: after a resize to
    [w x 0] with [w > 0] the camera aspect and the projection use
    [Infinity], and the [resolution] uniform becomes [(w, 0)]. *)
Theorem resize_zero_height (v : Variant) (e : Engine) (w : Z) :
  reachable v e -> disposed (renderer e) = false -> (0 < w)%Z ->
  let e' := run v [WindowResize w 0; DispatchResize] e in
  aspect (camera e') = JPosInf /\ proj_aspect (camera e') = JPosInf /\
  u_resolution (uniforms e') = (w, 0%Z).
Proof.
  intros Hr Hd Hw e'. pose proof (inv_listeners _ _ (reachable_inv _ _ Hr)) as Hl.
  unfold listeners_ok in Hl. rewrite Hd in Hl. destruct Hl as (Hin & _).
  unfold e'. cbn [run]. rewrite DispatchResize_handles by (reflexivity || assumption).
  unfold js_div. cbn. destruct (Z.eqb_spec w 0); [lia|]. apply Z.ltb_lt in Hw. rewrite Hw.
  repeat split.
Qed.

Lemma resize_zero_height_witness :
  let e := setup FractalComponent (mkWindow 800 600) 0 in
  reachable FractalComponent e /\ disposed (renderer e) = false /\ (0 < 800)%Z /\
  aspect (camera (run FractalComponent [WindowResize 800 0; DispatchResize] e)) = JPosInf.
Proof.
  cbn zeta. assert (Hr := setup_reachable FractalComponent 800 600 0 ltac:(lia) ltac:(lia)).
  split; [exact Hr | split; [reflexivity | split; [lia|]]].
  exact (proj1 (resize_zero_height _ _ 800 Hr eq_refl ltac:(lia))).
Defined.

(** ** Facts used by the shading interface *)

(** No event withdraws the requested frame, the cleanup included. *)
Lemma step_raf (v : Variant) (ev : Event) (e : Engine) :
  raf_pending e = true -> raf_pending (step v ev e) = true.
Proof.
  intros Hr. destruct ev; cbn [step]; try assumption.
  - destruct (resize_queued e); [destruct (decide _)|]; assumption.
  - destruct (_ && _); assumption.
  - rewrite Hr, animate_eq. reflexivity.
  - destruct v; [assumption | rewrite fractal_cleanup_eq | rewrite quantum_cleanup_eq];
      exact Hr.
Qed.

Lemma run_raf (v : Variant) (evs : list Event) (e : Engine) :
  raf_pending e = true -> raf_pending (run v evs e) = true.
Proof.
  revert e. induction evs as [|ev evs IH]; intros e Hr; [exact Hr|].
  apply IH, step_raf, Hr.
Qed.
