(* ===== verification/React.v ===== *)
(** * React's lifecycle around the two components

    FractalAnimation.tsx and QuantumVisualization.tsx are function
    components: each render calls [useRef(null)] (line 5), registers
    [useEffect(effect, [])] (lines 7-103 and 7-115) and returns
    [<div ref={containerRef} style={{ width: "100vw", height: "100vh" }} />]
    (lines 105 and 117); [FractalAnimation] and [QuantumVisualization]
    model one call of each function, the effect body being
    [Engine.mount] of the matching variant.  React (library code, modelled from its documented
    behaviour) commits a rendered element by creating the [<div>] and
    attaching the ref, schedules the effect when its dependency list
    differs from the last committed one, and runs scheduled ("passive")
    effects later, always before it starts a new render or an unmount.
    On unmount it detaches the ref and runs the last effect's cleanup.
    [Fiber] is React's state for one component instance of [Comp]; it keeps every
    engine an effect has built, newest first, and host events step all of
    them, since each one drives its own animation loop.  The theorems say
    that under this order the [if (!container) return;] guard never fires,
    that the [[]] dependency list makes the effect run once however often
    the component re-renders, and what an unmount leaves behind. *)

From Stdlib Require Import String.
From S2P Require Import Prelude Host Engine EngineProps.
Import ListNotations.

Open Scope nat_scope.

(** ** The components' render output and hooks *)

(** A host element as JSX creates it. *)
Record Element := mkElement {
  el_tag : string;
  el_has_ref : bool;                    (** [ref={containerRef}] *)
  el_style : list (string * string)
}.

(** FractalAnimation.tsx, line 105:
    [<div ref={containerRef} style={{ width: "100vw", height: "100vh" }} />] *)
Definition FractalAnimation_element : Element :=
  mkElement "div" true [("width", "100vw"); ("height", "100vh")]%string.

(** QuantumVisualization.tsx, line 117: the same markup. *)
Definition QuantumVisualization_element : Element :=
  mkElement "div" true [("width", "100vw"); ("height", "100vh")]%string.

(** The dependency list of [useEffect(..., [])] (line 103): [Some] list
    when the call passes an array, [None] when it passes none. *)
Definition effect_deps : option (list nat) := Some [].

(** One call of a function component: [useRef] hands back the instance's
    ref, [useEffect] records the deps next to its effect (the effect body
    is [Engine.mount] of the component's variant) and the JSX is
    returned. *)
Definition FractalAnimation : Element * option (list nat) := (FractalAnimation_element, effect_deps).

Definition QuantumVisualization : Element * option (list nat) :=
  (QuantumVisualization_element, effect_deps).

Inductive Comp := CFractalAnimation | CQuantumVisualization.

Definition component (c : Comp) : Element * option (list nat) :=
  match c with
  | CFractalAnimation => FractalAnimation
  | CQuantumVisualization => QuantumVisualization
  end.

(** The engine variant whose effect and cleanup the component registers. *)
Definition variant_of (c : Comp) : Variant :=
  match c with
  | CFractalAnimation => FractalComponent
  | CQuantumVisualization => QuantumComponent
  end.

(** React's [areHookInputsEqual]: the lists agree element by element. *)
Fixpoint deps_equal (a b : list nat) : bool :=
  match a, b with
  | [], [] => true
  | x :: a', y :: b' => Nat.eqb x y && deps_equal a' b'
  | _, _ => false
  end.

(** ** React's state for one instance *)

Record Fiber := mkFiber {
  wip : option (Element * option (list nat));  (** a render's output waits for its commit *)
  dom_div : bool;                   (** the [<div>] is in the document *)
  ref_current : bool;               (** [containerRef.current !== null] *)
  prev_deps : option (list nat);    (** deps of the last committed effect *)
  pending_effect : bool;            (** the effect is scheduled *)
  effects_run : nat;                (** times the effect body ran *)
  guard_fired : bool;               (** an effect found no container *)
  instances : list Engine;          (** engines built by the effect, newest first *)
  unmounted : bool
}.

(** [useRef(null)] before the first render: [current] is [null]. *)
Definition init_fiber : Fiber := mkFiber None false false None false 0 false [] false.

(** The previous effect's cleanup runs on the newest engine. *)
Definition cleanup_newest (v : Variant) (l : list Engine) : list Engine :=
  match l with
  | [] => []
  | e :: rest => cleanup v e :: rest
  end.

(** Running the scheduled effect: the previous cleanup first, then the
    effect body, which reads [containerRef.current], [window] and
    [performance.now()]. *)
Definition flush_passive (c : Comp) (win : Window) (now : Q) (f : Fiber) : Fiber :=
  if pending_effect f then
    let old := cleanup_newest (variant_of c) (instances f) in
    match mount (variant_of c) (ref_current f) win now with
    | Mounted e =>
        mkFiber (wip f) (dom_div f) (ref_current f) (prev_deps f) false
                (S (effects_run f)) (guard_fired f) (e :: old) (unmounted f)
    | NotMounted _ =>
        mkFiber (wip f) (dom_div f) (ref_current f) (prev_deps f) false
                (S (effects_run f)) true old (unmounted f)
    end
  else f.

(** A render: pending effects are flushed first, then the function
    component is called. *)
Definition react_render (c : Comp) (win : Window) (now : Q) (f : Fiber) : Fiber :=
  let f := flush_passive c win now f in
  if unmounted f then f
  else mkFiber (Some (component c)) (dom_div f) (ref_current f) (prev_deps f)
               (pending_effect f) (effects_run f) (guard_fired f) (instances f) (unmounted f).

(** A commit of the rendered element: the [<div>] is in the document, the
    ref is attached when the element has one, and the effect is scheduled
    unless both the committed and the new deps are arrays and equal (no
    array, or no committed effect yet, always schedules it). *)
Definition react_commit (f : Fiber) : Fiber :=
  match wip f with
  | Some (el, deps) =>
      if unmounted f then f
      else
        let changed := match prev_deps f, deps with
                       | Some d, Some n => negb (deps_equal d n)
                       | _, _ => true
                       end in
        mkFiber None true (el_has_ref el) deps changed
                (effects_run f) (guard_fired f) (instances f) (unmounted f)
  | None => f
  end.

(** An unmount: pending effects are flushed, the ref is detached, the
    [<div>] removed and the last effect's cleanup run. *)
Definition react_unmount (c : Comp) (win : Window) (now : Q) (f : Fiber) : Fiber :=
  let f := flush_passive c win now f in
  if dom_div f && negb (unmounted f) then
    mkFiber None false false (prev_deps f) false (effects_run f) (guard_fired f)
            (cleanup_newest (variant_of c) (instances f)) true
  else f.

Inductive ReactEvent :=
| Render (win : Window) (now : Q)       (** React renders the component *)
| Commit                                (** React commits the last render *)
| FlushPassive (win : Window) (now : Q) (** the scheduler runs passive effects *)
| Unmount (win : Window) (now : Q)      (** the component leaves the tree *)
| Host (ev : Event).                    (** a browser event reaches the engines *)

Definition react_step (c : Comp) (ev : ReactEvent) (f : Fiber) : Fiber :=
  match ev with
  | Render win now => react_render c win now f
  | Commit => react_commit f
  | FlushPassive win now => flush_passive c win now f
  | Unmount win now => react_unmount c win now f
  | Host ev =>
      mkFiber (wip f) (dom_div f) (ref_current f) (prev_deps f) (pending_effect f)
              (effects_run f) (guard_fired f) (map (step (variant_of c) ev) (instances f))
              (unmounted f)
  end.

Fixpoint react_run (c : Comp) (evs : list ReactEvent) (f : Fiber) : Fiber :=
  match evs with
  | [] => f
  | ev :: evs' => react_run c evs' (react_step c ev f)
  end.

(** Mounting as React does it: render, commit, then the passive effects. *)
Definition react_mount (win : Window) (now : Q) : list ReactEvent :=
  [Render win now; Commit; FlushPassive win now].

(** The state after React's mount sequence: the [<div>] is committed, the
    ref attached, and the effect has built the engine once. *)
Definition mounted_fiber (c : Comp) (win : Window) (now : Q) : Fiber :=
  mkFiber None true true effect_deps false 1 false [setup (variant_of c) win now] false.

(** What happens to a component between React's mount and unmount, or
    after it: host events ([inl]) and re-renders with the window and time
    they read ([inr]), in any order. *)
Definition app_events (ops : list (Event + (Window * Q))) : list ReactEvent :=
  flat_map (fun o => match o with
                     | inl ev => [Host ev]
                     | inr (w, t) => [Render w t; Commit]
                     end) ops.

(** The host events among them, as the engine receives them. *)
Definition host_events (ops : list (Event + (Window * Q))) : list Event :=
  flat_map (fun o => match o with inl ev => [ev] | inr _ => [] end) ops.

(** ** The invariant of React's state *)

Record fiber_inv (f : Fiber) : Prop := {
  fi_guard : guard_fired f = false;
  fi_count : length (instances f) = effects_run f;
  fi_pending : pending_effect f = true -> ref_current f = true /\ effects_run f = 0;
  fi_render : wip f <> None -> pending_effect f = false;
  fi_wip : forall el d, wip f = Some (el, d) -> el_has_ref el = true /\ d = effect_deps;
  fi_fresh : prev_deps f = None -> effects_run f = 0 /\ pending_effect f = false;
  fi_once : forall d, prev_deps f = Some d ->
            Some d = effect_deps /\ effects_run f + (if pending_effect f then 1 else 0) = 1
}.

Lemma init_fiber_inv : fiber_inv init_fiber.
Proof. split; cbn; try discriminate; auto. Qed.

(** Both components render a [<div>] with the ref and the deps [[]]. *)
Lemma component_shape (c : Comp) :
  el_has_ref (fst (component c)) = true /\ snd (component c) = effect_deps.
Proof. destruct c; split; reflexivity. Qed.

(** With the container present the effect builds its engine. *)
Lemma mount_container (v : Variant) (win : Window) (now : Q) :
  mount v true win now = Mounted (setup v win now).
Proof. destruct v; reflexivity. Qed.

Lemma flush_inv (c : Comp) (win : Window) (now : Q) (f : Fiber) :
  fiber_inv f -> fiber_inv (flush_passive c win now f) /\ pending_effect (flush_passive c win now f) = false.
Proof.
  intros Hi. unfold flush_passive.
  destruct (pending_effect f) eqn:Ep.
  - destruct Hi as [Hg Hc Hp Hr Hw Hf Ho]. destruct (Hp Ep) as [Href H0]. rewrite Href, mount_container.
    destruct (instances f) as [|e l] eqn:Ei; [|cbn in Hc; lia].
    split; [|reflexivity]. split; cbn; try discriminate; auto.
    + intros Hn. destruct (Hf Hn) as [_ Hpf]. congruence.
    + intros d Hd. destruct (Ho d Hd) as [Hd0 Hd1]. split; [exact Hd0 | lia].
  - split; [exact Hi | exact Ep].
Qed.

Lemma render_inv (c : Comp) (win : Window) (now : Q) (f : Fiber) :
  fiber_inv f -> fiber_inv (react_render c win now f).
Proof.
  intros Hi. destruct (flush_inv c win now f Hi) as [Hi' Hp]. unfold react_render.
  generalize dependent (flush_passive c win now f). intros g Hi' Hp.
  destruct (unmounted g); [exact Hi'|].
  destruct Hi' as [Hg Hc HP Hr Hw Hf Ho]. destruct (component_shape c) as [Hel Hd].
  split; cbn; auto.
  intros el d Heq. injection Heq as Heq. rewrite Heq in Hel, Hd. split; assumption.
Qed.

Lemma commit_inv (f : Fiber) : fiber_inv f -> fiber_inv (react_commit f).
Proof.
  intros Hi. unfold react_commit.
  destruct (wip f) as [[el deps]|] eqn:Ew; [|exact Hi]. destruct (unmounted f); [exact Hi|].
  destruct Hi as [Hg Hc Hp Hr Hw Hf Ho]. cbn.
  assert (Hpf : pending_effect f = false) by (apply Hr; congruence).
  destruct (Hw el deps Ew) as [Hel ->]. rewrite Hel.
  destruct (prev_deps f) as [d|] eqn:Ed.
  - destruct (Ho d eq_refl) as [[= ->] Hd]. rewrite Hpf in Hd. cbn.
    split; cbn; try discriminate; auto; try (intros ? ? [=]; fail).
    all: intros d' Hd'; split; [symmetry; exact Hd' | lia].
  - destruct (Hf eq_refl) as [H0 _].
    split; cbn; try discriminate; auto; try (intros ? ? [=]; fail); [now intros [] |].
    all: intros d' Hd'; split; [symmetry; exact Hd' | lia].
Qed.

Lemma cleanup_newest_length (v : Variant) (l : list Engine) :
  length (cleanup_newest v l) = length l.
Proof. now destruct l. Qed.

Lemma unmount_inv (c : Comp) (win : Window) (now : Q) (f : Fiber) :
  fiber_inv f -> fiber_inv (react_unmount c win now f).
Proof.
  intros Hi. destruct (flush_inv c win now f Hi) as [Hi' Hp]. unfold react_unmount.
  destruct (_ && _); [|exact Hi'].
  destruct Hi' as [Hg Hc HP Hr Hw Hf Ho]. rewrite Hp in Ho, Hf.
  split; cbn; try discriminate; auto. now rewrite cleanup_newest_length.
Qed.

Lemma react_step_inv (c : Comp) (ev : ReactEvent) (f : Fiber) :
  fiber_inv f -> fiber_inv (react_step c ev f).
Proof.
  intros Hi. destruct ev; cbn [react_step].
  - now apply render_inv.
  - now apply commit_inv.
  - now apply flush_inv.
  - now apply unmount_inv.
  - destruct Hi as [Hg Hc Hp Hr Hw Hf Ho]. split; cbn; auto. now rewrite length_map.
Qed.

Lemma react_run_inv (c : Comp) (evs : list ReactEvent) (f : Fiber) :
  fiber_inv f -> fiber_inv (react_run c evs f).
Proof.
  revert f. induction evs as [|ev evs IH]; intros f Hi; [exact Hi|].
  apply IH, react_step_inv, Hi.
Qed.

(** The effect body ran at most once. *)
Lemma fiber_inv_once (f : Fiber) : fiber_inv f -> effects_run f <= 1.
Proof.
  intros [Hg Hc Hp Hr Hw Hf Ho]. destruct (prev_deps f) as [d|] eqn:Ed.
  - destruct (Ho d eq_refl) as [_ H]. lia.
  - destruct (Hf eq_refl). lia.
Qed.

(** ** Runs of React events *)

Lemma react_run_app (c : Comp) (l1 l2 : list ReactEvent) (f : Fiber) :
  react_run c (l1 ++ l2) f = react_run c l2 (react_run c l1 f).
Proof. revert f. induction l1 as [|ev l1 IH]; intros f; [reflexivity | apply IH]. Qed.

Lemma react_mount_run (c : Comp) (win : Window) (now : Q) :
  react_run c (react_mount win now) init_fiber = mounted_fiber c win now.
Proof.
  destruct c; unfold react_mount; cbn -[mount setup]; rewrite mount_container; reflexivity.
Qed.

(** A re-render of the mounted component commits the same element and
    schedules nothing: the deps [[]] equal the committed ones. *)
Lemma rerender_mounted (c : Comp) (win : Window) (now : Q) (w : Window) (t : Q) :
  react_run c [Render w t; Commit] (mounted_fiber c win now) = mounted_fiber c win now.
Proof. destruct c; reflexivity. Qed.

Lemma rerenders_mounted (c : Comp) (win : Window) (now : Q) (rs : list (Window * Q)) :
  react_run c (flat_map (fun r => [Render (fst r) (snd r); Commit]) rs) (mounted_fiber c win now) =
  mounted_fiber c win now.
Proof.
  induction rs as [|[w t] rs IH]; [reflexivity|].
  cbn [flat_map fst snd]. rewrite (react_run_app c [Render w t; Commit]), rerender_mounted. exact IH.
Qed.

(** Host events step every engine and leave React's state alone. *)
Lemma react_run_hosts (c : Comp) (hs : list Event) (f : Fiber) :
  react_run c (map Host hs) f =
  mkFiber (wip f) (dom_div f) (ref_current f) (prev_deps f) (pending_effect f)
          (effects_run f) (guard_fired f) (map (run (variant_of c) hs) (instances f)) (unmounted f).
Proof.
  revert f. induction hs as [|ev hs IH]; intros f.
  - destruct f; cbn. now rewrite map_id.
  - cbn [map react_run]. rewrite IH. cbn. rewrite map_map. reflexivity.
Qed.

(** While mounted, or after the unmount, re-renders change nothing and
    host events step the engines. *)
Lemma app_events_mounted (c : Comp) (ops : list (Event + (Window * Q))) (l : list Engine) :
  react_run c (app_events ops) (mkFiber None true true effect_deps false 1 false l false) =
  mkFiber None true true effect_deps false 1 false (map (run (variant_of c) (host_events ops)) l) false.
Proof.
  revert l. induction ops as [|[ev|[w t]] ops IH]; intros l.
  - cbn. now rewrite map_id.
  - cbn [app_events flat_map app react_run react_step]. rewrite IH. cbn. now rewrite map_map.
  - cbn [app_events flat_map app]. rewrite <- IH. destruct c; reflexivity.
Qed.

Lemma app_events_unmounted (c : Comp) (ops : list (Event + (Window * Q))) (l : list Engine) :
  react_run c (app_events ops) (mkFiber None false false effect_deps false 1 false l true) =
  mkFiber None false false effect_deps false 1 false (map (run (variant_of c) (host_events ops)) l) true.
Proof.
  revert l. induction ops as [|[ev|[w t]] ops IH]; intros l.
  - cbn. now rewrite map_id.
  - cbn [app_events flat_map app react_run react_step]. rewrite IH. cbn. now rewrite map_map.
  - cbn [app_events flat_map app]. rewrite <- IH. reflexivity.
Qed.

Lemma run_app_events (v : Variant) (l1 l2 : list Event) (e : Engine) :
  run v (l1 ++ l2) e = run v l2 (run v l1 e).
Proof. revert e. induction l1 as [|ev l1 IH]; intros e; [reflexivity | apply IH]. Qed.

(** A disposed renderer stays disposed whatever the host does. *)
Lemma step_disposed (v : Variant) (ev : Event) (e : Engine) :
  disposed (renderer e) = true -> disposed (renderer (step v ev e)) = true.
Proof.
  intros H. destruct ev; cbn [step]; try exact H.
  - destruct (resize_queued e); [|exact H].
    match goal with |- context [if ?b then _ else _] => destruct b end; exact H.
  - destruct (_ && _); exact H.
  - destruct (raf_pending e); [rewrite animate_eq|]; exact H.
  - destruct v; [exact H | reflexivity | reflexivity].
Qed.

Lemma run_disposed (v : Variant) (evs : list Event) (e : Engine) :
  disposed (renderer e) = true -> disposed (renderer (run v evs e)) = true.
Proof.
  revert e. induction evs as [|ev evs IH]; intros e H; [exact H|]. apply IH, step_disposed, H.
Qed.

Lemma setup_raf (v : Variant) (win : Window) (now : Q) : raf_pending (setup v win now) = true.
Proof. destruct v; reflexivity. Qed.

Lemma variant_not_script (c : Comp) : variant_of c <> FractalScript.
Proof. now destruct c. Qed.

(** The cleanup of a component keeps the pending frame. *)
Lemma cleanup_raf (c : Comp) (e : Engine) :
  raf_pending e = true -> raf_pending (cleanup (variant_of c) e) = true.
Proof. intros H. destruct c; exact H. Qed.

(** ** Theorems *)

(** C19: under React's order of render, commit and passive effects, for
    any sequence of renders, commits, effect flushes, unmounts and host
    events, the effect body never finds [containerRef.current] null (the
    [if (!container) return;] guard never fires), it runs at most once,
    and it builds one engine per run. *)
Theorem react_effect_once (c : Comp) (evs : list ReactEvent) :
  let f := react_run c evs init_fiber in
  guard_fired f = false /\ effects_run f <= 1 /\ length (instances f) = effects_run f.
Proof.
  cbv zeta. pose proof (react_run_inv c evs init_fiber init_fiber_inv) as Hi.
  split; [apply Hi | split; [apply fiber_inv_once, Hi | apply Hi]].
Qed.

(** C20: React's mount builds exactly the engine of [setup] with the
    window and time the effect reads, and any number of re-renders
    afterwards keeps that single engine and runs no effect again: the
    [[]] dependency list makes the setup run once. *)
Theorem react_mount_builds (c : Comp) (win : Window) (now : Q) (rs : list (Window * Q)) :
  let f := react_run c (react_mount win now ++
                        flat_map (fun r => [Render (fst r) (snd r); Commit]) rs) init_fiber in
  instances f = [setup (variant_of c) win now] /\ effects_run f = 1 /\
  dom_div f = true /\ ref_current f = true.
Proof.
  cbv zeta. rewrite react_run_app, react_mount_run, rerenders_mounted. repeat split.
Qed.

(** C22: React's lifecycle refines the engine model's view of React: a
    mount, any interleaving of host events and re-renders, an unmount and
    any events after it leave exactly one engine, the one the engine
    model reaches from [setup] by the same host events with the unmount
    as one [EffectCleanup] event, so the engine theorems stated over
    [run] and [reachable] hold of the engine React drives. *)
Theorem react_refines_engine (c : Comp) (win win' : Window) (now now' : Q)
    (ops1 ops2 : list (Event + (Window * Q))) :
  instances (react_run c (react_mount win now ++ app_events ops1 ++ Unmount win' now' ::
                          app_events ops2) init_fiber) =
  [run (variant_of c) (host_events ops1 ++ EffectCleanup :: host_events ops2)
       (setup (variant_of c) win now)].
Proof.
  rewrite !react_run_app, react_mount_run. unfold mounted_fiber.
  rewrite app_events_mounted. cbn [react_run react_step map].
  change (react_unmount c win' now' _) with
    (mkFiber None false false effect_deps false 1 false
       [cleanup (variant_of c) (run (variant_of c) (host_events ops1) (setup (variant_of c) win now))] true).
  rewrite app_events_unmounted, run_app_events. reflexivity.
Qed.

(** C21: when a mounted component unmounts, React removes the [<div>],
    nulls the ref and runs the cleanup once, but the engine it built keeps
    its animation frame requested on a disposed renderer, whatever host
    events come before and after: the loop outlives the component. *)
Theorem react_unmount_leaves_loop (c : Comp) (win win' : Window) (now now' : Q)
    (hs1 hs2 : list Event) :
  let f := react_run c (react_mount win now ++ map Host hs1 ++ Unmount win' now' :: map Host hs2)
                     init_fiber in
  dom_div f = false /\ ref_current f = false /\ unmounted f = true /\ effects_run f = 1 /\
  exists e, instances f = [e] /\ raf_pending e = true /\ disposed (renderer e) = true.
Proof.
  cbv zeta. rewrite !react_run_app, react_mount_run, react_run_hosts.
  cbn [react_run react_step react_unmount flush_passive mounted_fiber dom_div unmounted
       pending_effect andb negb instances cleanup_newest map].
  rewrite react_run_hosts. cbn. repeat split.
  eexists; split; [reflexivity|]. split.
  - apply run_raf, cleanup_raf, run_raf, setup_raf.
  - apply run_disposed, cleanup_disposed, variant_not_script.
Qed.
