(* ===== verification/Shading.v ===== *)
(** * The kernels behind the engine: the [Shader] interface

    The engine hands each draw's uniforms to the fragment shader of its
    entry point.  [Shader v] states what a kernel promises to the engine of
    entry point [v]: a colour for every uniform set and surface coordinate
    ([shade]), valid (channels in [[0, 1]], alpha 1) whenever the
    [collapse] uniform satisfies the engine's invariant [collapse_ok v],
    and independent of the [resolution] uniform.  The instances bind the
    GLSL uniforms [time] and [collapse] to [fractal_main] and
    [quantum_main]; an absent uniform reads as 0.  Each instance proves
    its kernel's validity ([fractal_shade_valid], [quantum_shade_valid]);
    the client lemma is proved against the class, and [kernel], the
    shader each entry point compiles, is shown to be an instance's, so
    every draw of every reachable engine yields valid pixels; the draw
    after an odd number of clicks shows the collapsed colour. *)

From S2P Require Import Prelude Glsl Fractal Interference Clock Host Engine EngineProps.
From stdpp Require Import base gmap sets.

Open Scope R_scope.
Open Scope glsl_scope.

Definition valid_color (c : vec4) : Prop :=
  vec3_Forall (fun x => 0 <= x <= 1) (rgb c) /\ alpha c = 1.

(** The value a shader reads for a [uniform float] the material may lack. *)
Definition uniform_float (o : option Q) : R :=
  match o with Some q => Q2R q | None => 0 end.

Class Shader (v : Variant) := {
  shade : Uniforms -> vec2 -> vec4;
  shade_valid : forall u uv, collapse_ok v (u_collapse u) -> valid_color (shade u uv);
  shade_resolution : forall u uv w h, shade (resolution_set w h u) uv = shade u uv
}.

(** [uniform float time;] read by the fractal shader. *)
Definition fractal_shade (u : Uniforms) (vUv : vec2) : vec4 :=
  fractal_main (Q2R (u_time u)) vUv.

(** [uniform float time;] and [uniform float collapse;] read by the
    interference shader. *)
Definition quantum_shade (u : Uniforms) (vUv : vec2) : vec4 :=
  quantum_main (Q2R (u_time u)) (uniform_float (u_collapse u)) vUv.

Lemma fractal_shade_valid (u : Uniforms) (uv : vec2) : valid_color (fractal_shade u uv).
Proof.
  unfold fractal_shade, fractal_main, valid_color, vec3_Forall, vec3_splat.
  cbn [rgb alpha vr vg vb].
  pose proof (fractal_intensity_range (warp (Q2R (u_time u)) uv)). repeat split; lra.
Qed.

Lemma quantum_shade_valid (u : Uniforms) (uv : vec2) :
  collapse_ok QuantumComponent (u_collapse u) -> valid_color (quantum_shade u uv).
Proof.
  intros Hc. unfold quantum_shade.
  assert (H01 : 0 <= uniform_float (u_collapse u) <= 1).
  { destruct Hc as [-> | ->]; unfold uniform_float, Q2R; simpl; lra. }
  pose proof (pattern_scale_range uv (Q2R (u_time u))) as Hs.
  destruct (superposition_range (Q2R (u_time u))) as (Hr & Hg & Hb).
  unfold valid_color, quantum_main, vec3_Forall, mix3, v3scale, stateA in *.
  cbn [rgb alpha vr vg vb] in *.
  split; [|reflexivity].
  split; [|split]; (split; [apply channel_in; lra | apply Rle_trans with 0.8; [apply channel_in|]; lra]).
Qed.

#[export] Instance fractal_script_shader : Shader FractalScript :=
  {| shade := fractal_shade;
     shade_valid := fun u uv _ => fractal_shade_valid u uv;
     shade_resolution := fun _ _ _ _ => eq_refl |}.

#[export] Instance fractal_component_shader : Shader FractalComponent :=
  {| shade := fractal_shade;
     shade_valid := fun u uv _ => fractal_shade_valid u uv;
     shade_resolution := fun _ _ _ _ => eq_refl |}.

#[export] Instance quantum_component_shader : Shader QuantumComponent :=
  {| shade := quantum_shade;
     shade_valid := quantum_shade_valid;
     shade_resolution := fun _ _ _ _ => eq_refl |}.

(** The fragment shader each entry point's [ShaderMaterial] compiles. *)
Definition kernel (v : Variant) : Uniforms -> vec2 -> vec4 :=
  match v with
  | QuantumComponent => quantum_shade
  | _ => fractal_shade
  end.

(** ** Client theorems, proved against the interface *)

(** For any kernel implementing [Shader v], every draw recorded by a
    reachable engine produces a valid colour: the engine's invariant
    discharges the kernel's precondition on [collapse]. *)
Lemma shader_draws_valid (v : Variant) `{Shader v} (e : Engine) (d : Draw) (uv : vec2) :
  reachable v e -> List.In d (draws e) -> valid_color (shade (d_uniforms d) uv).
Proof.
  intros Hr Hin. apply shade_valid.
  pose proof (inv_draws_collapse _ _ (reachable_inv _ _ Hr)) as Hall.
  rewrite List.Forall_forall in Hall. exact (Hall d Hin).
Qed.

(** The kernels of the instances are the ones the entry points compile. *)
Lemma kernel_shade (v : Variant) :
  exists S : Shader v, kernel v = @shade v S.
Proof.
  destruct v; [exists fractal_script_shader | exists fractal_component_shader
              | exists quantum_component_shader]; reflexivity.
Qed.

(** C28: every draw recorded by a reachable engine of any entry point,
    shaded by the fragment shader that entry point compiles
    ([fractal_shade] or [quantum_shade]), produces a valid colour at every
    surface coordinate: channels in [[0, 1]] and alpha 1. *)
Theorem draws_valid_pixels (v : Variant) (e : Engine) (d : Draw) (uv : vec2) :
  reachable v e -> List.In d (draws e) -> valid_color (kernel v (d_uniforms d) uv).
Proof.
  intros Hr Hin. destruct (kernel_shade v) as [S ->]. exact (shader_draws_valid v e d uv Hr Hin).
Qed.

Lemma draws_valid_pixels_witness :
  let e := setup QuantumComponent (mkWindow 800 600) 0 in
  reachable QuantumComponent e /\
  List.In (mkDraw (mkUniforms 0 (800, 600)%Z (Some 0%Q)) (js_div 800 600) (800, 600)%Z false)
          (draws e) /\
  valid_color (kernel QuantumComponent (mkUniforms 0 (800, 600)%Z (Some 0%Q)) ⟨ 0.5, 0.5 ⟩).
Proof.
  cbn zeta. assert (Hr := setup_reachable QuantumComponent 800 600 0 ltac:(lia) ltac:(lia)).
  assert (Hin : List.In (mkDraw (mkUniforms 0 (800, 600)%Z (Some 0%Q)) (js_div 800 600) (800, 600)%Z false)
                        (draws (setup QuantumComponent (mkWindow 800 600) 0))).
  { left. reflexivity. }
  split; [exact Hr | split; [exact Hin|]].
  exact (draws_valid_pixels QuantumComponent _ _ ⟨ 0.5, 0.5 ⟩ Hr Hin).
Defined.

(** C29: After an odd number of clicks since mounting (no cleanup, any
    frames and resizes interleaved), the next frame's draw shows the
    collapsed colour at every coordinate: [stateA] scaled by the pattern,
    whatever the time it was drawn at. *)
Theorem odd_clicks_collapsed_pixels (win : Window) (now tnow : Q) (evs : list Event) :
  ~ List.In EffectCleanup evs -> Nat.odd (count_clicks evs) = true ->
  let e := run QuantumComponent evs (setup QuantumComponent win now) in
  exists d, draws (step QuantumComponent (AnimationFrame tnow) e) = d :: draws e /\
  forall uv, shade (d_uniforms d) uv =
             mkvec4 (v3scale stateA (0.5 + 0.5 * interference uv (Q2R (u_time (d_uniforms d))))) 1.
Proof.
  intros Hni Hodd e.
  assert (Hraf : raf_pending e = true) by (apply run_raf; reflexivity).
  assert (Hcol : u_collapse (uniforms e) = Some 1%Q).
  { unfold e. rewrite run_collapse; [| exact Hni | reflexivity | cbn; set_solver].
    rewrite flip_iter_zero, <- Nat.negb_odd, Hodd. reflexivity. }
  rewrite step_frame by exact Hraf. rewrite animate_eq. eexists. split; [reflexivity|].
  assert (Hcol' : u_collapse (uniforms (set_raf_pending false (set_host_now tnow e))) = Some 1%Q)
    by exact Hcol.
  intros uv. cbn [shade quantum_component_shader d_uniforms]. unfold quantum_shade.
  cbn [u_collapse time_set]. rewrite Hcol'. unfold uniform_float, quantum_main.
  replace (Q2R 1) with 1 by (unfold Q2R; simpl; lra). now rewrite mix3_1.
Qed.

Lemma odd_clicks_collapsed_pixels_witness :
  ~ List.In EffectCleanup [CanvasClick; AnimationFrame 16] /\
  Nat.odd (count_clicks [CanvasClick; AnimationFrame 16]) = true /\
  exists d, draws (step QuantumComponent (AnimationFrame 33)
                 (run QuantumComponent [CanvasClick; AnimationFrame 16]
                    (setup QuantumComponent (mkWindow 800 600) 0))) =
            d :: draws (run QuantumComponent [CanvasClick; AnimationFrame 16]
                    (setup QuantumComponent (mkWindow 800 600) 0)).
Proof.
  assert (H1 : ~ List.In EffectCleanup [CanvasClick; AnimationFrame 16]) by (simpl; intuition discriminate).
  assert (H2 : Nat.odd (count_clicks [CanvasClick; AnimationFrame 16]) = true) by reflexivity.
  split; [exact H1 | split; [exact H2|]].
  destruct (odd_clicks_collapsed_pixels (mkWindow 800 600) 0 33 _ H1 H2) as (d & Hd & _).
  exists d. exact Hd.
Defined.
