(* ===== verification/Surface.v ===== *)
(** * The surface on screen: engine and vertex stage together

    The engine's camera keeps the constants of [new THREE.PerspectiveCamera
    (75, ..., 0.1, 1000)] and [camera.position.z = 2] through every host
    event: [handleResize] only changes its aspect and refreshes the
    projection.  With the viewport invariant of [EngineProps] this gives,
    for every mounted engine state with no resize pending, exactly when
    the [4 x 4] plane covers the canvas: the window's aspect times
    [tan(37.5 degrees)] must not exceed 1.  Square and portrait windows are
    always covered; landscape windows at least [sqrt 3] times as wide as
    high (16:9 among them) never are.  With the renderer's viewport of the
    window's size ([Viewport]) and the rasteriser ([Raster]), every
    fragment's [vUv] is an isotropic affine function of its window
    position. *)

From Stdlib Require Import String.
From S2P Require Import Prelude Glsl Plane Host Viewport Projection Raster Engine EngineProps.
From stdpp Require Import base gmap sets.

Open Scope R_scope.

Lemma setup_repo_camera (v : Variant) (win : Window) (now : Q) :
  repo_camera (camera (setup v win now)).
Proof. destruct v; exact (new_camera_repo win). Qed.

Lemma step_repo_camera (v : Variant) (ev : Event) (e : Engine) :
  repo_camera (camera e) -> repo_camera (camera (step v ev e)).
Proof.
  intros H. destruct ev; cbn [step]; try exact H.
  - destruct (resize_queued e); [|exact H]. destruct (decide _); exact H.
  - destruct (_ && _); exact H.
  - destruct (raf_pending e); [rewrite animate_eq|]; exact H.
  - destruct v; cbn [cleanup]; [exact H | rewrite fractal_cleanup_eq | rewrite quantum_cleanup_eq]; exact H.
Qed.

Lemma reachable_repo_camera (v : Variant) (e : Engine) :
  reachable v e -> repo_camera (camera e).
Proof.
  induction 1 as [win now | e ev _ IH _]; [apply setup_repo_camera | now apply step_repo_camera].
Qed.

(** The camera of a mounted, settled engine projects with the window's aspect. *)
Lemma reachable_proj_aspect (v : Variant) (e : Engine) :
  reachable v e -> disposed (renderer e) = false -> resize_queued e = false ->
  proj_aspect (camera e) = js_div (innerWidth (window e)) (innerHeight (window e)).
Proof.
  intros Hr Hd Hq. destruct (inv_viewport _ _ (reachable_inv _ _ Hr) Hd Hq) as (_ & _ & H3 & H4).
  now rewrite H4.
Qed.

(** C31: in every mounted state with no resize pending and a
    window of [W x H > 0] pixels, the plane covers the canvas exactly when
    [(W / H) * tan(37.5 degrees) <= 1]. *)
Theorem reachable_coverage_iff (v : Variant) (e : Engine) :
  reachable v e -> disposed (renderer e) = false -> resize_queued e = false ->
  (0 < innerWidth (window e))%Z -> (0 < innerHeight (window e))%Z ->
  (covers_viewport (camera e) <->
   IZR (innerWidth (window e)) / IZR (innerHeight (window e)) * tan half_fov <= 1).
Proof.
  intros Hr Hd Hq HW HH. pose proof (reachable_proj_aspect v e Hr Hd Hq) as Ha.
  destruct (js_div_window _ _ HW HH) as (Hj & Hp & Hv). rewrite Hj in Ha. rewrite <- Hv.
  pose proof (reachable_repo_camera v e Hr) as Hc.
  split; [apply bound_of_coverage | apply coverage_of_bound]; assumption.
Qed.

(** C30: in every mounted state with no resize pending, a
    window at least [sqrt 3] times as wide as high ([3 H^2 <= W^2], e.g.
    1920 x 1080) is not covered: the canvas shows bands without surface at
    its left and right edges. *)
Theorem reachable_wide_uncovered (v : Variant) (e : Engine) :
  reachable v e -> disposed (renderer e) = false -> resize_queued e = false ->
  (0 < innerWidth (window e))%Z -> (0 < innerHeight (window e))%Z ->
  (3 * innerHeight (window e) * innerHeight (window e) <= innerWidth (window e) * innerWidth (window e))%Z ->
  ~ covers_viewport (camera e).
Proof.
  intros Hr Hd Hq HW HH Hwide.
  exact (wide_aspect_uncovered _ _ _ (reachable_repo_camera v e Hr) (reachable_proj_aspect v e Hr Hd Hq)
           HW HH Hwide).
Qed.

(** In every mounted state with no resize pending, a
    window at most as wide as high is covered whole. *)
Lemma reachable_narrow_covered (v : Variant) (e : Engine) :
  reachable v e -> disposed (renderer e) = false -> resize_queued e = false ->
  (0 < innerWidth (window e))%Z -> (innerWidth (window e) <= innerHeight (window e))%Z ->
  covers_viewport (camera e).
Proof.
  intros Hr Hd Hq HW HWH.
  exact (narrow_aspect_covered _ _ _ (reachable_repo_camera v e Hr) (reachable_proj_aspect v e Hr Hd Hq)
           HW HWH).
Qed.

(** The renderer of a mounted, settled engine draws into a viewport of
    the window's size. *)
Lemma reachable_gl_viewport (v : Variant) (e : Engine) :
  reachable v e -> disposed (renderer e) = false -> resize_queued e = false ->
  gl_viewport (renderer e) = mkViewport 0 0 (innerWidth (window e)) (innerHeight (window e)).
Proof.
  intros Hr Hd Hq. destruct (inv_viewport _ _ (reachable_inv _ _ Hr) Hd Hq) as (_ & H2 & _).
  unfold gl_viewport, pixelRatio. rewrite H2. cbn [fst snd]. now rewrite !Z.mul_1_r.
Qed.

(** C32: in every mounted state with no resize pending and a window of
    [W x H > 0] pixels, every fragment of the plane at window position
    [(x_w, y_w)] receives
    [vUv = (1/2 + t (2 x_w - W) / (2 H), 1/2 + t (2 y_w - H) / (2 H))],
    [t = tan(37.5 degrees)], inside [[0, 1]^2]: one pixel step moves the
    kernel's coordinate by [t / H] along either axis, so the image is never
    stretched, whatever the window's shape, and its centre is
    [(0.5, 0.5)]. *)
Theorem pixel_uv (v : Variant) (e : Engine) :
  reachable v e -> disposed (renderer e) = false -> resize_queued e = false ->
  (0 < innerWidth (window e))%Z -> (0 < innerHeight (window e))%Z ->
  exists P, projectionMatrix (camera e) = Some P /\
  forall (tri : nat * nat * nat) (l0 l1 l2 : R),
    In tri (triangles (b_indices (plane_arrays 4 4 100 100))) ->
    0 <= l0 -> 0 <= l1 -> 0 <= l2 -> l0 + l1 + l2 = 1 ->
    let f := rasterize P (modelViewMatrix (camera e)) plane tri l0 l1 l2 in
    let q := window_of_ndc (gl_viewport (renderer e)) (frag_ndc f) in
    frag_vUv f =
      ⟨ 1 / 2 + tan half_fov * (2 * vx q - IZR (innerWidth (window e))) / (2 * IZR (innerHeight (window e))),
        1 / 2 + tan half_fov * (2 * vy q - IZR (innerHeight (window e))) / (2 * IZR (innerHeight (window e))) ⟩ /\
    0 <= vx (frag_vUv f) <= 1 /\ 0 <= vy (frag_vUv f) <= 1.
Proof.
  intros Hr Hd Hq HW HH.
  pose proof (reachable_proj_aspect v e Hr Hd Hq) as Ha. pose proof (reachable_repo_camera v e Hr) as Hc.
  destruct (js_div_window _ _ HW HH) as (Hj & Hp & Hv). rewrite Hj in Ha.
  destruct (vertex_clip _ _ Hc Ha (aspect_nonzero _ Hp)) as (P & HP & _).
  exists P; split; [exact HP|]. intros tri l0 l1 l2 Htri H0 H1 H2 Hl f q.
  destruct (fragment_uv _ _ tri l0 l1 l2 Hc Ha Hp Htri H0 H1 H2 Hl) as (P' & HP' & Heq & Hb).
  rewrite HP in HP'. injection HP' as <-. fold f in Heq, Hb. split; [|exact Hb].
  rewrite Heq. unfold q. rewrite (reachable_gl_viewport v e Hr Hd Hq), Hv.
  unfold window_of_ndc; cbn [vx vy vp_x vp_y vp_w vp_h].
  assert (0 < IZR (innerWidth (window e))) by (apply IZR_lt; lia).
  assert (0 < IZR (innerHeight (window e))) by (apply IZR_lt; lia).
  f_equal; field; lra.
Qed.

(** ** Witnesses *)

Lemma reachable_coverage_iff_witness :
  let e := setup QuantumComponent (mkWindow 1000 1000) 0 in
  covers_viewport (camera e) <-> IZR 1000 / IZR 1000 * tan half_fov <= 1.
Proof.
  cbn zeta. assert (Hr := setup_reachable QuantumComponent 1000 1000 0 ltac:(lia) ltac:(lia)).
  exact (reachable_coverage_iff _ _ Hr eq_refl eq_refl ltac:(reflexivity) ltac:(reflexivity)).
Defined.

Lemma reachable_wide_uncovered_witness :
  let e := setup FractalComponent (mkWindow 1920 1080) 0 in
  (3 * 1080 * 1080 <= 1920 * 1920)%Z /\ ~ covers_viewport (camera e).
Proof.
  cbn zeta. assert (Hr := setup_reachable FractalComponent 1920 1080 0 ltac:(lia) ltac:(lia)).
  split; [lia|].
  exact (reachable_wide_uncovered _ _ Hr eq_refl eq_refl ltac:(reflexivity) ltac:(reflexivity)
           ltac:(vm_compute; discriminate)).
Defined.

Lemma pixel_uv_witness :
  let e := setup QuantumComponent (mkWindow 1280 720) 0 in
  (0 < innerWidth (window e))%Z /\
  exists P, projectionMatrix (camera e) = Some P /\
  forall (tri : nat * nat * nat) (l0 l1 l2 : R),
    In tri (triangles (b_indices (plane_arrays 4 4 100 100))) ->
    0 <= l0 -> 0 <= l1 -> 0 <= l2 -> l0 + l1 + l2 = 1 ->
    let f := rasterize P (modelViewMatrix (camera e)) plane tri l0 l1 l2 in
    let q := window_of_ndc (gl_viewport (renderer e)) (frag_ndc f) in
    frag_vUv f =
      ⟨ 1 / 2 + tan half_fov * (2 * vx q - IZR (innerWidth (window e))) / (2 * IZR (innerHeight (window e))),
        1 / 2 + tan half_fov * (2 * vy q - IZR (innerHeight (window e))) / (2 * IZR (innerHeight (window e))) ⟩ /\
    0 <= vx (frag_vUv f) <= 1 /\ 0 <= vy (frag_vUv f) <= 1.
Proof.
  cbn zeta. assert (Hr := setup_reachable QuantumComponent 1280 720 0 ltac:(lia) ltac:(lia)).
  split; [reflexivity|].
  exact (pixel_uv _ _ Hr eq_refl eq_refl ltac:(reflexivity) ltac:(reflexivity)).
Defined.
